(** * The statistical engine of the health-outcomes navigator

    A shallow embedding of the 2x2-table engine of [App.tsx]: [normalCDF],
    [calculatePValueFromZ] and the computing part of [handleCalculate], with
    the properties the specification states about them; then of what
    surrounds the engine: [calculateRequiredSampleSize], the metrics that
    [fetchAiInterpretation] words for the report, the interval cell of the
    results table, and the reading of the form with [parseInt].

    Numbers.  The program computes in binary64, and the engine is embedded
    twice.

    [B64] has it over [float], the binary64 numbers themselves, with their
    rounding, overflow, underflow and signed zero; [Math.exp], [Math.log]
    and [toFixed] are variables there.  What depends only on the
    comparisons the handler makes and on the order of its operations is
    proved in [B64], for every input; the tables on which a statement of the
    specification fails are evaluated in [B64].

    [Js.number] is an exact real, one of the two infinities, or NaN.  The
    special values behave as in IEEE 754 (division by zero, [Math.log(0)],
    [Infinity - Infinity], ...) and finite arithmetic is exact: rounding,
    overflow, underflow and the sign of zero are outside this model.  It
    carries what needs the exponential, the logarithm and the square root
    as real functions.  A theorem about tables in this model is stated for
    tables of a bounded size, below 2^53 or [moderate], where the sums of
    the program are exact and its comparisons come out as they do here, or
    relates the computed numbers within a margin that covers the
    rounding. *)

From Stdlib Require Import Reals Lra Lia Psatz ZArith Bool List.
From Stdlib Require Import Ascii String Decimal DecimalString DecimalN.
From Stdlib Require Floats.

#[local] Set Warnings "-inexact-float".

(* ================================================================= *)
(** ** JavaScript numbers *)

Module Js.

Local Open Scope R_scope.

Inductive number : Type :=
| Fin (r : R)
| PosInf
| NegInf
| NaN.

Definition Rltb (x y : R) : bool := if Rlt_dec x y then true else false.
Definition Rleb (x y : R) : bool := if Rle_dec x y then true else false.
Definition Reqb (x y : R) : bool := if Req_dec_T x y then true else false.

(** Infinity carrying the sign of a non-zero real. *)
Definition inf_of_sign (r : R) : number :=
  if Rltb r 0 then NegInf else PosInf.

Definition neg (x : number) : number :=
  match x with
  | Fin r => Fin (- r)
  | PosInf => NegInf
  | NegInf => PosInf
  | NaN => NaN
  end.

Definition add (x y : number) : number :=
  match x, y with
  | NaN, _ | _, NaN => NaN
  | Fin a, Fin b => Fin (a + b)
  | PosInf, NegInf | NegInf, PosInf => NaN
  | PosInf, _ | _, PosInf => PosInf
  | NegInf, _ | _, NegInf => NegInf
  end.

Definition sub (x y : number) : number := add x (neg y).

Definition mul (x y : number) : number :=
  match x, y with
  | NaN, _ | _, NaN => NaN
  | Fin a, Fin b => Fin (a * b)
  | Fin a, PosInf | PosInf, Fin a => if Reqb a 0 then NaN else inf_of_sign a
  | Fin a, NegInf | NegInf, Fin a => if Reqb a 0 then NaN else inf_of_sign (- a)
  | PosInf, PosInf | NegInf, NegInf => PosInf
  | PosInf, NegInf | NegInf, PosInf => NegInf
  end.

(** Division; a zero divisor is read as [+0]. *)
Definition div (x y : number) : number :=
  match x, y with
  | NaN, _ | _, NaN => NaN
  | Fin a, Fin b =>
      if Reqb b 0
      then (if Reqb a 0 then NaN else inf_of_sign a)
      else Fin (a / b)
  | Fin _, _ => Fin 0
  | PosInf, Fin b => inf_of_sign b
  | NegInf, Fin b => neg (inf_of_sign b)
  | _, _ => NaN
  end.

(** [Math.abs], [Math.sqrt], [Math.exp], [Math.log]. *)
Definition abs (x : number) : number :=
  match x with
  | Fin r => Fin (Rabs r)
  | PosInf | NegInf => PosInf
  | NaN => NaN
  end.

Definition sqrt (x : number) : number :=
  match x with
  | Fin r => if Rltb r 0 then NaN else Fin (R_sqrt.sqrt r)
  | PosInf => PosInf
  | NegInf | NaN => NaN
  end.

Definition exp (x : number) : number :=
  match x with
  | Fin r => Fin (Rtrigo_def.exp r)
  | PosInf => PosInf
  | NegInf => Fin 0
  | NaN => NaN
  end.

Definition log (x : number) : number :=
  match x with
  | Fin r =>
      if Rltb r 0 then NaN
      else if Reqb r 0 then NegInf
      else Fin (ln r)
  | PosInf => PosInf
  | NegInf | NaN => NaN
  end.

(** Comparisons: [<], [<=], [===]; anything compared with NaN is false. *)
Definition lt (x y : number) : bool :=
  match x, y with
  | NaN, _ | _, NaN => false
  | Fin a, Fin b => Rltb a b
  | NegInf, NegInf | PosInf, _ | _, NegInf => false
  | NegInf, _ | _, PosInf => true
  end.

Definition le (x y : number) : bool :=
  match x, y with
  | NaN, _ | _, NaN => false
  | Fin a, Fin b => Rleb a b
  | NegInf, _ | _, PosInf => true
  | PosInf, _ | _, NegInf => false
  end.

Definition eq (x y : number) : bool :=
  match x, y with
  | Fin a, Fin b => Reqb a b
  | PosInf, PosInf | NegInf, NegInf => true
  | _, _ => false
  end.

Definition gt (x y : number) : bool := lt y x.
Definition ge (x y : number) : bool := le y x.
Definition ne (x y : number) : bool := negb (eq x y).

Definition isNaN (x : number) : bool :=
  match x with NaN => true | _ => false end.

(** *** [Number.prototype.toFixed]

    For a finite [x] below [10^21]: the integer [n] nearest to [x * 10^f]
    (the larger one on a tie), written in decimal, left-padded with zeros to
    [f + 1] digits, with a point before the last [f] digits; a leading minus
    sign when [x < 0].  At and above [10^21] JavaScript switches to the
    exponent notation of [Number::toString]; only the plain digits are
    written here. *)

Local Open Scope string_scope.

Fixpoint zeros (k : nat) : string :=
  match k with
  | O => ""
  | S k' => String "0" (zeros k')
  end.

Definition digits (n : Z) : string :=
  NilZero.string_of_uint (N.to_uint (Z.to_N n)).

Definition nearest (x : R) : Z := Zfloor (x + / 2).

Definition toFixed_pos (x : R) (f : nat) : string :=
  let n := nearest (x * 10 ^ f) in
  let m := digits n in
  match f with
  | O => m
  | S _ =>
      let k := String.length m in
      let m := if (k <=? f)%nat then zeros (f + 1 - k) ++ m else m in
      let k := String.length m in
      substring 0 (k - f) m ++ "." ++ substring (k - f) f m
  end.

Definition toFixed (x : number) (f : nat) : string :=
  match x with
  | NaN => "NaN"
  | PosInf => "Infinity"
  | NegInf => "-Infinity"
  | Fin r => if Rltb r 0 then "-" ++ toFixed_pos (- r) f else toFixed_pos r f
  end.

(** [isFinite], [Math.ceil], [Math.pow] for a natural exponent, the
    conversion of a number to a boolean in a condition, and [x || y] on
    numbers. *)
Definition isFinite (x : number) : bool :=
  match x with Fin _ => true | _ => false end.

Definition ceil (x : number) : number :=
  match x with Fin r => Fin (IZR (Zceil r)) | _ => x end.

Fixpoint pow (x : number) (n : nat) : number :=
  match n with
  | O => Fin 1
  | S n' => mul x (pow x n')
  end.

Definition truthy (x : number) : bool :=
  match x with
  | Fin r => negb (Reqb r 0)
  | NaN => false
  | PosInf | NegInf => true
  end.

Definition or_else (x y : number) : number := if truthy x then x else y.

(** The number of a mathematical integer: the binary64 value nearest to it,
    the one with an even significand when two are equally near, and an
    infinity from [2^1024 - 2^970] on.  An integer of at most 53 bits is its
    own number. *)
Definition round_to_53_bits (m : N) : N :=
  let k := N.size m in
  if (k <=? 53)%N then m
  else
    let s := (k - 53)%N in
    let q := N.shiftr m s in
    let rem := (m - N.shiftl q s)%N in
    let half := N.shiftl 1 (s - 1) in
    let q := if (half <? rem)%N || ((rem =? half)%N && N.odd q) then (q + 1)%N else q in
    N.shiftl q s.

Definition of_integer (z : Z) : number :=
  let m := round_to_53_bits (Z.abs_N z) in
  if (2 ^ 1024 <=? m)%N then (if (z <? 0)%Z then NegInf else PosInf)
  else Fin (IZR (Z.sgn z * Z.of_N m)).

End Js.

Declare Scope js_scope.
Delimit Scope js_scope with js.
Bind Scope js_scope with Js.number.
Coercion Js.Fin : R >-> Js.number.

Infix "+" := Js.add : js_scope.
Infix "-" := Js.sub : js_scope.
Infix "*" := Js.mul : js_scope.
Infix "/" := Js.div : js_scope.
Notation "- x" := (Js.neg x) : js_scope.
Infix "<" := Js.lt : js_scope.
Infix ">" := Js.gt : js_scope.
Infix ">=" := Js.ge : js_scope.
Infix "===" := Js.eq (at level 70, no associativity) : js_scope.
Infix "!==" := Js.ne (at level 70, no associativity) : js_scope.

(* ================================================================= *)
(** ** Normal approximation and significance *)

Section Significance.

Local Open Scope R_scope.
Local Open Scope string_scope.
Local Open Scope js_scope.

(** Standard normal cumulative distribution function, with the Abramowitz
    and Stegun approximation of erf. *)
Definition normalCDF (x : Js.number) : Js.number :=
  let p : Js.number := 0.3275911 in
  let a1 : Js.number := 0.254829592 in
  let a2 : Js.number := (-0.284496736)%R in
  let a3 : Js.number := 1.421413741 in
  let a4 : Js.number := (-1.453152027)%R in
  let a5 : Js.number := 1.061405429 in
  let z := x / Js.sqrt 2 in
  let sign : Js.number := if z >= 0 then 1 else (-1)%R in
  let t := 1.0 / (1.0 + p * Js.abs z) in
  let erf :=
    1.0 - (((((a5 * t + a4) * t) + a3) * t + a2) * t + a1) * t * Js.exp (- z * z) in
  let cdf := 0.5 * (1.0 + sign * erf) in
  cdf.

(** Two-tailed p-value of a Z statistic, as the string that is displayed. *)
Definition calculatePValueFromZ (z : Js.number) : string :=
  let absZ := Js.abs z in
  let p := 2 * (1 - normalCDF absZ) in
  if p < 0.0001 then "<0.0001" else Js.toFixed p 4.

End Significance.

(* ================================================================= *)
(** ** Data model *)

(** Modelled from the spec: the union types [StudyDesign] and [StudyGoal]
    are declared in [i18n.ts], which is not among the sources; the five
    designs and two goals are those the specification lists (the project
    notes name the same five). *)
Inductive StudyDesign : Type :=
| rct
| non_rct
| cohort_prospective
| cohort_retrospective
| case_control.

Inductive StudyGoal : Type :=
| desirable
| undesirable.

Definition StudyDesign_eqb (x y : StudyDesign) : bool :=
  match x, y with
  | rct, rct
  | non_rct, non_rct
  | cohort_prospective, cohort_prospective
  | cohort_retrospective, cohort_retrospective
  | case_control, case_control => true
  | _, _ => false
  end.

Definition StudyGoal_eqb (x y : StudyGoal) : bool :=
  match x, y with
  | desirable, desirable | undesirable, undesirable => true
  | _, _ => false
  end.

(** The four parsed cell counts ([values] and [corrected] in the handler). *)
Module Values.
Record t : Type := make { a : Js.number; b : Js.number; c : Js.number; d : Js.number }.
End Values.

(** [{ value }] *)
Module Point.
Record t : Type := make { value : Js.number }.
End Point.

(** [{ value, lower, upper }] *)
Module Interval.
Record t : Type := make { value : Js.number; lower : Js.number; upper : Js.number }.
End Interval.

(** [{ value, lower, upper, pValue, zStat }] *)
Module Ratio.
Record t : Type := make {
  value : Js.number;
  lower : Js.number;
  upper : Js.number;
  pValue : string;
  zStat : Js.number }.
End Ratio.

(** [{ absolute: { label, value }, relative: { label, value } }] *)
Module Impact.
Record measure : Type := make_measure { label : string; value : Js.number }.
Record t : Type := make { absolute : measure; relative : measure }.
End Impact.

(** [{ value, type, lower, upper }] *)
Module Nnt.
Inductive type : Type := Benefit | Harm.
Record t : Type := make {
  value : Js.number;
  type_ : type;
  lower : Js.number;
  upper : Js.number }.
End Nnt.

(** The [Results] interface of [types.ts]; [null] is [None]. *)
Record Results : Type := mkResults {
  absoluteRiskExposed : option Point.t;
  absoluteRiskControl : option Point.t;
  riskDifference : option Interval.t;
  relativeRisk : option Ratio.t;
  oddsRatio : option Ratio.t;
  impactMeasures : option Impact.t;
  nnt : option Nnt.t;
  power : option Point.t;
  type1Error : option Point.t;
  type2Error : option Point.t }.

(** Assignments [newResults.field = v]. *)
Definition set_absoluteRiskExposed v (r : Results) : Results :=
  mkResults v (absoluteRiskControl r) (riskDifference r) (relativeRisk r)
    (oddsRatio r) (impactMeasures r) (nnt r) (power r) (type1Error r) (type2Error r).
Definition set_absoluteRiskControl v (r : Results) : Results :=
  mkResults (absoluteRiskExposed r) v (riskDifference r) (relativeRisk r)
    (oddsRatio r) (impactMeasures r) (nnt r) (power r) (type1Error r) (type2Error r).
Definition set_riskDifference v (r : Results) : Results :=
  mkResults (absoluteRiskExposed r) (absoluteRiskControl r) v (relativeRisk r)
    (oddsRatio r) (impactMeasures r) (nnt r) (power r) (type1Error r) (type2Error r).
Definition set_relativeRisk v (r : Results) : Results :=
  mkResults (absoluteRiskExposed r) (absoluteRiskControl r) (riskDifference r) v
    (oddsRatio r) (impactMeasures r) (nnt r) (power r) (type1Error r) (type2Error r).
Definition set_oddsRatio v (r : Results) : Results :=
  mkResults (absoluteRiskExposed r) (absoluteRiskControl r) (riskDifference r)
    (relativeRisk r) v (impactMeasures r) (nnt r) (power r) (type1Error r) (type2Error r).
Definition set_impactMeasures v (r : Results) : Results :=
  mkResults (absoluteRiskExposed r) (absoluteRiskControl r) (riskDifference r)
    (relativeRisk r) (oddsRatio r) v (nnt r) (power r) (type1Error r) (type2Error r).
Definition set_nnt v (r : Results) : Results :=
  mkResults (absoluteRiskExposed r) (absoluteRiskControl r) (riskDifference r)
    (relativeRisk r) (oddsRatio r) (impactMeasures r) v (power r) (type1Error r) (type2Error r).
Definition set_power v (r : Results) : Results :=
  mkResults (absoluteRiskExposed r) (absoluteRiskControl r) (riskDifference r)
    (relativeRisk r) (oddsRatio r) (impactMeasures r) (nnt r) v (type1Error r) (type2Error r).
Definition set_type1Error v (r : Results) : Results :=
  mkResults (absoluteRiskExposed r) (absoluteRiskControl r) (riskDifference r)
    (relativeRisk r) (oddsRatio r) (impactMeasures r) (nnt r) (power r) v (type2Error r).
Definition set_type2Error v (r : Results) : Results :=
  mkResults (absoluteRiskExposed r) (absoluteRiskControl r) (riskDifference r)
    (relativeRisk r) (oddsRatio r) (impactMeasures r) (nnt r) (power r) (type1Error r) v.

(* ================================================================= *)
(** ** The metric engine *)

Section Engine.

Local Open Scope R_scope.
Local Open Scope string_scope.
Local Open Scope js_scope.

Section Body.

Variable values : Values.t.
Variable studyDesign : StudyDesign.
Variable studyGoal : StudyGoal.

(** The local constants of the handler, in the order it declares them. *)

Definition corrected : Values.t :=
  Values.make
    (if Values.a values === 0 then Js.Fin 0.5 else Values.a values)
    (if Values.b values === 0 then Js.Fin 0.5 else Values.b values)
    (if Values.c values === 0 then Js.Fin 0.5 else Values.c values)
    (if Values.d values === 0 then Js.Fin 0.5 else Values.d values).

Local Abbreviation a := (Values.a values).
Local Abbreviation b := (Values.b values).
Local Abbreviation c := (Values.c values).
Local Abbreviation d := (Values.d values).
Local Abbreviation ca := (Values.a corrected).
Local Abbreviation cb := (Values.b corrected).
Local Abbreviation cc := (Values.c corrected).
Local Abbreviation cd := (Values.d corrected).

Definition exposedTotal : Js.number := a + b.
Definition controlTotal : Js.number := c + d.
Definition exposedTotal_c : Js.number := ca + cb.
Definition controlTotal_c : Js.number := cc + cd.

Definition riskExposed : Js.number := a / exposedTotal.
Definition riskControl : Js.number := c / controlTotal.
Definition riskExposed_c : Js.number := ca / exposedTotal_c.
Definition riskControl_c : Js.number := cc / controlTotal_c.

Definition rd : Js.number := riskExposed - riskControl.
Definition se_rd : Js.number :=
  Js.sqrt ((riskExposed_c * (1 - riskExposed_c) / exposedTotal_c)
           + (riskControl_c * (1 - riskControl_c) / controlTotal_c)).

Definition alpha : Js.number := 0.05.
Definition z_alpha_half : Js.number := 1.96.
Definition p_pooled : Js.number := (a + c) / (exposedTotal + controlTotal).
Definition se_alt_variance : Js.number :=
  (riskExposed * (1 - riskExposed) / exposedTotal)
  + (riskControl * (1 - riskControl) / controlTotal).

(** [or] in the source. *)
Definition odds_ratio : Js.number := (ca * cd) / (cb * cc).

(** The handler builds [newResults] by successive assignments.  Each group
    of assignments below is one block of the source, as a function from the
    record before it to the record after it. *)

(** The initial object: every field null. *)
Definition initialResults : Results :=
  mkResults None None None None None None None None None None.

(** Absolute risks and risk difference. *)
Definition riskInterval : Interval.t :=
  Interval.make rd (rd - 1.96 * se_rd) (rd + 1.96 * se_rd).

Definition assignRisks (newResults : Results) : Results :=
  let newResults :=
    set_absoluteRiskExposed (Some (Point.make riskExposed)) newResults in
  let newResults :=
    set_absoluteRiskControl (Some (Point.make riskControl)) newResults in
  set_riskDifference (Some riskInterval) newResults.

(** Impact measures, labelled by goal and direction. *)
Definition assignImpactMeasures (newResults : Results) : Results :=
  if (riskControl > 0) && (rd !== 0) then
    let absoluteValue := Js.abs rd in
    let relativeValue := absoluteValue / riskControl in
    let '(absoluteLabel, relativeLabel) :=
      if StudyGoal_eqb studyGoal undesirable then
        if rd > 0
        then ("Absolute Risk Increase (ARI)", "Relative Risk Increase (RRI)")
        else ("Absolute Risk Reduction (ARR)", "Relative Risk Reduction (RRR)")
      else
        if rd > 0
        then ("Absolute Benefit Increase (ABI)", "Relative Benefit Increase (RBI)")
        else ("Absolute Benefit Reduction (ABR)", "Relative Benefit Reduction (RBR)")
    in
    set_impactMeasures
      (Some (Impact.make
               (Impact.make_measure absoluteLabel absoluteValue)
               (Impact.make_measure relativeLabel relativeValue)))
      newResults
  else newResults.

(** Relative risk; [riskExposed] may be 0. *)
Definition assignRelativeRisk (newResults : Results) : Results :=
  if (riskControl > 0) && (riskExposed >= 0) then
    let rr := if riskExposed === 0 then Js.Fin 0 else riskExposed / riskControl in
    let ln_rr := Js.log rr in
    let se_ln_rr :=
      Js.sqrt ((1 - riskExposed_c) / ca + (1 - riskControl_c) / cc) in
    let zStat := ln_rr / se_ln_rr in
    set_relativeRisk
      (Some (Ratio.make rr
               (Js.exp (ln_rr - 1.96 * se_ln_rr))
               (Js.exp (ln_rr + 1.96 * se_ln_rr))
               (calculatePValueFromZ zStat)
               zStat))
      newResults
  else newResults.

(** NNT/NNH.  A benefit reduces an undesirable outcome or increases a
    desirable one; the bounds are read back from [riskDifference], which
    [assignRisks] has just set to [riskInterval]. *)
Definition assignNnt (newResults : Results) : Results :=
  if rd !== 0 then
    let nntType :=
      if (StudyGoal_eqb studyGoal undesirable && (rd < 0))
         || (StudyGoal_eqb studyGoal desirable && (rd > 0))
      then Nnt.Benefit
      else Nnt.Harm in
    set_nnt
      (Some (Nnt.make (1 / Js.abs rd) nntType
               (1 / Interval.upper riskInterval)
               (1 / Interval.lower riskInterval)))
      newResults
  else newResults.

(** Post-hoc power. *)
Definition assignPower (newResults : Results) : Results :=
  if riskExposed !== riskControl then
    if (p_pooled > 0) && (p_pooled < 1) then
      let se_null :=
        Js.sqrt (p_pooled * (1 - p_pooled)
                 * (1 / exposedTotal + 1 / controlTotal)) in
      let critical_diff := z_alpha_half * se_null in
      if se_alt_variance > 0 then
        let se_alt := Js.sqrt se_alt_variance in
        let observed_diff := riskExposed - riskControl in
        let z_for_upper_tail := (critical_diff - observed_diff) / se_alt in
        let z_for_lower_tail := (- critical_diff - observed_diff) / se_alt in
        let power :=
          (1 - normalCDF z_for_upper_tail) + normalCDF z_for_lower_tail in
        let beta := 1 - power in
        set_type2Error (Some (Point.make beta))
          (set_type1Error (Some (Point.make alpha))
             (set_power (Some (Point.make power)) newResults))
      else
        (* undefined SE *)
        set_type2Error None
          (set_type1Error (Some (Point.make alpha))
             (set_power None newResults))
    else
      (* pooled proportion is 0 or 1 *)
      set_type2Error None
        (set_type1Error (Some (Point.make alpha))
           (set_power None newResults))
  else
    (* no difference: power is the type I error rate *)
    set_type2Error (Some (Point.make (1 - alpha)))
      (set_type1Error (Some (Point.make alpha))
         (set_power (Some (Point.make alpha)) newResults)).

(** Odds ratio, valid for all designs. *)
Definition assignOddsRatio (newResults : Results) : Results :=
  if (a >= 0) && (b > 0) && (c > 0) && (d >= 0) then
    let ln_or := Js.log odds_ratio in
    let se_ln_or := Js.sqrt (1 / ca + 1 / cb + 1 / cc + 1 / cd) in
    let zStat := ln_or / se_ln_or in
    set_oddsRatio
      (Some (Ratio.make odds_ratio
               (Js.exp (ln_or - 1.96 * se_ln_or))
               (Js.exp (ln_or + 1.96 * se_ln_or))
               (calculatePValueFromZ zStat)
               zStat))
      newResults
  else newResults.

(** The value of [newResults] when [handleCalculate] publishes it with
    [setResults], for parsed counts [values] that passed validation. *)
Definition newResults : Results :=
  let newResults := initialResults in
  let newResults :=
    if negb (StudyDesign_eqb studyDesign case_control) then
      if (exposedTotal > 0) && (controlTotal > 0) then
        let newResults := assignRisks newResults in
        let newResults := assignImpactMeasures newResults in
        let newResults := assignRelativeRisk newResults in
        let newResults := assignNnt newResults in
        assignPower newResults
      else newResults
    else newResults in
  assignOddsRatio newResults.

End Body.

(** What [handleCalculate] leaves in the component state: an error message
    or the results.  The messages themselves live in the translation table. *)
Inductive Message : Type :=
| errorStudyGoal
| errorStudyDesign
| errorInvalidNumber (key : string).

(** The handler, from the already parsed inputs ([parseInt] yields an integer
    or NaN): the goal and the design must be chosen and no count may be NaN
    or negative; the first failing check sets the error and returns. *)
Definition handleCalculate
    (studyGoal : option StudyGoal) (studyDesign : option StudyDesign)
    (values : Values.t) : Message + Results :=
  match studyGoal with
  | None => inl errorStudyGoal
  | Some goal =>
      match studyDesign with
      | None => inl errorStudyDesign
      | Some design =>
          let invalid (val : Js.number) := Js.isNaN val || (val < 0) in
          if invalid (Values.a values) then inl (errorInvalidNumber "a")
          else if invalid (Values.b values) then inl (errorInvalidNumber "b")
          else if invalid (Values.c values) then inl (errorInvalidNumber "c")
          else if invalid (Values.d values) then inl (errorInvalidNumber "d")
          else inr (newResults values design goal)
      end
  end.

End Engine.

(* ================================================================= *)
(** ** The engine in binary64 *)

(** The same functions once more, on the numbers the program computes with.
    [float] is IEEE 754 binary64, the [number] of JavaScript: every sum,
    difference, product, quotient and square root is rounded to the nearest
    double, a result too large becomes an infinity, one too small a zero,
    and zero has a sign.  Decimal literals denote the nearest double, as in
    the source text.

    [Math.exp], [Math.log] and [toFixed] are variables of the development:
    ECMAScript leaves the first two to the implementation (an approximation
    of the mathematical function) and the third produces the decimal text of
    a double.  No theorem about this module assumes anything of them. *)

Module B64.

Import PrimFloat.

Local Open Scope string_scope.
Local Open Scope float_scope.

Definition number : Set := float.

(** [>], [>=], [!==] and [isNaN]; [<], [<=] and [===] are [ltb], [leb] and
    [eqb], false as soon as an operand is NaN. *)
Definition gt (x y : number) : bool := y <? x.
Definition ge (x y : number) : bool := y <=? x.
Definition ne (x y : number) : bool := negb (x =? y).
Definition isNaN (x : number) : bool := is_nan x.

Local Infix "<" := ltb : float_scope.
Local Infix ">" := gt : float_scope.
Local Infix ">=" := ge : float_scope.
Local Infix "===" := eqb (at level 70, no associativity) : float_scope.
Local Infix "!==" := ne (at level 70, no associativity) : float_scope.

Module Values.
Record t : Set := make { a : number; b : number; c : number; d : number }.
End Values.

Module Point.
Record t : Set := make { value : number }.
End Point.

Module Interval.
Record t : Set := make { value : number; lower : number; upper : number }.
End Interval.

Module Ratio.
Record t : Set := make {
  value : number;
  lower : number;
  upper : number;
  pValue : string;
  zStat : number }.
End Ratio.

Module Impact.
Record measure : Set := make_measure { label : string; value : number }.
Record t : Set := make { absolute : measure; relative : measure }.
End Impact.

Module Nnt.
Inductive type : Set := Benefit | Harm.
Record t : Set := make {
  value : number;
  type_ : type;
  lower : number;
  upper : number }.
End Nnt.

Record Results : Set := mkResults {
  absoluteRiskExposed : option Point.t;
  absoluteRiskControl : option Point.t;
  riskDifference : option Interval.t;
  relativeRisk : option Ratio.t;
  oddsRatio : option Ratio.t;
  impactMeasures : option Impact.t;
  nnt : option Nnt.t;
  power : option Point.t;
  type1Error : option Point.t;
  type2Error : option Point.t }.

Definition set_absoluteRiskExposed v (r : Results) : Results :=
  mkResults v (absoluteRiskControl r) (riskDifference r) (relativeRisk r)
    (oddsRatio r) (impactMeasures r) (nnt r) (power r) (type1Error r) (type2Error r).
Definition set_absoluteRiskControl v (r : Results) : Results :=
  mkResults (absoluteRiskExposed r) v (riskDifference r) (relativeRisk r)
    (oddsRatio r) (impactMeasures r) (nnt r) (power r) (type1Error r) (type2Error r).
Definition set_riskDifference v (r : Results) : Results :=
  mkResults (absoluteRiskExposed r) (absoluteRiskControl r) v (relativeRisk r)
    (oddsRatio r) (impactMeasures r) (nnt r) (power r) (type1Error r) (type2Error r).
Definition set_relativeRisk v (r : Results) : Results :=
  mkResults (absoluteRiskExposed r) (absoluteRiskControl r) (riskDifference r) v
    (oddsRatio r) (impactMeasures r) (nnt r) (power r) (type1Error r) (type2Error r).
Definition set_oddsRatio v (r : Results) : Results :=
  mkResults (absoluteRiskExposed r) (absoluteRiskControl r) (riskDifference r)
    (relativeRisk r) v (impactMeasures r) (nnt r) (power r) (type1Error r) (type2Error r).
Definition set_impactMeasures v (r : Results) : Results :=
  mkResults (absoluteRiskExposed r) (absoluteRiskControl r) (riskDifference r)
    (relativeRisk r) (oddsRatio r) v (nnt r) (power r) (type1Error r) (type2Error r).
Definition set_nnt v (r : Results) : Results :=
  mkResults (absoluteRiskExposed r) (absoluteRiskControl r) (riskDifference r)
    (relativeRisk r) (oddsRatio r) (impactMeasures r) v (power r) (type1Error r) (type2Error r).
Definition set_power v (r : Results) : Results :=
  mkResults (absoluteRiskExposed r) (absoluteRiskControl r) (riskDifference r)
    (relativeRisk r) (oddsRatio r) (impactMeasures r) (nnt r) v (type1Error r) (type2Error r).
Definition set_type1Error v (r : Results) : Results :=
  mkResults (absoluteRiskExposed r) (absoluteRiskControl r) (riskDifference r)
    (relativeRisk r) (oddsRatio r) (impactMeasures r) (nnt r) (power r) v (type2Error r).
Definition set_type2Error v (r : Results) : Results :=
  mkResults (absoluteRiskExposed r) (absoluteRiskControl r) (riskDifference r)
    (relativeRisk r) (oddsRatio r) (impactMeasures r) (nnt r) (power r) (type1Error r) v.

Section Builtins.

(** [Math.exp], [Math.log] and [Number.prototype.toFixed]. *)
Variables exp log : number -> number.
Variable toFixed : number -> nat -> string.

Definition normalCDF (x : number) : number :=
  let p := 0.3275911 in
  let a1 := 0.254829592 in
  let a2 := -0.284496736 in
  let a3 := 1.421413741 in
  let a4 := -1.453152027 in
  let a5 := 1.061405429 in
  let z := x / sqrt 2 in
  let sign := if z >= 0 then 1 else -1 in
  let t := 1.0 / (1.0 + p * abs z) in
  let erf :=
    1.0 - (((((a5 * t + a4) * t) + a3) * t + a2) * t + a1) * t * exp ((- z) * z) in
  let cdf := 0.5 * (1.0 + sign * erf) in
  cdf.

Definition calculatePValueFromZ (z : number) : string :=
  let absZ := abs z in
  let p := 2 * (1 - normalCDF absZ) in
  if p < 0.0001 then "<0.0001" else toFixed p 4.

Section Body.

(** [values], and the object [corrected] the handler derives from it: the
    body is written over both, as the source destructures both. *)
Variables values corrected : Values.t.
Variable studyDesign : StudyDesign.
Variable studyGoal : StudyGoal.

Local Abbreviation a := (Values.a values).
Local Abbreviation b := (Values.b values).
Local Abbreviation c := (Values.c values).
Local Abbreviation d := (Values.d values).
Local Abbreviation ca := (Values.a corrected).
Local Abbreviation cb := (Values.b corrected).
Local Abbreviation cc := (Values.c corrected).
Local Abbreviation cd := (Values.d corrected).

Definition exposedTotal : number := a + b.
Definition controlTotal : number := c + d.
Definition exposedTotal_c : number := ca + cb.
Definition controlTotal_c : number := cc + cd.

Definition riskExposed : number := a / exposedTotal.
Definition riskControl : number := c / controlTotal.
Definition riskExposed_c : number := ca / exposedTotal_c.
Definition riskControl_c : number := cc / controlTotal_c.

Definition rd : number := riskExposed - riskControl.
Definition se_rd : number :=
  sqrt ((riskExposed_c * (1 - riskExposed_c) / exposedTotal_c)
        + (riskControl_c * (1 - riskControl_c) / controlTotal_c)).

Definition alpha : number := 0.05.
Definition z_alpha_half : number := 1.96.
Definition p_pooled : number := (a + c) / (exposedTotal + controlTotal).
Definition se_alt_variance : number :=
  (riskExposed * (1 - riskExposed) / exposedTotal)
  + (riskControl * (1 - riskControl) / controlTotal).

(** [or] in the source. *)
Definition odds_ratio : number := (ca * cd) / (cb * cc).

Definition initialResults : Results :=
  mkResults None None None None None None None None None None.

Definition riskInterval : Interval.t :=
  Interval.make rd (rd - 1.96 * se_rd) (rd + 1.96 * se_rd).

Definition assignRisks (newResults : Results) : Results :=
  let newResults :=
    set_absoluteRiskExposed (Some (Point.make riskExposed)) newResults in
  let newResults :=
    set_absoluteRiskControl (Some (Point.make riskControl)) newResults in
  set_riskDifference (Some riskInterval) newResults.

Definition assignImpactMeasures (newResults : Results) : Results :=
  if (riskControl > 0) && (rd !== 0) then
    let absoluteValue := abs rd in
    let relativeValue := absoluteValue / riskControl in
    let '(absoluteLabel, relativeLabel) :=
      if StudyGoal_eqb studyGoal undesirable then
        if rd > 0
        then ("Absolute Risk Increase (ARI)", "Relative Risk Increase (RRI)")
        else ("Absolute Risk Reduction (ARR)", "Relative Risk Reduction (RRR)")
      else
        if rd > 0
        then ("Absolute Benefit Increase (ABI)", "Relative Benefit Increase (RBI)")
        else ("Absolute Benefit Reduction (ABR)", "Relative Benefit Reduction (RBR)")
    in
    set_impactMeasures
      (Some (Impact.make
               (Impact.make_measure absoluteLabel absoluteValue)
               (Impact.make_measure relativeLabel relativeValue)))
      newResults
  else newResults.

Definition assignRelativeRisk (newResults : Results) : Results :=
  if (riskControl > 0) && (riskExposed >= 0) then
    let rr := if riskExposed === 0 then 0 else riskExposed / riskControl in
    let ln_rr := log rr in
    let se_ln_rr :=
      sqrt ((1 - riskExposed_c) / ca + (1 - riskControl_c) / cc) in
    let zStat := ln_rr / se_ln_rr in
    set_relativeRisk
      (Some (Ratio.make rr
               (exp (ln_rr - 1.96 * se_ln_rr))
               (exp (ln_rr + 1.96 * se_ln_rr))
               (calculatePValueFromZ zStat)
               zStat))
      newResults
  else newResults.

Definition assignNnt (newResults : Results) : Results :=
  if rd !== 0 then
    let nntType :=
      if (StudyGoal_eqb studyGoal undesirable && (rd < 0))
         || (StudyGoal_eqb studyGoal desirable && (rd > 0))
      then Nnt.Benefit
      else Nnt.Harm in
    set_nnt
      (Some (Nnt.make (1 / abs rd) nntType
               (1 / Interval.upper riskInterval)
               (1 / Interval.lower riskInterval)))
      newResults
  else newResults.

Definition assignPower (newResults : Results) : Results :=
  if riskExposed !== riskControl then
    if (p_pooled > 0) && (p_pooled < 1) then
      let se_null :=
        sqrt (p_pooled * (1 - p_pooled)
              * (1 / exposedTotal + 1 / controlTotal)) in
      let critical_diff := z_alpha_half * se_null in
      if se_alt_variance > 0 then
        let se_alt := sqrt se_alt_variance in
        let observed_diff := riskExposed - riskControl in
        let z_for_upper_tail := (critical_diff - observed_diff) / se_alt in
        let z_for_lower_tail := (- critical_diff - observed_diff) / se_alt in
        let power :=
          (1 - normalCDF z_for_upper_tail) + normalCDF z_for_lower_tail in
        let beta := 1 - power in
        set_type2Error (Some (Point.make beta))
          (set_type1Error (Some (Point.make alpha))
             (set_power (Some (Point.make power)) newResults))
      else
        set_type2Error None
          (set_type1Error (Some (Point.make alpha))
             (set_power None newResults))
    else
      set_type2Error None
        (set_type1Error (Some (Point.make alpha))
           (set_power None newResults))
  else
    set_type2Error (Some (Point.make (1 - alpha)))
      (set_type1Error (Some (Point.make alpha))
         (set_power (Some (Point.make alpha)) newResults)).

Definition assignOddsRatio (newResults : Results) : Results :=
  if (a >= 0) && (b > 0) && (c > 0) && (d >= 0) then
    let ln_or := log odds_ratio in
    let se_ln_or := sqrt (1 / ca + 1 / cb + 1 / cc + 1 / cd) in
    let zStat := ln_or / se_ln_or in
    set_oddsRatio
      (Some (Ratio.make odds_ratio
               (exp (ln_or - 1.96 * se_ln_or))
               (exp (ln_or + 1.96 * se_ln_or))
               (calculatePValueFromZ zStat)
               zStat))
      newResults
  else newResults.

(** The statements of the handler after validation, from the declaration
    of the totals to [setResults], over [values] and [corrected]. *)
Definition metrics : Results :=
  let newResults := initialResults in
  let newResults :=
    if negb (StudyDesign_eqb studyDesign case_control) then
      if (exposedTotal > 0) && (controlTotal > 0) then
        let newResults := assignRisks newResults in
        let newResults := assignImpactMeasures newResults in
        let newResults := assignRelativeRisk newResults in
        let newResults := assignNnt newResults in
        assignPower newResults
      else newResults
    else newResults in
  assignOddsRatio newResults.

End Body.

(** [corrected]: a zero cell is replaced by 0.5. *)
Definition corrected (values : Values.t) : Values.t :=
  Values.make
    (if Values.a values === 0 then 0.5 else Values.a values)
    (if Values.b values === 0 then 0.5 else Values.b values)
    (if Values.c values === 0 then 0.5 else Values.c values)
    (if Values.d values === 0 then 0.5 else Values.d values).

(** The value of [newResults] that [handleCalculate] publishes. *)
Definition newResults (values : Values.t)
    (studyDesign : StudyDesign) (studyGoal : StudyGoal) : Results :=
  metrics values (corrected values) studyDesign studyGoal.

(** The check every parsed count must pass. *)
Definition invalid (val : number) : bool := isNaN val || (val < 0).

Definition handleCalculate
    (studyGoal : option StudyGoal) (studyDesign : option StudyDesign)
    (values : Values.t) : Message + Results :=
  match studyGoal with
  | None => inl errorStudyGoal
  | Some goal =>
      match studyDesign with
      | None => inl errorStudyDesign
      | Some design =>
          if invalid (Values.a values) then inl (errorInvalidNumber "a")
          else if invalid (Values.b values) then inl (errorInvalidNumber "b")
          else if invalid (Values.c values) then inl (errorInvalidNumber "c")
          else if invalid (Values.d values) then inl (errorInvalidNumber "d")
          else inr (newResults values design goal)
      end
  end.

End Builtins.

End B64.

(* ================================================================= *)
(** ** Valid tables *)

(** A validated cell count: the number [parseInt] returns for a decimal
    numeral. *)
Definition count (n : N) : R := IZR (Z.of_N n).

Definition table (a b c d : N) : Values.t :=
  Values.make (Js.Fin (count a)) (Js.Fin (count b))
              (Js.Fin (count c)) (Js.Fin (count d)).

(** The quantities of the specification, over the reals: the incidence
    [x / (x + y)] of a group and a continuity-corrected cell. *)
Definition risk (x y : N) : R := (count x / (count x + count y))%R.

Definition corrected_cell (n : N) : R :=
  if (n =? 0)%N then 0.5%R else count n.

(** A table of fewer than 2^26 subjects.  The sums and the products of its
    counts are exact in binary64, and two of its risks that differ differ by
    at least 2^-50, more than the rounding of the two quotients. *)
Definition moderate (a b c d : N) : Prop := (a + b + c + d < 2 ^ 26)%N.

(** The test that guards the incidence metrics in the handler: a design
    other than case-control and two non-empty groups. *)
Definition has_incidence (values : Values.t) (studyDesign : StudyDesign) : bool :=
  negb (StudyDesign_eqb studyDesign case_control)
  && (Js.gt (exposedTotal values) (Js.Fin 0)
      && Js.gt (controlTotal values) (Js.Fin 0)).

(* ================================================================= *)
(** ** The normal approximation on the reals *)

Section RealReading.

Local Open Scope R_scope.

(** What [normalCDF] computes on a finite argument, written over the reals:
    the approximation of [erf (|z|)] and the resulting distribution
    function.  [normalCDF_fin] below relates them to the code. *)
Definition erf_approx (z : R) : R :=
  let t := 1.0 / (1.0 + 0.3275911 * Rabs z) in
  1.0 - (((((1.061405429 * t + -1.453152027) * t) + 1.421413741) * t
          + -0.284496736) * t + 0.254829592) * t * exp (- z * z).

Definition cdf (x : R) : R :=
  let z := x / sqrt 2 in
  let sign := if Rle_dec 0 z then 1 else -1 in
  0.5 * (1.0 + sign * erf_approx z).

End RealReading.



(** No character of the string is ["<"]. *)
Fixpoint lt_free (s : string) : bool :=
  match s with
  | EmptyString => true
  | String ch s' => negb (Ascii.eqb ch "<"%char) && lt_free s'
  end.

(* ================================================================= *)
(** ** Required sample size *)

Import ListNotations.

Section SampleSize.

Local Open Scope R_scope.
Local Open Scope js_scope.

(** The sample size per group for 80% power, or [null]. *)
Definition calculateRequiredSampleSize (p1 p2 : Js.number) : option Js.number :=
  if (p1 === p2) || Js.isNaN p1 || Js.isNaN p2 then None
  else
    let z_alpha_half : Js.number := 1.96 in
    let z_beta : Js.number := 0.8416 in
    let p_pooled := (p1 + p2) / 2 in
    let term1 := z_alpha_half * Js.sqrt (2 * p_pooled * (1 - p_pooled)) in
    let term2 := z_beta * Js.sqrt (p1 * (1 - p1) + p2 * (1 - p2)) in
    let numerator := Js.pow (term1 + term2) 2 in
    let denominator := Js.pow (p1 - p2) 2 in
    if denominator === 0 then None
    else Some (Js.ceil (numerator / denominator)).

End SampleSize.

(* ================================================================= *)
(** ** The metrics handed to the report *)

(** A template literal: its literal chunks and the substituted values, in
    order.  Strings are substituted as they are; a number is left to the
    conversion of the language. *)
Inductive piece : Type :=
| Text (s : string)
| Num (x : Js.number).

(** [x || y] on optional strings; the empty string counts as absent. *)
Definition or_string (x y : option string) : option string :=
  match x with
  | Some EmptyString | None => y
  | Some _ => x
  end.

Definition startsWith (s search : string) : bool := String.prefix search s.

Section fetchAiInterpretation.

Local Open Scope R_scope.
Local Open Scope string_scope.
Local Open Scope js_scope.

Variable currentResults : Results.
Variable design : StudyDesign.
(** [currentTranslations.nntCIbenefit] and [currentTranslations.nntCIharm]. *)
Variables nntCIbenefit nntCIharm : string.

Definition p_value_result_raw : option string :=
  or_string (option_map Ratio.pValue (oddsRatio currentResults))
            (option_map Ratio.pValue (relativeRisk currentResults)).

Definition p_value_result : string :=
  match or_string p_value_result_raw None with
  | Some raw => if startsWith raw "<" then "0.0001" else raw
  | None => "N/A"
  end.

(** The two risks kept for the sample size; NaN for a case-control study or
    a missing risk. *)
Definition p1_for_calc : Js.number :=
  if StudyDesign_eqb design case_control then Js.NaN
  else match absoluteRiskExposed currentResults with
       | Some p => Point.value p
       | None => Js.NaN
       end.

Definition p2_for_calc : Js.number :=
  if StudyDesign_eqb design case_control then Js.NaN
  else match absoluteRiskControl currentResults with
       | Some p => Point.value p
       | None => Js.NaN
       end.

(** The interval of the NNT/NNH as the report words it. *)
Definition nnt_ci_result : string :=
  match nnt currentResults, riskDifference currentResults with
  | Some n, Some rdi =>
      let rd_ci_lower := Interval.lower rdi in
      let rd_ci_upper := Interval.upper rdi in
      if (rd_ci_lower < 0) && (rd_ci_upper > 0) then
        let nnh_ci_val := Js.toFixed (1 / rd_ci_upper) 3 in
        let nnt_ci_val := Js.toFixed (Js.abs (1 / rd_ci_lower)) 3 in
        nnt_ci_val ++ " (" ++ nntCIbenefit ++ ") to "
          ++ nnh_ci_val ++ " (" ++ nntCIharm ++ ")"
      else
        let lower := Nnt.lower n in
        let upper := Nnt.upper n in
        if Js.isFinite lower && Js.isFinite upper then
          let '(lower, upper) :=
            if lower > upper then (upper, lower) else (lower, upper) in
          Js.toFixed (Js.abs lower) 3 ++ " to " ++ Js.toFixed (Js.abs upper) 3
        else "CI includes infinity"
  | _, _ => "Not applicable"
  end.

Definition power_result : string :=
  match power currentResults with
  | Some p => Js.toFixed (Point.value p * 100) 1 ++ "%"
  | None => "N/A"
  end.

Definition sampleSizeRecommendationPrompt : list piece :=
  match power currentResults with
  | Some p =>
      if Point.value p < 0.80 then
        match calculateRequiredSampleSize p1_for_calc p2_for_calc with
        | Some requiredN =>
            if Js.truthy requiredN then
              [ Text "The calculated statistical power is low (";
                Text (Js.toFixed (Point.value p * 100) 1);
                Text "%). To achieve 80% power, a future study would require approximately **";
                Num requiredN;
                Text "** participants in each group." ]
            else
              [ Text "The calculated statistical power is low, but a sample size recommendation could not be determined from the provided data." ]
        | None =>
            [ Text "The calculated statistical power is low, but a sample size recommendation could not be determined from the provided data." ]
        end
      else
        [ Text "The study was adequately powered at **";
          Text (Js.toFixed (Point.value p * 100) 1);
          Text "%**. The current sample size was sufficient to detect an effect of the observed magnitude." ]
  | None => []
  end.

End fetchAiInterpretation.

(* ================================================================= *)
(** ** The results table *)

Section ResultsTable.

Local Open Scope R_scope.
Local Open Scope string_scope.
Local Open Scope js_scope.

(** [T.nntCIbenefit] and [T.nntCIharm]. *)
Variables nntCIbenefit nntCIharm : string.

(** The cell with the interval of the NNT/NNH: the function the table calls
    when both [results.nnt] and [results.riskDifference] are present. *)
Definition nnt_ci_cell (n : Nnt.t) (rdi : Interval.t) : string :=
  let rd_ci_lower := Interval.lower rdi in
  let rd_ci_upper := Interval.upper rdi in
  if (rd_ci_lower < 0) && (rd_ci_upper > 0) then
    let nnh_ci_val := Js.toFixed (1 / rd_ci_upper) 3 in
    let nnt_ci_val := Js.toFixed (Js.abs (1 / rd_ci_lower)) 3 in
    nnt_ci_val ++ " (" ++ nntCIbenefit ++ ") to "
      ++ nnh_ci_val ++ " (" ++ nntCIharm ++ ")"
  else
    let lower := Nnt.lower n in
    let upper := Nnt.upper n in
    let '(lower, upper) :=
      if lower > upper then (upper, lower) else (lower, upper) in
    Js.toFixed (Js.abs lower) 3 ++ " to " ++ Js.toFixed (Js.abs upper) 3.

End ResultsTable.

(* ================================================================= *)
(** ** The input form *)

(** The [Inputs] interface of [types.ts]: the four fields as typed. *)
Module Inputs.
Record t : Type := make { a : string; b : string; c : string; d : string }.
End Inputs.

Section ParseInt.

Local Open Scope N_scope.

(** White space and line terminators among the code units below 256. *)
Definition isStrWhiteSpaceChar (ch : ascii) : bool :=
  let n := N_of_ascii ch in
  (n =? 9) || (n =? 10) || (n =? 11) || (n =? 12) || (n =? 13)
  || (n =? 32) || (n =? 160).

Fixpoint trimStart (s : string) : string :=
  match s with
  | String ch s' => if isStrWhiteSpaceChar ch then trimStart s' else s
  | EmptyString => s
  end.

(** The value of a code unit as a digit: [0-9], then [a-z] or [A-Z] from 10. *)
Definition digitValue (ch : ascii) : option N :=
  let n := N_of_ascii ch in
  if (48 <=? n) && (n <=? 57) then Some (n - 48)
  else if (97 <=? n) && (n <=? 122) then Some (n - 87)
  else if (65 <=? n) && (n <=? 90) then Some (n - 55)
  else None.

(** The digits of the longest prefix of [s] made of digits of the radix. *)
Fixpoint digitPrefix (base : N) (s : string) : list N :=
  match s with
  | String ch s' =>
      match digitValue ch with
      | Some v => if v <? base then v :: digitPrefix base s' else []
      | None => []
      end
  | EmptyString => []
  end.

(** The integer a list of digits represents. *)
Definition mathInt (base : N) (ds : list N) : N :=
  fold_left (fun acc v => base * acc + v) ds 0.

Definition hasHexPrefix (s : string) : bool :=
  match s with
  | String "0" (String "x" _) | String "0" (String "X" _) => true
  | _ => false
  end.

(** [parseInt(string, radix)] on a string of code units below 256; a missing
    radix is 0.  The result is NaN or the number of the integer that the
    digits denote.  (Past twenty significant digits ECMAScript lets an
    implementation replace the further digits by zeros; the integer is kept
    whole here.) *)
Definition parseInt (string : string) (radix : N) : Js.number :=
  let s := trimStart string in
  let sign : Z := match s with String "-" _ => (-1)%Z | _ => 1%Z end in
  let s := match s with String "+" rest | String "-" rest => rest | _ => s end in
  if negb (radix =? 0) && ((radix <? 2) || (36 <? radix)) then Js.NaN
  else
    let base := if radix =? 0 then 10 else radix in
    let stripPrefix := (radix =? 0) || (radix =? 16) in
    let '(s, base) :=
      if stripPrefix && hasHexPrefix s
      then (match s with String _ (String _ rest) => rest | _ => s end, 16)
      else (s, base) in
    match digitPrefix base s with
    | [] => Js.NaN
    | ds => Js.of_integer (sign * Z.of_N (mathInt base ds))
    end.

End ParseInt.

(** The object [values] of [handleCalculate]. *)
Definition parseValues (inputs : Inputs.t) : Values.t :=
  Values.make (parseInt (Inputs.a inputs) 10) (parseInt (Inputs.b inputs) 10)
              (parseInt (Inputs.c inputs) 10) (parseInt (Inputs.d inputs) 10).

(** The two totals shown beside the form while typing. *)
Module Form.
Definition exposedTotal (inputs : Inputs.t) : Js.number :=
  Js.add (Js.or_else (parseInt (Inputs.a inputs) 0) (Js.Fin 0))
         (Js.or_else (parseInt (Inputs.b inputs) 0) (Js.Fin 0)).
Definition controlTotal (inputs : Inputs.t) : Js.number :=
  Js.add (Js.or_else (parseInt (Inputs.c inputs) 0) (Js.Fin 0))
         (Js.or_else (parseInt (Inputs.d inputs) 0) (Js.Fin 0)).
End Form.

(** The fields typed for a table of counts. *)
Definition typed (a b c d : N) : Inputs.t :=
  Inputs.make (Js.digits (Z.of_N a)) (Js.digits (Z.of_N b))
              (Js.digits (Z.of_N c)) (Js.digits (Z.of_N d)).

(** Every number a result carries, apart from the Z statistic of the
    relative risk and the two bounds of the NNT/NNH; and those three. *)
Definition of_option {A B : Type} (f : A -> list B) (x : option A) : list B :=
  match x with Some v => f v | None => [] end.

Definition estimates (r : Results) : list Js.number :=
  of_option (fun p => [Point.value p]) (absoluteRiskExposed r)
  ++ of_option (fun p => [Point.value p]) (absoluteRiskControl r)
  ++ of_option (fun i => [Interval.value i; Interval.lower i; Interval.upper i])
       (riskDifference r)
  ++ of_option (fun o => [Ratio.value o; Ratio.lower o; Ratio.upper o])
       (relativeRisk r)
  ++ of_option (fun o => [Ratio.value o; Ratio.lower o; Ratio.upper o; Ratio.zStat o])
       (oddsRatio r)
  ++ of_option (fun m => [Impact.value (Impact.absolute m);
                          Impact.value (Impact.relative m)]) (impactMeasures r)
  ++ of_option (fun n => [Nnt.value n]) (nnt r)
  ++ of_option (fun p => [Point.value p]) (power r)
  ++ of_option (fun p => [Point.value p]) (type1Error r)
  ++ of_option (fun p => [Point.value p]) (type2Error r).

Definition unbounded (r : Results) : list Js.number :=
  of_option (fun o => [Ratio.zStat o]) (relativeRisk r)
  ++ of_option (fun n => [Nnt.lower n; Nnt.upper n]) (nnt r).

(* ================================================================= *)
(** ** Properties *)

(* ----------------------------------------------------------------- *)
(** *** Arithmetic on finite numbers *)

Section FiniteArithmetic.

Local Open Scope R_scope.

Lemma Rltb_true x y : Js.Rltb x y = true <-> x < y.
Proof. unfold Js.Rltb. destruct (Rlt_dec x y); split; intros; auto; discriminate. Qed.

Lemma Rltb_false x y : Js.Rltb x y = false <-> y <= x.
Proof.
  unfold Js.Rltb. destruct (Rlt_dec x y); split; intros; auto; try discriminate; lra.
Qed.

Lemma Rleb_true x y : Js.Rleb x y = true <-> x <= y.
Proof. unfold Js.Rleb. destruct (Rle_dec x y); split; intros; auto; discriminate. Qed.

Lemma Reqb_true x y : Js.Reqb x y = true <-> x = y.
Proof. unfold Js.Reqb. destruct (Req_dec_T x y); split; intros; auto; discriminate. Qed.

Lemma Reqb_false x y : Js.Reqb x y = false <-> x <> y.
Proof.
  unfold Js.Reqb. destruct (Req_dec_T x y); split; intros; auto; try discriminate.
  contradiction.
Qed.

Lemma div_fin x y : y <> 0 -> Js.div (Js.Fin x) (Js.Fin y) = Js.Fin (x / y).
Proof. intros H. cbn. apply Reqb_false in H. now rewrite H. Qed.

Lemma sqrt_fin x : 0 <= x -> Js.sqrt (Js.Fin x) = Js.Fin (sqrt x).
Proof. intros H. cbn. assert (E : Js.Rltb x 0 = false) by now apply Rltb_false. now rewrite E. Qed.

(** A part of a strictly larger whole is a proportion strictly inside (0, 1). *)
Lemma proportion_inside x n : 0 < x -> x < n -> 0 < x / n < 1.
Proof.
  intros Hx Hn. split.
  - apply Rdiv_lt_0_compat; lra.
  - assert (E : x / n * n = x) by (field; lra). nra.
Qed.

(** The variance term [p (1 - p) / n] of a proportion. *)
Lemma variance_term_pos p n : 0 < p < 1 -> 0 < n -> 0 < p * (1 + - p) / n.
Proof. intros Hp Hn. apply Rdiv_lt_0_compat; nra. Qed.

Lemma count_nonneg n : 0 <= count n.
Proof. unfold count. apply IZR_le. lia. Qed.

Lemma count_pos n : (0 < n)%N -> 0 < count n.
Proof. intros H. unfold count. apply IZR_lt. lia. Qed.

Lemma count_zero n : count n = 0 <-> n = 0%N.
Proof.
  unfold count. split; intros H.
  - apply eq_IZR in H. lia.
  - subst. reflexivity.
Qed.

Lemma count_add m n : count (m + n) = count m + count n.
Proof. unfold count. rewrite N2Z.inj_add. apply plus_IZR. Qed.

Lemma corrected_cell_pos n : 0 < corrected_cell n.
Proof.
  unfold corrected_cell. destruct (N.eqb_spec n 0).
  - lra.
  - apply count_pos. lia.
Qed.

End FiniteArithmetic.

(* ----------------------------------------------------------------- *)
(** *** The handler's constants on a valid table *)

Section OnTables.

Local Open Scope R_scope.

Variables a b c d : N.

Lemma corrected_table :
  corrected (table a b c d) =
  Values.make (Js.Fin (corrected_cell a)) (Js.Fin (corrected_cell b))
              (Js.Fin (corrected_cell c)) (Js.Fin (corrected_cell d)).
Proof.
  assert (cell : forall n,
             (if Js.eq (Js.Fin (count n)) (Js.Fin 0) then Js.Fin 0.5 else Js.Fin (count n))
             = Js.Fin (corrected_cell n)).
  { intros n. unfold corrected_cell. cbn. destruct (N.eqb_spec n 0) as [->|Hn].
    - assert (E : Js.Reqb (count 0) 0 = true) by (apply Reqb_true; reflexivity).
      now rewrite E.
    - assert (E : Js.Reqb (count n) 0 = false)
        by (apply Reqb_false; intros H; apply count_zero in H; contradiction).
      now rewrite E. }
  unfold corrected, table. cbn [Values.a Values.b Values.c Values.d].
  now rewrite !cell.
Qed.

Lemma exposedTotal_table : exposedTotal (table a b c d) = Js.Fin (count a + count b).
Proof. reflexivity. Qed.

Lemma controlTotal_table : controlTotal (table a b c d) = Js.Fin (count c + count d).
Proof. reflexivity. Qed.

Lemma exposedTotal_pos :
  Js.gt (exposedTotal (table a b c d)) (Js.Fin 0) = true <-> (0 < a + b)%N.
Proof.
  rewrite exposedTotal_table. cbn. rewrite Rltb_true, <- count_add. split; intros H.
  - destruct (N.eq_dec (a + b) 0) as [E|E]; [|lia].
    exfalso. apply count_zero in E. lra.
  - now apply count_pos.
Qed.

Lemma controlTotal_pos :
  Js.gt (controlTotal (table a b c d)) (Js.Fin 0) = true <-> (0 < c + d)%N.
Proof.
  rewrite controlTotal_table. cbn. rewrite Rltb_true, <- count_add. split; intros H.
  - destruct (N.eq_dec (c + d) 0) as [E|E]; [|lia].
    exfalso. apply count_zero in E. lra.
  - now apply count_pos.
Qed.

Lemma riskExposed_table :
  (0 < a + b)%N -> riskExposed (table a b c d) = Js.Fin (risk a b).
Proof.
  intros H. unfold riskExposed. rewrite exposedTotal_table.
  cbn [table Values.a]. apply div_fin.
  apply count_pos in H. rewrite count_add in H. lra.
Qed.

Lemma riskControl_table :
  (0 < c + d)%N -> riskControl (table a b c d) = Js.Fin (risk c d).
Proof.
  intros H. unfold riskControl. rewrite controlTotal_table.
  cbn [table Values.c]. apply div_fin.
  apply count_pos in H. rewrite count_add in H. lra.
Qed.

Lemma rd_table :
  (0 < a + b)%N -> (0 < c + d)%N ->
  rd (table a b c d) = Js.Fin (risk a b - risk c d).
Proof.
  intros Hab Hcd. unfold rd.
  rewrite (riskExposed_table Hab), (riskControl_table Hcd). reflexivity.
Qed.

End OnTables.

(* ----------------------------------------------------------------- *)
(** *** Which fields each block assigns *)

Ltac split_guards :=
  repeat match goal with
         | |- context [if ?g then _ else _] => destruct g
         end.

Section Frames.

Variable values : Values.t.
Variable studyGoal : StudyGoal.
Variable r : Results.

Lemma set_same :
  set_impactMeasures (impactMeasures r) r = r /\
  set_relativeRisk (relativeRisk r) r = r /\
  set_nnt (nnt r) r = r /\
  set_oddsRatio (oddsRatio r) r = r.
Proof. destruct r; repeat split. Qed.

Lemma assignImpactMeasures_frame :
  exists v, assignImpactMeasures values studyGoal r = set_impactMeasures v r.
Proof.
  unfold assignImpactMeasures. destruct (_ && _).
  - destruct (if StudyGoal_eqb _ _ then _ else _). eauto.
  - exists (impactMeasures r). symmetry. apply set_same.
Qed.

Lemma assignRelativeRisk_frame :
  exists v, assignRelativeRisk values r = set_relativeRisk v r.
Proof.
  unfold assignRelativeRisk. destruct (_ && _).
  - eauto.
  - exists (relativeRisk r). symmetry. apply set_same.
Qed.

Lemma assignNnt_frame :
  exists v, assignNnt values studyGoal r = set_nnt v r.
Proof.
  unfold assignNnt. destruct (Js.ne _ _).
  - eauto.
  - exists (nnt r). symmetry. apply set_same.
Qed.

Lemma assignPower_frame :
  exists p e1 e2,
    assignPower values r = set_type2Error e2 (set_type1Error e1 (set_power p r)).
Proof. unfold assignPower. split_guards; eauto. Qed.

Lemma assignOddsRatio_frame :
  exists v, assignOddsRatio values r = set_oddsRatio v r.
Proof.
  unfold assignOddsRatio. destruct (_ && _).
  - eauto.
  - exists (oddsRatio r). symmetry. apply set_same.
Qed.

End Frames.

(** Replace a block by the assignment it amounts to. *)
Ltac frame lem :=
  let E := fresh "E" in
  match goal with
  | |- context [assignOddsRatio ?v ?r] =>
      destruct (lem v r) as [? E]; rewrite E; clear E
  | |- context [assignPower ?v ?r] =>
      destruct (lem v r) as (? & ? & ? & E); rewrite E; clear E
  | |- context [assignNnt ?v ?g ?r] =>
      destruct (lem v g r) as [? E]; rewrite E; clear E
  | |- context [assignRelativeRisk ?v ?r] =>
      destruct (lem v r) as [? E]; rewrite E; clear E
  | |- context [assignImpactMeasures ?v ?g ?r] =>
      destruct (lem v g r) as [? E]; rewrite E; clear E
  end.

(* ----------------------------------------------------------------- *)
(** *** Field by field, when incidence is available *)

Section Incidence.

Local Open Scope R_scope.
Local Open Scope string_scope.
Local Open Scope js_scope.

Variable values : Values.t.
Variable studyDesign : StudyDesign.
Variable studyGoal : StudyGoal.

Hypothesis design_ok : studyDesign <> case_control.
Hypothesis exposed_ok : (exposedTotal values > 0) = true.
Hypothesis control_ok : (controlTotal values > 0) = true.

Local Abbreviation results := (newResults values studyDesign studyGoal).

Lemma design_guard : negb (StudyDesign_eqb studyDesign case_control) = true.
Proof. destruct studyDesign; try reflexivity. now elim design_ok. Qed.

Ltac enter_incidence :=
  unfold newResults; rewrite design_guard, exposed_ok, control_ok;
  cbn [andb]; cbv zeta.

Lemma absoluteRisk_incidence :
  absoluteRiskExposed results = Some (Point.make (riskExposed values)) /\
  absoluteRiskControl results = Some (Point.make (riskControl values)).
Proof.
  enter_incidence.
  frame assignOddsRatio_frame. frame assignPower_frame. frame assignNnt_frame.
  frame assignRelativeRisk_frame. frame assignImpactMeasures_frame.
  split; reflexivity.
Qed.

Lemma riskDifference_incidence :
  riskDifference results = Some (riskInterval values).
Proof.
  enter_incidence.
  frame assignOddsRatio_frame. frame assignPower_frame. frame assignNnt_frame.
  frame assignRelativeRisk_frame. frame assignImpactMeasures_frame.
  reflexivity.
Qed.

Lemma impactMeasures_incidence :
  impactMeasures results =
  impactMeasures (assignImpactMeasures values studyGoal initialResults).
Proof.
  enter_incidence.
  frame assignOddsRatio_frame. frame assignPower_frame. frame assignNnt_frame.
  frame assignRelativeRisk_frame.
  cbn [impactMeasures set_oddsRatio set_type2Error set_type1Error set_power
       set_nnt set_relativeRisk].
  unfold assignImpactMeasures. split_guards; reflexivity.
Qed.

Lemma nnt_incidence :
  nnt results = nnt (assignNnt values studyGoal initialResults).
Proof.
  enter_incidence.
  frame assignOddsRatio_frame. frame assignPower_frame.
  frame assignRelativeRisk_frame. frame assignImpactMeasures_frame.
  unfold assignNnt. split_guards; reflexivity.
Qed.

Lemma power_incidence :
  let p := assignPower values initialResults in
  power results = power p /\
  type1Error results = type1Error p /\
  type2Error results = type2Error p.
Proof.
  enter_incidence.
  frame assignOddsRatio_frame. frame assignNnt_frame.
  frame assignRelativeRisk_frame. frame assignImpactMeasures_frame.
  unfold assignPower. split_guards; repeat split; reflexivity.
Qed.

Lemma relativeRisk_incidence :
  relativeRisk results =
  relativeRisk (assignRelativeRisk values initialResults).
Proof.
  enter_incidence.
  frame assignOddsRatio_frame. frame assignPower_frame. frame assignNnt_frame.
  frame assignImpactMeasures_frame.
  unfold assignRelativeRisk. split_guards; reflexivity.
Qed.

End Incidence.

(* ----------------------------------------------------------------- *)
(** *** The odds ratio, for every design *)

Section OddsRatio.

Local Open Scope R_scope.

Lemma oddsRatio_any_design values studyDesign studyGoal :
  oddsRatio (newResults values studyDesign studyGoal) =
  oddsRatio (assignOddsRatio values initialResults).
Proof.
  unfold newResults. cbv zeta.
  destruct (negb _); [destruct (_ && _)|]; try reflexivity.
  frame assignPower_frame. frame assignNnt_frame.
  frame assignRelativeRisk_frame. frame assignImpactMeasures_frame.
  unfold assignOddsRatio. split_guards; reflexivity.
Qed.

Lemma odds_ratio_table a b c d :
  odds_ratio (table a b c d) =
  Js.Fin (corrected_cell a * corrected_cell d / (corrected_cell b * corrected_cell c)).
Proof.
  unfold odds_ratio. rewrite corrected_table. cbn [Values.a Values.b Values.c Values.d].
  cbn [Js.mul]. apply div_fin.
  pose proof (corrected_cell_pos b). pose proof (corrected_cell_pos c). nra.
Qed.

Lemma oddsRatio_guard_table a b c d :
  let t := table a b c d in
  (Js.ge (Values.a t) (Js.Fin 0) && Js.gt (Values.b t) (Js.Fin 0)
   && Js.gt (Values.c t) (Js.Fin 0) && Js.ge (Values.d t) (Js.Fin 0))%bool
  = ((0 <? b)%N && (0 <? c)%N)%bool.
Proof.
  cbn.
  assert (Ha : Js.Rleb 0 (count a) = true) by (apply Rleb_true, count_nonneg).
  assert (Hd : Js.Rleb 0 (count d) = true) by (apply Rleb_true, count_nonneg).
  assert (pos : forall n, Js.Rltb 0 (count n) = (0 <? n)%N).
  { intros n. destruct (N.ltb_spec 0 n) as [H|H].
    - apply Rltb_true. now apply count_pos.
    - apply Rltb_false. assert (n = 0%N) as -> by lia. unfold count. simpl. lra. }
  rewrite Ha, Hd, !pos. now rewrite andb_true_r.
Qed.

End OddsRatio.

(* ----------------------------------------------------------------- *)
(** *** The normal approximation *)

Section NormalApproximation.

Local Open Scope R_scope.

Lemma sqrt2_pos : 0 < sqrt 2.
Proof. apply sqrt_lt_R0. lra. Qed.

Lemma normalCDF_fin x : normalCDF (Js.Fin x) = Js.Fin (cdf x).
Proof.
  unfold normalCDF, cdf, erf_approx. cbv zeta.
  pose proof sqrt2_pos as H2.
  rewrite sqrt_fin by lra. rewrite (div_fin x) by lra.
  set (z := x / sqrt 2).
  cbn [Js.abs Js.mul Js.add].
  pose proof (Rabs_pos z) as Hz.
  rewrite div_fin by lra.
  cbn [Js.abs Js.mul Js.add Js.neg Js.exp Js.sub Js.ge Js.le].
  unfold Js.Rleb. destruct (Rle_dec 0 z); reflexivity.
Qed.

(** The polynomial of the approximation stays in [0, 1] on [0, 1]. *)
Lemma polynomial_bounds t :
  0 <= t <= 1 ->
  0 <= (((((1.061405429 * t + -1.453152027) * t) + 1.421413741) * t
         + -0.284496736) * t + 0.254829592) * t <= 1.
Proof.
  intros [H0 H1]. split.
  - apply Rmult_le_pos; [|lra].
    set (Q := (1.061405429 * t + -1.453152027) * t + 1.421413741).
    assert (Hq : 0.9 <= Q).
    { unfold Q. pose proof (pow2_ge_0 (t - 0.6846)). nra. }
    pose proof (pow2_ge_0 (t - 0.158)).
    assert (0 <= t * t) by nra.
    assert (0.9 * (t * t) <= Q * (t * t)) by nra.
    nra.
  - set (g := (((((1.061405429 * t + -1.453152027) * t) + 1.421413741) * t
                + -0.284496736) * t + 0.254829592) * t).
    assert (E : 1 - g = 0.000000001 + (1 - t) *
              (0.999999999 + 0.745170407 * t + 1.029667143 * t ^ 2
               + - 0.391746598 * t ^ 3 + 1.061405429 * t ^ 4))
      by (unfold g; lra).
    assert (Ht2 : 0 <= t ^ 2) by nra.
    assert (Ht3 : t ^ 3 <= t ^ 2) by nra.
    assert (Ht4 : 0 <= t ^ 4) by nra.
    assert (0 <= 0.999999999 + 0.745170407 * t + 1.029667143 * t ^ 2
                 + - 0.391746598 * t ^ 3 + 1.061405429 * t ^ 4) by nra.
    nra.
Qed.

Lemma erf_approx_bounds z : 0 <= erf_approx z <= 1.
Proof.
  unfold erf_approx. cbv zeta.
  pose proof (Rabs_pos z) as Hz.
  set (D := 1.0 + 0.3275911 * Rabs z).
  assert (HD : 1 <= D) by (unfold D; nra).
  set (t := 1.0 / D).
  assert (Ht : 0 <= t <= 1).
  { assert (E : t * D = 1)
      by (unfold t, Rdiv; rewrite Rmult_assoc, Rinv_l by lra; lra).
    assert (0 < t) by (unfold t; apply Rdiv_lt_0_compat; lra).
    split; nra. }
  pose proof (polynomial_bounds t Ht) as Hg.
  set (g := (((((1.061405429 * t + -1.453152027) * t) + 1.421413741) * t
              + -0.284496736) * t + 0.254829592) * t) in *.
  assert (He : 0 < exp (- z * z) <= 1).
  { split; [apply exp_pos|].
    destruct (Req_dec_T z 0) as [->|Hnz].
    - replace (- 0 * 0) with 0 by ring. rewrite exp_0. lra.
    - rewrite <- exp_0. left. apply exp_increasing. nra. }
  nra.
Qed.

Lemma cdf_bounds x : 0 <= cdf x <= 1.
Proof.
  unfold cdf. cbv zeta. pose proof (erf_approx_bounds (x / sqrt 2)).
  destruct (Rle_dec 0 (x / sqrt 2)); lra.
Qed.


Lemma erf_approx_even z : erf_approx (- z) = erf_approx z.
Proof.
  unfold erf_approx. rewrite Rabs_Ropp.
  replace (- - z * - z) with (- z * z) by ring. reflexivity.
Qed.

Lemma erf_approx_0 : erf_approx 0 = 0.000000001.
Proof.
  unfold erf_approx. rewrite Rabs_R0.
  replace (- 0 * 0) with 0 by ring. rewrite exp_0.
  replace (1.0 / (1.0 + 0.3275911 * 0)) with 1 by (field; lra). lra.
Qed.

Lemma cdf_0 : cdf 0 = 0.5000000005.
Proof.
  unfold cdf. replace (0 / sqrt 2) with 0 by (unfold Rdiv; ring).
  rewrite erf_approx_0. destruct (Rle_dec 0 0); lra.
Qed.

Lemma cdf_reflect x : x <> 0 -> cdf (- x) = 1 - cdf x.
Proof.
  intros Hx. unfold cdf. pose proof sqrt2_pos as H2.
  replace (- x / sqrt 2) with (- (x / sqrt 2)) by (field; lra).
  set (z := x / sqrt 2). rewrite erf_approx_even.
  assert (Hz : z <> 0).
  { unfold z. intros E. apply Hx.
    replace x with (x / sqrt 2 * sqrt 2) by (field; lra). rewrite E. ring. }
  destruct (Rle_dec 0 z), (Rle_dec 0 (- z)); lra.
Qed.

End NormalApproximation.

(* ----------------------------------------------------------------- *)
(** *** Strings produced by [toFixed] *)

Section FixedStrings.

Local Open Scope string_scope.

Lemma lt_free_app s1 s2 :
  lt_free (s1 ++ s2) = (lt_free s1 && lt_free s2)%bool.
Proof.
  induction s1 as [|ch s1 IH]; [reflexivity|].
  cbn. rewrite IH. apply andb_assoc.
Qed.

Lemma lt_free_substring s : forall n m,
  lt_free s = true -> lt_free (substring n m s) = true.
Proof.
  induction s as [|ch s IH]; intros n m H.
  - destruct n, m; reflexivity.
  - cbn in H. apply andb_true_iff in H as [Hch Hs].
    destruct n as [|n]; destruct m as [|m]; cbn; auto.
    rewrite Hch. cbn. auto.
Qed.

Lemma lt_free_zeros k : lt_free (Js.zeros k) = true.
Proof. induction k; [reflexivity|exact IHk]. Qed.

Lemma lt_free_uint u : lt_free (NilEmpty.string_of_uint u) = true.
Proof. induction u; cbn; auto. Qed.

Lemma lt_free_digits n : lt_free (Js.digits n) = true.
Proof.
  unfold Js.digits, NilZero.string_of_uint.
  destruct (N.to_uint (Z.to_N n)) eqn:E; try reflexivity;
    rewrite <- E; apply lt_free_uint.
Qed.

Lemma lt_free_toFixed_pos x f : lt_free (Js.toFixed_pos x f) = true.
Proof.
  unfold Js.toFixed_pos. cbv zeta. destruct f as [|f]; [apply lt_free_digits|].
  set (m := if (_ <=? _)%nat then _ else _).
  assert (Hm : lt_free m = true).
  { unfold m. destruct (_ <=? _)%nat; [|apply lt_free_digits].
    rewrite lt_free_app, lt_free_zeros, lt_free_digits. reflexivity. }
  rewrite !lt_free_app, !lt_free_substring by exact Hm. reflexivity.
Qed.

Lemma lt_free_toFixed x f : lt_free (Js.toFixed x f) = true.
Proof.
  destruct x as [r| | |]; try reflexivity.
  unfold Js.toFixed. destruct (Js.Rltb r 0).
  - rewrite lt_free_app, lt_free_toFixed_pos. reflexivity.
  - apply lt_free_toFixed_pos.
Qed.

Lemma toFixed_not_below x f : Js.toFixed x f <> "<0.0001".
Proof.
  intros E. pose proof (lt_free_toFixed x f) as H. rewrite E in H. discriminate.
Qed.

End FixedStrings.

(* ----------------------------------------------------------------- *)
(** *** Relative risk at a zero cell *)

Section RelativeRisk.

Local Open Scope R_scope.

(** An infinite Z statistic has the smallest p-value. *)
Lemma calculatePValueFromZ_infinite :
  calculatePValueFromZ Js.NegInf = "<0.0001"%string /\
  calculatePValueFromZ Js.PosInf = "<0.0001"%string.
Proof.
  assert (E : normalCDF Js.PosInf = Js.Fin 1).
  { unfold normalCDF. cbv zeta. pose proof sqrt2_pos as H2.
    rewrite sqrt_fin by lra. cbn [Js.div Js.abs].
    unfold Js.inf_of_sign.
    assert (S : Js.Rltb (sqrt 2) 0 = false) by (apply Rltb_false; lra).
    rewrite S. cbn [Js.abs Js.mul].
    assert (P : Js.Reqb 0.3275911 0 = false) by (apply Reqb_false; lra).
    assert (Q : Js.Rltb 0.3275911 0 = false) by (apply Rltb_false; lra).
    rewrite P. unfold Js.inf_of_sign. rewrite Q.
    cbn. f_equal. lra. }
  unfold calculatePValueFromZ. cbv zeta. cbn [Js.abs]. rewrite E.
  cbn [Js.sub Js.neg Js.add Js.mul Js.lt].
  assert (L : Js.Rltb (2 * (1 + - (1))) 0.0001 = true) by (apply Rltb_true; lra).
  now rewrite L.
Qed.

Variables a b c d : N.
Variable studyDesign : StudyDesign.
Variable studyGoal : StudyGoal.

Hypothesis design_ok : studyDesign <> case_control.
Hypothesis exposed_pos : (0 < a + b)%N.
Hypothesis control_events : (0 < c)%N.

(** With events in the control group the relative risk is reported: 0 when
    no exposed subject had the outcome, the ratio of the raw risks
    otherwise. *)
Lemma relativeRisk_value :
  exists o,
    relativeRisk (newResults (table a b c d) studyDesign studyGoal) = Some o /\
    Ratio.value o = Js.Fin (if (a =? 0)%N then 0 else risk a b / risk c d).
Proof.
  assert (control_pos : (0 < c + d)%N) by lia.
  pose proof (proj2 (exposedTotal_pos a b c d) exposed_pos) as exposed_ok.
  pose proof (proj2 (controlTotal_pos a b c d) control_pos) as control_ok.
  rewrite (relativeRisk_incidence _ _ studyGoal design_ok exposed_ok control_ok).
  unfold assignRelativeRisk.
  rewrite (riskExposed_table a b c d exposed_pos).
  rewrite (riskControl_table a b c d control_pos).
  pose proof (count_nonneg a) as Ha. pose proof (count_nonneg b) as Hb.
  pose proof (count_nonneg d) as Hd. pose proof (count_pos c control_events) as Hc.
  pose proof (count_pos _ exposed_pos) as Hab. rewrite count_add in Hab.
  assert (Hrc : 0 < risk c d) by (apply Rdiv_lt_0_compat; lra).
  assert (Hre : 0 <= risk a b).
  { unfold risk, Rdiv. apply Rmult_le_pos; [lra|]. left. apply Rinv_0_lt_compat. lra. }
  assert (G : (Js.gt (Js.Fin (risk c d)) (Js.Fin 0)
               && Js.ge (Js.Fin (risk a b)) (Js.Fin 0))%bool = true).
  { cbn. apply andb_true_iff. split; [now apply Rltb_true|now apply Rleb_true]. }
  rewrite G. cbv zeta. eexists. split; [reflexivity|]. cbn [Ratio.value Js.eq].
  destruct (N.eqb_spec a 0) as [->|Hne].
  - assert (E : Js.Reqb (risk 0 b) 0 = true).
    { apply Reqb_true. unfold risk, count, Rdiv. simpl. apply Rmult_0_l. }
    now rewrite E.
  - assert (E : Js.Reqb (risk a b) 0 = false).
    { apply Reqb_false. intros Hz.
      assert (0 < count a) by (apply count_pos; lia).
      assert (0 < risk a b) by (apply Rdiv_lt_0_compat; lra). lra. }
    rewrite E. apply div_fin. lra.
Qed.

(** With no event among the exposed, [Math.log(0)] is [-Infinity]: the Z
    statistic is [-Infinity], both bounds are [exp(-Infinity) = 0] and the
    p-value is the smallest one. *)
Lemma relativeRisk_no_exposed_events :
  a = 0%N ->
  relativeRisk (newResults (table a b c d) studyDesign studyGoal) =
  Some (Ratio.make (Js.Fin 0) (Js.Fin 0) (Js.Fin 0) "<0.0001" Js.NegInf).
Proof.
  intros Ha0.
  assert (control_pos : (0 < c + d)%N) by lia.
  pose proof (proj2 (exposedTotal_pos a b c d) exposed_pos) as exposed_ok.
  pose proof (proj2 (controlTotal_pos a b c d) control_pos) as control_ok.
  rewrite (relativeRisk_incidence _ _ studyGoal design_ok exposed_ok control_ok).
  unfold assignRelativeRisk.
  rewrite (riskExposed_table a b c d exposed_pos).
  rewrite (riskControl_table a b c d control_pos).
  pose proof (count_nonneg d) as Hd. pose proof (count_pos c control_events) as Hc.
  assert (Hrc : 0 < risk c d) by (apply Rdiv_lt_0_compat; lra).
  assert (Hre : risk a b = 0).
  { subst a. unfold risk, count, Rdiv. simpl. apply Rmult_0_l. }
  rewrite Hre.
  assert (G : (Js.gt (Js.Fin (risk c d)) (Js.Fin 0)
               && Js.ge (Js.Fin 0) (Js.Fin 0))%bool = true).
  { cbn. apply andb_true_iff. split; [now apply Rltb_true|apply Rleb_true; lra]. }
  rewrite G. cbv zeta.
  assert (E0 : Js.eq (Js.Fin 0) (Js.Fin 0) = true) by (apply Reqb_true; reflexivity).
  rewrite E0.
  assert (L0 : Js.log (Js.Fin 0) = Js.NegInf).
  { cbn. assert (F : Js.Rltb 0 0 = false) by (apply Rltb_false; lra).
    assert (T : Js.Reqb 0 0 = true) by (apply Reqb_true; reflexivity).
    now rewrite F, T. }
  rewrite L0.
  (* the standard error is a positive real *)
  unfold riskExposed_c, riskControl_c, exposedTotal_c, controlTotal_c.
  rewrite corrected_table. cbn [Values.a Values.b Values.c Values.d Js.add].
  pose proof (corrected_cell_pos a) as Pa. pose proof (corrected_cell_pos b) as Pb.
  pose proof (corrected_cell_pos c) as Pc. pose proof (corrected_cell_pos d) as Pd.
  set (nE := corrected_cell a + corrected_cell b).
  set (nC := corrected_cell c + corrected_cell d).
  rewrite !div_fin by (unfold nE, nC; lra).
  cbn [Js.sub Js.neg Js.add].
  rewrite !div_fin by lra. cbn [Js.add].
  assert (HpE : 0 < corrected_cell a / nE < 1)
    by (apply proportion_inside; unfold nE; lra).
  assert (HpC : 0 < corrected_cell c / nC < 1)
    by (apply proportion_inside; unfold nC; lra).
  assert (V1 : 0 < (1 + - (corrected_cell a / nE)) / corrected_cell a)
    by (apply Rdiv_lt_0_compat; lra).
  assert (V2 : 0 < (1 + - (corrected_cell c / nC)) / corrected_cell c)
    by (apply Rdiv_lt_0_compat; lra).
  rewrite sqrt_fin by lra.
  match goal with |- context [sqrt ?x] => set (se := sqrt x) end.
  assert (Hse : 0 < se) by (apply sqrt_lt_R0; lra).
  cbn [Js.mul Js.sub Js.neg Js.add Js.exp Js.div].
  unfold Js.inf_of_sign.
  assert (S : Js.Rltb se 0 = false) by (apply Rltb_false; lra).
  rewrite S. cbn [Js.neg].
  now rewrite (proj1 calculatePValueFromZ_infinite).
Qed.

End RelativeRisk.

(* ----------------------------------------------------------------- *)
(** *** The handler on valid input *)

Section Handler.

Local Open Scope R_scope.

(** With a goal and a design chosen, a table of non-negative integers passes
    validation and the handler publishes [newResults]. *)
Lemma handleCalculate_valid a b c d studyDesign studyGoal :
  handleCalculate (Some studyGoal) (Some studyDesign) (table a b c d) =
  inr (newResults (table a b c d) studyDesign studyGoal).
Proof.
  unfold handleCalculate. cbn [table Values.a Values.b Values.c Values.d Js.isNaN orb Js.lt].
  assert (ok : forall n, Js.Rltb (count n) 0 = false)
    by (intros n; apply Rltb_false, count_nonneg).
  now rewrite !ok.
Qed.

(** A negative count is refused with the name of the first offending cell. *)
Lemma handleCalculate_negative x b c d studyDesign studyGoal :
  x < 0 ->
  handleCalculate (Some studyGoal) (Some studyDesign)
    (Values.make (Js.Fin x) b c d) = inl (errorInvalidNumber "a").
Proof.
  intros H. unfold handleCalculate. cbn [Values.a Js.isNaN orb Js.lt].
  apply Rltb_true in H. now rewrite H.
Qed.

End Handler.

(* ----------------------------------------------------------------- *)
(** *** Comparisons and differences in binary64 *)

Section BinaryLaws.

Import PrimFloat SpecFloat FloatOps FloatAxioms.

Local Open Scope float_scope.

Lemma Prim2SF_zero : Prim2SF 0 = S754_zero false.
Proof. reflexivity. Qed.

Lemma Prim2SF_infinity : Prim2SF infinity = S754_infinity false.
Proof. reflexivity. Qed.

(** A number below zero is not above it. *)
Lemma ltb_zero_asym x : (x <? 0) = true -> (0 <? x) = false.
Proof.
  rewrite !ltb_spec, Prim2SF_zero. unfold SFltb.
  destruct (Prim2SF x) as [s|s| |s m e]; cbn; try destruct s; try discriminate;
    reflexivity.
Qed.

Lemma SFcompare_finite_eq s1 m1 e1 s2 m2 e2 :
  SFcompare (S754_finite s1 m1 e1) (S754_finite s2 m2 e2) = Some Eq ->
  s1 = s2 /\ m1 = m2 /\ e1 = e2.
Proof.
  cbn. destruct s1, s2; try discriminate.
  - destruct (Z.compare e1 e2) eqn:E; try discriminate.
    apply Z.compare_eq in E. subst e2.
    intros H. injection H as H. apply CompOpp_iff in H. cbn in H.
    apply Pos.compare_eq in H. now subst.
  - destruct (Z.compare e1 e2) eqn:E; try discriminate.
    apply Z.compare_eq in E. subst e2.
    intros H. injection H as H. apply Pos.compare_eq in H. now subst.
Qed.

(** Two equal numbers that are not infinite have a zero difference. *)
Lemma sub_eq_zero x y :
  (x =? y) = true -> is_infinity x = false -> (x - y =? 0) = true.
Proof.
  unfold is_infinity.
  rewrite !eqb_spec, sub_spec, abs_spec, Prim2SF_zero, Prim2SF_infinity.
  unfold SFeqb.
  destruct (SFcompare (Prim2SF x) (Prim2SF y)) as [[]|] eqn:E; try discriminate.
  intros _.
  destruct (Prim2SF x) as [s1|s1| |s1 m1 e1], (Prim2SF y) as [s2|s2| |s2 m2 e2];
    try discriminate;
    try (cbn [SFcompare] in E; destruct s1; try destruct s2; discriminate);
    try (cbn [SFcompare SFabs]; discriminate).
  - intros _. destruct s1, s2; reflexivity.
  - intros _. apply SFcompare_finite_eq in E as (-> & -> & ->).
    unfold SF64sub, SFsub. rewrite Z.sub_diag. reflexivity.
Qed.


End BinaryLaws.

(* ----------------------------------------------------------------- *)
(** *** The blocks of the handler in binary64 *)

Section BinaryFrames.

Import PrimFloat.

Variables exp log : B64.number -> B64.number.
Variable toFixed : B64.number -> nat -> string.
Variables values corrected : B64.Values.t.
Variable studyGoal : StudyGoal.
Variable r : B64.Results.

Lemma b64_set_same :
  B64.set_impactMeasures (B64.impactMeasures r) r = r /\
  B64.set_relativeRisk (B64.relativeRisk r) r = r /\
  B64.set_nnt (B64.nnt r) r = r /\
  B64.set_oddsRatio (B64.oddsRatio r) r = r.
Proof. destruct r; repeat split. Qed.

Lemma b64_assignImpactMeasures_frame :
  exists v, B64.assignImpactMeasures values studyGoal r = B64.set_impactMeasures v r.
Proof.
  unfold B64.assignImpactMeasures. destruct (_ && _).
  - destruct (if StudyGoal_eqb _ _ then _ else _). eauto.
  - exists (B64.impactMeasures r). symmetry. apply b64_set_same.
Qed.

Lemma b64_assignRelativeRisk_frame :
  exists v,
    B64.assignRelativeRisk exp log toFixed values corrected r
    = B64.set_relativeRisk v r.
Proof.
  unfold B64.assignRelativeRisk. destruct (_ && _).
  - eauto.
  - exists (B64.relativeRisk r). symmetry. apply b64_set_same.
Qed.

Lemma b64_assignNnt_frame :
  exists v, B64.assignNnt values corrected studyGoal r = B64.set_nnt v r.
Proof.
  unfold B64.assignNnt. destruct (B64.ne _ _).
  - eauto.
  - exists (B64.nnt r). symmetry. apply b64_set_same.
Qed.

Lemma b64_assignPower_frame :
  exists p e1 e2,
    B64.assignPower exp values r
    = B64.set_type2Error e2 (B64.set_type1Error e1 (B64.set_power p r)).
Proof. unfold B64.assignPower. split_guards; eauto. Qed.

Lemma b64_assignOddsRatio_frame :
  exists v,
    B64.assignOddsRatio exp log toFixed values corrected r = B64.set_oddsRatio v r.
Proof.
  unfold B64.assignOddsRatio. destruct (_ && _).
  - eauto.
  - exists (B64.oddsRatio r). symmetry. apply b64_set_same.
Qed.

End BinaryFrames.

Ltac b64_frame lem :=
  let E := fresh "E" in
  match goal with
  | |- context [B64.assignOddsRatio ?e ?l ?f ?v ?c ?r] =>
      destruct (lem e l f v c r) as [? E]; rewrite E; clear E
  | |- context [B64.assignPower ?e ?v ?r] =>
      destruct (lem e v r) as (? & ? & ? & E); rewrite E; clear E
  | |- context [B64.assignNnt ?v ?c ?g ?r] =>
      destruct (lem v c g r) as [? E]; rewrite E; clear E
  | |- context [B64.assignRelativeRisk ?e ?l ?f ?v ?c ?r] =>
      destruct (lem e l f v c r) as [? E]; rewrite E; clear E
  | |- context [B64.assignImpactMeasures ?v ?g ?r] =>
      destruct (lem v g r) as [? E]; rewrite E; clear E
  end.

Section BinaryIncidence.

Import PrimFloat.

Local Open Scope float_scope.

Variables exp log : B64.number -> B64.number.
Variable toFixed : B64.number -> nat -> string.
Variables values corrected : B64.Values.t.
Variable studyDesign : StudyDesign.
Variable studyGoal : StudyGoal.

Hypothesis design_ok : studyDesign <> case_control.
Hypothesis exposed_ok : B64.gt (B64.exposedTotal values) 0 = true.
Hypothesis control_ok : B64.gt (B64.controlTotal values) 0 = true.

Local Abbreviation results :=
  (B64.metrics exp log toFixed values corrected studyDesign studyGoal).

Ltac enter_incidence :=
  unfold B64.metrics;
  rewrite (design_guard studyDesign design_ok), exposed_ok, control_ok;
  cbn [andb]; cbv zeta.


Lemma b64_riskDifference_incidence :
  B64.riskDifference results = Some (B64.riskInterval values corrected).
Proof.
  enter_incidence.
  b64_frame b64_assignOddsRatio_frame. b64_frame b64_assignPower_frame.
  b64_frame b64_assignNnt_frame. b64_frame b64_assignRelativeRisk_frame.
  b64_frame b64_assignImpactMeasures_frame.
  reflexivity.
Qed.

Lemma b64_impactMeasures_incidence :
  B64.impactMeasures results =
  B64.impactMeasures (B64.assignImpactMeasures values studyGoal B64.initialResults).
Proof.
  enter_incidence.
  b64_frame b64_assignOddsRatio_frame. b64_frame b64_assignPower_frame.
  b64_frame b64_assignNnt_frame. b64_frame b64_assignRelativeRisk_frame.
  cbn [B64.impactMeasures B64.set_oddsRatio B64.set_type2Error B64.set_type1Error
       B64.set_power B64.set_nnt B64.set_relativeRisk].
  unfold B64.assignImpactMeasures. split_guards; reflexivity.
Qed.

Lemma b64_nnt_incidence :
  B64.nnt results =
  B64.nnt (B64.assignNnt values corrected studyGoal B64.initialResults).
Proof.
  enter_incidence.
  b64_frame b64_assignOddsRatio_frame. b64_frame b64_assignPower_frame.
  b64_frame b64_assignRelativeRisk_frame. b64_frame b64_assignImpactMeasures_frame.
  unfold B64.assignNnt. split_guards; reflexivity.
Qed.

Lemma b64_power_incidence :
  let p := B64.assignPower exp values B64.initialResults in
  B64.power results = B64.power p /\
  B64.type1Error results = B64.type1Error p /\
  B64.type2Error results = B64.type2Error p.
Proof.
  enter_incidence.
  b64_frame b64_assignOddsRatio_frame. b64_frame b64_assignNnt_frame.
  b64_frame b64_assignRelativeRisk_frame. b64_frame b64_assignImpactMeasures_frame.
  unfold B64.assignPower. split_guards; repeat split; reflexivity.
Qed.


End BinaryIncidence.

Lemma b64_oddsRatio_any_design exp log toFixed values corrected studyDesign studyGoal :
  B64.oddsRatio (B64.metrics exp log toFixed values corrected studyDesign studyGoal) =
  B64.oddsRatio
    (B64.assignOddsRatio exp log toFixed values corrected B64.initialResults).
Proof.
  unfold B64.metrics. cbv zeta.
  destruct (negb _); [destruct (_ && _)|]; try reflexivity.
  b64_frame b64_assignPower_frame. b64_frame b64_assignNnt_frame.
  b64_frame b64_assignRelativeRisk_frame. b64_frame b64_assignImpactMeasures_frame.
  unfold B64.assignOddsRatio. split_guards; reflexivity.
Qed.

(* ================================================================= *)
(** ** The claims of the specification *)

Section CaseControl.

(** C1. With the case-control design every incidence-based field stays null,
    whatever the counts and the goal: absolute risks, risk difference,
    relative risk, impact measures, NNT, power and both error rates.  Only
    [oddsRatio] is assigned on that path. *)
Theorem case_control_incidence_null :
  forall (values : Values.t) (studyGoal : StudyGoal),
    let r := newResults values case_control studyGoal in
    absoluteRiskExposed r = None /\ absoluteRiskControl r = None /\
    riskDifference r = None /\ relativeRisk r = None /\
    impactMeasures r = None /\ nnt r = None /\
    power r = None /\ type1Error r = None /\ type2Error r = None.
Proof.
  intros values studyGoal. unfold newResults, assignOddsRatio.
  change (negb (StudyDesign_eqb case_control case_control)) with false.
  cbv iota zeta.
  destruct (_ && _); cbn; repeat split.
Qed.

End CaseControl.

Section BinaryClaims.

Import PrimFloat.

Local Open Scope string_scope.
Local Open Scope float_scope.

Variables exp log : B64.number -> B64.number.
Variable toFixed : B64.number -> nat -> string.
Variable values : B64.Values.t.
Variable studyDesign : StudyDesign.
Variable studyGoal : StudyGoal.

Hypothesis design_ok : studyDesign <> case_control.
Hypothesis exposed_ok : B64.gt (B64.exposedTotal values) 0 = true.
Hypothesis control_ok : B64.gt (B64.controlTotal values) 0 = true.

Local Abbreviation a := (B64.Values.a values).
Local Abbreviation b := (B64.Values.b values).
Local Abbreviation c := (B64.Values.c values).
Local Abbreviation d := (B64.Values.d values).

Local Abbreviation r :=
  (B64.newResults exp log toFixed values studyDesign studyGoal).

(** C2. For a design with incidence and two non-empty groups, in binary64:
    when the risk difference the handler computes,
    [rd = a/(a+b) - c/(c+d)], is not zero, [nnt] is a record whose value is
    [1/|rd|], whose type is Benefit exactly when the goal is undesirable and
    [rd < 0] or the goal is desirable and [rd > 0] (Harm otherwise), and
    whose bounds are [1/riskDifference.upper] and [1/riskDifference.lower];
    when [rd] is zero [nnt] stays null.  [rd] is the double of the program:
    two risks that round to the same double have a zero difference. *)
Theorem nnt_reciprocal_of_risk_difference :
  let rd := a / (a + b) - c / (c + d) in
  (B64.ne rd 0 = true ->
   exists ci n,
     B64.riskDifference (B64.newResults exp log toFixed values studyDesign studyGoal)
     = Some ci /\
     B64.Interval.value ci = rd /\
     B64.nnt r = Some n /\
     B64.Nnt.value n = 1 / abs rd /\
     (B64.Nnt.type_ n = B64.Nnt.Benefit <->
        (studyGoal = undesirable /\ (rd <? 0) = true)
        \/ (studyGoal = desirable /\ (0 <? rd) = true)) /\
     (B64.Nnt.type_ n = B64.Nnt.Harm <->
        ~ ((studyGoal = undesirable /\ (rd <? 0) = true)
           \/ (studyGoal = desirable /\ (0 <? rd) = true))) /\
     B64.Nnt.lower n = 1 / B64.Interval.upper ci /\
     B64.Nnt.upper n = 1 / B64.Interval.lower ci) /\
  (B64.ne rd 0 = false -> B64.nnt r = None).
Proof.
  intros rd0. unfold B64.newResults.
  rewrite (b64_nnt_incidence exp log toFixed values _ studyDesign studyGoal
             design_ok exposed_ok control_ok).
  rewrite (b64_riskDifference_incidence exp log toFixed values _ studyDesign studyGoal
             design_ok exposed_ok control_ok).
  unfold B64.assignNnt.
  change (B64.rd values) with rd0.
  split; intros Hrd; rewrite Hrd; [|reflexivity].
  eexists. eexists. split; [reflexivity|]. split; [reflexivity|].
  split; [reflexivity|].
  cbn [B64.Nnt.value B64.Nnt.type_ B64.Nnt.lower B64.Nnt.upper B64.nnt B64.set_nnt].
  split; [reflexivity|].
  assert (Hty :
    (StudyGoal_eqb studyGoal undesirable && (rd0 <? 0)
     || StudyGoal_eqb studyGoal desirable && B64.gt rd0 0)%bool = true
    <-> (studyGoal = undesirable /\ (rd0 <? 0) = true)
        \/ (studyGoal = desirable /\ (0 <? rd0) = true)).
  { unfold B64.gt. rewrite orb_true_iff, !andb_true_iff.
    destruct studyGoal; cbn; intuition (try discriminate; auto). }
  match goal with |- context [if ?g then _ else _] => destruct g end.
  - assert (P := proj1 Hty eq_refl).
    split; [tauto|]. split; [|split; reflexivity].
    split; [discriminate|tauto].
  - assert (P : ~ ((studyGoal = undesirable /\ (rd0 <? 0) = true) \/
                  (studyGoal = desirable /\ (0 <? rd0) = true))).
    { intros H. apply Hty in H. discriminate. }
    split; [split; [discriminate|tauto]|].
    split; [tauto|split; reflexivity].
Qed.

(** C3. For a design with incidence and two non-empty groups, in binary64:
    impact measures are present exactly when the computed control risk is
    positive and the computed risk difference is not zero; then the absolute
    value is [|rd|], the relative value [|rd| / riskControl], and the labels
    follow the goal and the sign of [rd]: ARI/RRI, ARR/RRR, ABI/RBI,
    ABR/RBR. *)
Theorem impact_measures_policy :
  let riskControl := c / (c + d) in
  let rd := a / (a + b) - riskControl in
  let m := B64.impactMeasures
             (B64.newResults exp log toFixed values studyDesign studyGoal) in
  (m <> None <-> B64.gt riskControl 0 = true /\ B64.ne rd 0 = true) /\
  (B64.gt riskControl 0 = true -> B64.ne rd 0 = true ->
   exists absoluteLabel relativeLabel,
     m = Some (B64.Impact.make
                 (B64.Impact.make_measure absoluteLabel (abs rd))
                 (B64.Impact.make_measure relativeLabel (abs rd / riskControl))) /\
     (studyGoal = undesirable -> (0 <? rd) = true ->
      absoluteLabel = "Absolute Risk Increase (ARI)" /\
      relativeLabel = "Relative Risk Increase (RRI)") /\
     (studyGoal = undesirable -> (rd <? 0) = true ->
      absoluteLabel = "Absolute Risk Reduction (ARR)" /\
      relativeLabel = "Relative Risk Reduction (RRR)") /\
     (studyGoal = desirable -> (0 <? rd) = true ->
      absoluteLabel = "Absolute Benefit Increase (ABI)" /\
      relativeLabel = "Relative Benefit Increase (RBI)") /\
     (studyGoal = desirable -> (rd <? 0) = true ->
      absoluteLabel = "Absolute Benefit Reduction (ABR)" /\
      relativeLabel = "Relative Benefit Reduction (RBR)")).
Proof.
  intros rc rd0 m. unfold m, B64.newResults.
  rewrite (b64_impactMeasures_incidence exp log toFixed values _ studyDesign studyGoal
             design_ok exposed_ok control_ok).
  unfold B64.assignImpactMeasures.
  change (B64.rd values) with rd0. change (B64.riskControl values) with rc.
  split.
  - destruct (B64.gt rc 0), (B64.ne rd0 0); cbn [andb].
    + split; [tauto|]. intros _.
      destruct (if StudyGoal_eqb _ _ then _ else _); discriminate.
    + split; [intros H; now elim H|intros [_ H]; discriminate].
    + split; [intros H; now elim H|intros [H _]; discriminate].
    + split; [intros H; now elim H|intros [H _]; discriminate].
  - intros Hrc Hrd. rewrite Hrc, Hrd. cbn [andb].
    pose proof (ltb_zero_asym rd0) as Hasym. unfold B64.gt.
    destruct studyGoal; cbn [StudyGoal_eqb];
      destruct (0 <? rd0) eqn:Hpos;
      (eexists; eexists; split; [reflexivity|]);
      repeat split; intros; try discriminate; try reflexivity;
      match goal with
      | H : (rd0 <? 0) = true |- _ => apply Hasym in H; congruence
      end.
Qed.

(** C4. For a design with incidence and two non-empty groups whose computed
    risks are equal, in binary64: power and type I error are both
    alpha = 0.05, type II error is [1 - 0.05], the double 0.95, and neither
    impact measures nor NNT are reported, the risk difference being zero.
    The risk is taken finite: a quotient [a/(a+b)] with [a + b > 0] does not
    overflow, a fact about rounding that is assumed here, not derived. *)
Theorem equal_risks_power_is_alpha :
  let riskExposed := a / (a + b) in
  let riskControl := c / (c + d) in
  (riskExposed =? riskControl) = true ->
  is_finite riskExposed = true ->
  let r := B64.newResults exp log toFixed values studyDesign studyGoal in
  B64.power r = Some (B64.Point.make 0.05) /\
  B64.type1Error r = Some (B64.Point.make 0.05) /\
  B64.type2Error r = Some (B64.Point.make 0.95) /\
  (riskExposed - riskControl =? 0) = true /\
  B64.impactMeasures r = None /\
  B64.nnt r = None.
Proof.
  intros rE rC Heq Hfin r0. unfold r0, B64.newResults.
  destruct (b64_power_incidence exp log toFixed values (B64.corrected values)
              studyDesign studyGoal design_ok exposed_ok control_ok)
    as (Hp & H1 & H2).
  rewrite Hp, H1, H2.
  rewrite (b64_impactMeasures_incidence exp log toFixed values _ studyDesign studyGoal
             design_ok exposed_ok control_ok).
  rewrite (b64_nnt_incidence exp log toFixed values _ studyDesign studyGoal
             design_ok exposed_ok control_ok).
  unfold B64.assignPower, B64.assignImpactMeasures, B64.assignNnt.
  change (B64.riskExposed values) with rE.
  change (B64.riskControl values) with rC.
  change (B64.rd values) with (rE - rC).
  assert (Hinf : is_infinity rE = false).
  { unfold is_finite in Hfin. apply negb_true_iff, orb_false_iff in Hfin. tauto. }
  pose proof (sub_eq_zero rE rC Heq Hinf) as Hz.
  unfold B64.ne. rewrite Heq, Hz, andb_false_r. cbn.
  repeat split.
Qed.


End BinaryClaims.

Section IncidenceClaims.

Local Open Scope R_scope.

Variables a b c d : N.
Variable studyDesign : StudyDesign.
Variable studyGoal : StudyGoal.

Hypothesis design_ok : studyDesign <> case_control.
Hypothesis exposed_pos : (0 < a + b)%N.
Hypothesis control_pos : (0 < c + d)%N.

Local Abbreviation r := (newResults (table a b c d) studyDesign studyGoal).

Let exposed_ok := proj2 (exposedTotal_pos a b c d) exposed_pos.
Let control_ok := proj2 (controlTotal_pos a b c d) control_pos.

Lemma ne_zero_fin x : Js.ne (Js.Fin x) (Js.Fin 0) = negb (Js.Reqb x 0).
Proof. reflexivity. Qed.

(** [> 0] and [!== 0] on finite numbers, as propositions. *)
Ltac decide_guards :=
  unfold Js.gt, Js.ge, Js.lt, Js.le, Js.ne, Js.eq, Js.Rltb, Js.Rleb, Js.Reqb;
  repeat match goal with
         | |- context [Rlt_dec ?x ?y] => destruct (Rlt_dec x y)
         | |- context [Rle_dec ?x ?y] => destruct (Rle_dec x y)
         | |- context [Req_dec_T ?x ?y] => destruct (Req_dec_T x y)
         end;
  cbn [negb andb orb].

(** C10. For a table of fewer than 2^53 subjects, a design with incidence, two
    non-empty groups and different risks, the pooled proportion
    [(a+c)/(a+b+c+d)] lies strictly between 0 and 1 (it is 0 or 1 only when
    both risks are 0 or both are 1), so the test
    [p_pooled > 0 && p_pooled < 1] succeeds and the branch for a pooled
    proportion of 0 or 1 is not taken: type I error is reported, and power
    is null only through the zero-variance branch.  Below 2^53 the sums of
    the handler are exact in binary64, as they are here, and a quotient
    smaller than 1 by at least 2^-53 is not rounded to 1. *)
Theorem pooled_proportion_strictly_inside :
  (a + b + c + d < 2 ^ 53)%N ->
  risk a b <> risk c d ->
  let t := table a b c d in
  let pp := (count a + count c) / ((count a + count b) + (count c + count d)) in
  p_pooled t = Js.Fin pp /\
  0 < pp < 1 /\
  (Js.gt (p_pooled t) (Js.Fin 0) && Js.lt (p_pooled t) (Js.Fin 1))%bool = true /\
  (power r = None <-> Js.gt (se_alt_variance t) (Js.Fin 0) = false) /\
  (type2Error r = None <-> Js.gt (se_alt_variance t) (Js.Fin 0) = false) /\
  type1Error r = Some (Point.make (Js.Fin 0.05)).
Proof.
  intros _ Hne t pp.
  pose proof (count_nonneg a) as Ha. pose proof (count_nonneg b) as Hb.
  pose proof (count_nonneg c) as Hc. pose proof (count_nonneg d) as Hd.
  pose proof (count_pos _ exposed_pos) as Hab. rewrite count_add in Hab.
  pose proof (count_pos _ control_pos) as Hcd. rewrite count_add in Hcd.
  assert (Hnum : 0 < count a + count c).
  { destruct (Rle_lt_dec (count a + count c) 0) as [Hz|]; [|assumption].
    exfalso. apply Hne. unfold risk.
    replace (count a) with 0 by lra. replace (count c) with 0 by lra.
    unfold Rdiv. now rewrite !Rmult_0_l. }
  assert (Hden : count a + count c < count a + count b + (count c + count d)).
  { destruct (Rle_lt_dec (count b + count d) 0) as [Hz|]; [|lra].
    exfalso. apply Hne. unfold risk.
    replace (count b) with 0 by lra. replace (count d) with 0 by lra.
    rewrite !Rplus_0_r. replace (count b) with 0 in Hab by lra.
    replace (count d) with 0 in Hcd by lra.
    unfold Rdiv. rewrite !Rinv_r by lra. reflexivity. }
  assert (Hpp : 0 < pp < 1) by (apply proportion_inside; assumption).
  assert (Ept : p_pooled t = Js.Fin pp).
  { unfold p_pooled, t. rewrite exposedTotal_table, controlTotal_table.
    cbn [table Values.a Values.c Js.add]. apply div_fin. lra. }
  assert (G : (Js.gt (p_pooled t) (Js.Fin 0) && Js.lt (p_pooled t) (Js.Fin 1))%bool = true).
  { rewrite Ept. decide_guards; try reflexivity; lra. }
  split; [exact Ept|]. split; [exact Hpp|]. split; [exact G|].
  destruct (power_incidence _ _ studyGoal design_ok exposed_ok control_ok)
    as (Hp & H1 & H2).
  rewrite Hp, H1, H2. unfold assignPower. fold t. rewrite G.
  assert (E : Js.ne (riskExposed t) (riskControl t) = true).
  { unfold t. rewrite (riskExposed_table a b c d exposed_pos).
    rewrite (riskControl_table a b c d control_pos).
    decide_guards; [contradiction|reflexivity]. }
  rewrite E.
  destruct (Js.gt (se_alt_variance t) (Js.Fin 0)); cbn;
    repeat split; intros; try discriminate; reflexivity.
Qed.

End IncidenceClaims.

Section OddsRatioClaims.

Local Open Scope R_scope.

Variables a b c d : N.

(** The odds ratio of a valid table: absent when [b] or [c] is zero,
    otherwise the record the last block builds. *)
Lemma oddsRatio_absent studyDesign studyGoal :
  b = 0%N \/ c = 0%N ->
  oddsRatio (newResults (table a b c d) studyDesign studyGoal) = None.
Proof.
  intros H. rewrite oddsRatio_any_design. unfold assignOddsRatio.
  pose proof (oddsRatio_guard_table a b c d) as G. cbv zeta in G. rewrite G.
  assert (E : ((0 <? b)%N && (0 <? c)%N)%bool = false).
  { destruct H as [-> | ->]; [reflexivity|apply andb_false_r]. }
  now rewrite E.
Qed.

Lemma oddsRatio_present studyDesign studyGoal :
  (0 < b)%N -> (0 < c)%N ->
  exists lower upper pValue zStat,
    oddsRatio (newResults (table a b c d) studyDesign studyGoal) =
    Some (Ratio.make (odds_ratio (table a b c d)) lower upper pValue zStat) /\
    oddsRatio (assignOddsRatio (table a b c d) initialResults) =
    Some (Ratio.make (odds_ratio (table a b c d)) lower upper pValue zStat).
Proof.
  intros Hb Hc. rewrite oddsRatio_any_design. unfold assignOddsRatio.
  pose proof (oddsRatio_guard_table a b c d) as G. cbv zeta in G. rewrite G.
  apply N.ltb_lt in Hb, Hc. rewrite Hb, Hc. cbn. eauto 6.
Qed.

(** C5. For a table with [b > 0] and [c > 0] and a fixed goal, any two study
    designs, case-control included, give the same [oddsRatio] field, value,
    bounds, p-value and Z statistic alike, and it is not null. *)
Theorem odds_ratio_independent_of_design :
  forall (studyGoal : StudyGoal) (design1 design2 : StudyDesign),
    (0 < b)%N -> (0 < c)%N ->
    oddsRatio (newResults (table a b c d) design1 studyGoal) =
    oddsRatio (newResults (table a b c d) design2 studyGoal) /\
    exists o, oddsRatio (newResults (table a b c d) design1 studyGoal) = Some o.
Proof.
  intros studyGoal design1 design2 Hb Hc.
  destruct (oddsRatio_present design1 studyGoal Hb Hc) as (l & u & p & z & E1 & E).
  split; [|eauto].
  now rewrite !oddsRatio_any_design.
Qed.

(** C6. On a valid table whose counts are below 2^53 the odds ratio is null
    exactly when [b = 0] or [c = 0], the test being on the raw counts;
    otherwise its value is [(a_c * d_c) / (b_c * c_c)] on the corrected
    cells, a positive real, and with [a = 0] that is
    [(0.5 * d_c) / (b * c)].  With such counts neither product overflows in
    binary64 and the quotient does not underflow. *)
Theorem odds_ratio_null_iff_b_or_c_zero :
  forall (studyDesign : StudyDesign) (studyGoal : StudyGoal),
    (a < 2 ^ 53 /\ b < 2 ^ 53 /\ c < 2 ^ 53 /\ d < 2 ^ 53)%N ->
    let r := newResults (table a b c d) studyDesign studyGoal in
    (oddsRatio r = None <-> b = 0%N \/ c = 0%N) /\
    ((0 < b)%N -> (0 < c)%N ->
     exists o,
       oddsRatio r = Some o /\
       Ratio.value o =
       Js.Fin (corrected_cell a * corrected_cell d / (corrected_cell b * corrected_cell c)) /\
       0 < corrected_cell a * corrected_cell d / (corrected_cell b * corrected_cell c) /\
       (a = 0%N ->
        Ratio.value o = Js.Fin (0.5 * corrected_cell d / (count b * count c)) /\
        0 < 0.5 * corrected_cell d / (count b * count c))).
Proof.
  intros studyDesign studyGoal _ r. unfold r.
  pose proof (corrected_cell_pos a) as Ha. pose proof (corrected_cell_pos b) as Hb.
  pose proof (corrected_cell_pos c) as Hc. pose proof (corrected_cell_pos d) as Hd.
  split.
  - split; [|apply oddsRatio_absent].
    intros Hnull.
    destruct (N.eq_dec b 0) as [|Pb]; [now left|].
    destruct (N.eq_dec c 0) as [|Pc]; [now right|].
    destruct (oddsRatio_present studyDesign studyGoal) as (l & u & p & z & E & _);
      [lia|lia|]. congruence.
  - intros Pb Pc.
    destruct (oddsRatio_present studyDesign studyGoal Pb Pc) as (l & u & p & z & E & _).
    eexists. split; [exact E|]. cbn [Ratio.value].
    split; [apply odds_ratio_table|].
    split; [apply Rdiv_lt_0_compat; nra|].
    intros ->. rewrite odds_ratio_table.
    assert (Eb : corrected_cell b = count b).
    { unfold corrected_cell. destruct (N.eqb_spec b 0); [lia|reflexivity]. }
    assert (Ec : corrected_cell c = count c).
    { unfold corrected_cell. destruct (N.eqb_spec c 0); [lia|reflexivity]. }
    rewrite <- Eb, <- Ec. split; [reflexivity|].
    apply Rdiv_lt_0_compat; nra.
Qed.

End OddsRatioClaims.

Section SignificanceClaims.

Local Open Scope R_scope.
Local Open Scope string_scope.

Lemma abs_neg z : Js.abs (Js.neg z) = Js.abs z.
Proof. destruct z; cbn; try reflexivity. now rewrite Rabs_Ropp. Qed.





(** C9. For every finite [x] the approximation satisfies
    [cdf(-x) = 1 - cdf(x)] within 1e-6, exactly so when [x] is not zero, and
    [cdf(0)] is 0.5 within the same tolerance. *)
Theorem normalCDF_reflection :
  forall x : R,
  exists u v w,
    normalCDF (Js.Fin (- x)) = Js.Fin u /\
    normalCDF (Js.Fin x) = Js.Fin v /\
    normalCDF (Js.Fin 0) = Js.Fin w /\
    Rabs (u - (1 - v)) <= 0.000001 /\
    (x <> 0 -> u = 1 - v) /\
    Rabs (w - 0.5) <= 0.000001.
Proof.
  intros x. exists (cdf (- x)), (cdf x), (cdf 0).
  rewrite !normalCDF_fin. repeat split.
  - destruct (Req_dec_T x 0) as [->|Hx].
    + rewrite Ropp_0, cdf_0. unfold Rabs. destruct (Rcase_abs _); lra.
    + rewrite (cdf_reflect x Hx). unfold Rabs. destruct (Rcase_abs _); lra.
  - apply cdf_reflect.
  - rewrite cdf_0. unfold Rabs. destruct (Rcase_abs _); lra.
Qed.

End SignificanceClaims.

(* ================================================================= *)
(** ** The scenarios of the specification *)

Section BinaryScenarios.

Import PrimFloat.

Local Open Scope string_scope.
Local Open Scope float_scope.

(** Scenario A (20, 80, 5, 95; prospective cohort, undesirable outcome): the
    risk difference is the double 0.15000000000000002 and the NNT record a
    Harm with value 1 / 0.15000000000000002, displayed as 6.667. *)
Lemma nnt_scenario_A :
  cohort_prospective <> case_control /\
  B64.gt (B64.exposedTotal (B64.Values.make 20 80 5 95)) 0 = true /\
  B64.gt (B64.controlTotal (B64.Values.make 20 80 5 95)) 0 = true /\
  B64.ne (20 / (20 + 80) - 5 / (5 + 95)) 0 = true /\
  forall exp log toFixed,
  exists n,
    B64.nnt (B64.newResults exp log toFixed (B64.Values.make 20 80 5 95) cohort_prospective undesirable)
    = Some n /\
    B64.Nnt.value n = 1 / 0.15000000000000002 /\
    B64.Nnt.type_ n = B64.Nnt.Harm.
Proof.
  assert (H1 : cohort_prospective <> case_control) by discriminate.
  assert (H2 : B64.gt (B64.exposedTotal (B64.Values.make 20 80 5 95)) 0 = true) by reflexivity.
  assert (H3 : B64.gt (B64.controlTotal (B64.Values.make 20 80 5 95)) 0 = true) by reflexivity.
  assert (H4 : B64.ne (20 / (20 + 80) - 5 / (5 + 95)) 0 = true) by reflexivity.
  repeat (split; [assumption|]).
  intros exp log toFixed.
  destruct (nnt_reciprocal_of_risk_difference
              exp log toFixed (B64.Values.make 20 80 5 95) cohort_prospective undesirable H1 H2 H3)
    as [Hnz _].
  destruct (Hnz H4) as (ci & n & _ & _ & Hn & Hv & _ & Hharm & _).
  exists n. split; [exact Hn|]. split.
  - rewrite Hv. reflexivity.
  - apply Hharm. intros [[_ Hlt]|[Hg _]]; discriminate.
Defined.

(** Scenario A: an increase of an undesirable outcome, hence ARI and RRI; the
    relative value is the double next to 3. *)
Lemma impact_scenario_A :
  cohort_prospective <> case_control /\
  B64.gt (B64.exposedTotal (B64.Values.make 20 80 5 95)) 0 = true /\
  B64.gt (B64.controlTotal (B64.Values.make 20 80 5 95)) 0 = true /\
  B64.gt (5 / (5 + 95)) 0 = true /\
  B64.ne (20 / (20 + 80) - 5 / (5 + 95)) 0 = true /\
  forall exp log toFixed,
    B64.impactMeasures
      (B64.newResults exp log toFixed (B64.Values.make 20 80 5 95)
         cohort_prospective undesirable)
    = Some (B64.Impact.make
              (B64.Impact.make_measure "Absolute Risk Increase (ARI)"
                 0.15000000000000002)
              (B64.Impact.make_measure "Relative Risk Increase (RRI)"
                 3.0000000000000004)).
Proof.
  assert (H1 : cohort_prospective <> case_control) by discriminate.
  assert (H2 : B64.gt (B64.exposedTotal (B64.Values.make 20 80 5 95)) 0 = true)
    by reflexivity.
  assert (H3 : B64.gt (B64.controlTotal (B64.Values.make 20 80 5 95)) 0 = true)
    by reflexivity.
  assert (H4 : B64.gt (5 / (5 + 95)) 0 = true) by reflexivity.
  assert (H5 : B64.ne (20 / (20 + 80) - 5 / (5 + 95)) 0 = true) by reflexivity.
  repeat (split; [assumption|]).
  intros exp log toFixed.
  destruct (impact_measures_policy
              exp log toFixed (B64.Values.make 20 80 5 95)
              cohort_prospective undesirable H1 H2 H3) as [_ Hm].
  destruct (Hm H4 H5) as (la & lr & Em & Hari & _).
  destruct (Hari eq_refl eq_refl) as [-> ->].
  exact Em.
Defined.

(** Scenario D (5, 45, 5, 45): equal risks. *)
Lemma power_scenario_D :
  rct <> case_control /\
  B64.gt (B64.exposedTotal (B64.Values.make 5 45 5 45)) 0 = true /\
  B64.gt (B64.controlTotal (B64.Values.make 5 45 5 45)) 0 = true /\
  (5 / (5 + 45) =? 5 / (5 + 45)) = true /\
  is_finite (5 / (5 + 45)) = true /\
  forall exp log toFixed,
    let r := B64.newResults exp log toFixed (B64.Values.make 5 45 5 45)
               rct undesirable in
    B64.power r = Some (B64.Point.make 0.05) /\
    B64.type2Error r = Some (B64.Point.make 0.95) /\
    B64.impactMeasures r = None /\
    B64.nnt r = None.
Proof.
  assert (H1 : rct <> case_control) by discriminate.
  assert (H2 : B64.gt (B64.exposedTotal (B64.Values.make 5 45 5 45)) 0 = true)
    by reflexivity.
  assert (H3 : (5 / (5 + 45) =? 5 / (5 + 45)) = true) by reflexivity.
  assert (H4 : is_finite (5 / (5 + 45)) = true) by reflexivity.
  repeat (split; [assumption|]).
  intros exp log toFixed.
  destruct (equal_risks_power_is_alpha
              exp log toFixed (B64.Values.make 5 45 5 45) rct undesirable
              H1 H2 H2 H3 H4)
    as (Hp & _ & H2e & _ & Him & Hn).
  repeat split; assumption.
Defined.



(** C6 as stated fails on the valid table (0, 1e200, 1e200, 1): [b > 0] and
    [c > 0], the product [b_c * c_c] overflows to [Infinity] and the odds
    ratio reported is [(0.5 * 1) / Infinity = 0], which is not positive. *)
Lemma odds_ratio_overflow :
  B64.invalid 0 = false /\ B64.invalid 1e200 = false /\ B64.invalid 1 = false /\
  B64.gt 1e200 0 = true /\
  1e200 * 1e200 = infinity /\
  forall exp log toFixed studyDesign studyGoal,
  exists o,
    B64.oddsRatio
      (B64.newResults exp log toFixed (B64.Values.make 0 1e200 1e200 1)
         studyDesign studyGoal) = Some o /\
    B64.Ratio.value o = 0 /\
    B64.gt (B64.Ratio.value o) 0 = false.
Proof.
  do 5 (split; [reflexivity|]).
  intros exp log toFixed studyDesign studyGoal. unfold B64.newResults.
  rewrite b64_oddsRatio_any_design.
  eexists. split; [reflexivity|]. split; reflexivity.
Qed.

(** C10 as stated fails on the valid table (1e17, 0, 1, 1): the groups are not
    empty and the risks are 1 and 0.5, but [1e17 + 1] and [1e17 + 2] both
    round to [1e17], the pooled proportion is 1 and the branch for a pooled
    proportion of 0 or 1 is taken. *)
Lemma pooled_proportion_rounds_to_one :
  rct <> case_control /\
  B64.invalid 1e17 = false /\ B64.invalid 0 = false /\ B64.invalid 1 = false /\
  B64.gt (B64.exposedTotal (B64.Values.make 1e17 0 1 1)) 0 = true /\
  B64.gt (B64.controlTotal (B64.Values.make 1e17 0 1 1)) 0 = true /\
  B64.riskExposed (B64.Values.make 1e17 0 1 1) = 1 /\
  B64.riskControl (B64.Values.make 1e17 0 1 1) = 0.5 /\
  B64.p_pooled (B64.Values.make 1e17 0 1 1) = 1 /\
  forall exp log toFixed studyGoal,
    let r := B64.newResults exp log toFixed (B64.Values.make 1e17 0 1 1)
               rct studyGoal in
    B64.power r = None /\ B64.type2Error r = None /\
    B64.type1Error r = Some (B64.Point.make 0.05).
Proof.
  split; [discriminate|]. do 8 (split; [reflexivity|]).
  intros exp log toFixed studyGoal r. unfold r, B64.newResults.
  destruct (b64_power_incidence exp log toFixed (B64.Values.make 1e17 0 1 1)
              (B64.corrected (B64.Values.make 1e17 0 1 1)) rct studyGoal)
    as (Hp & H1 & H2); [discriminate|reflexivity|reflexivity|].
  rewrite Hp, H1, H2. repeat split.
Qed.

End BinaryScenarios.

Section Scenarios.

Local Open Scope R_scope.

Ltac counts := unfold risk, corrected_cell, count; simpl; try lra.

(** Scenario A (20, 80, 5, 95; prospective cohort, undesirable outcome):
    risks 0.20 and 0.05, risk difference 0.15. *)
Lemma risks_scenario_A :
  risk 20 80 = 0.2 /\ risk 5 95 = 0.05 /\ risk 20 80 - risk 5 95 = 0.15.
Proof. repeat split; counts. Qed.

(** Scenario C (10, 20, 10, 20; case-control): no incidence metric. *)
Lemma incidence_scenario_C :
  absoluteRiskExposed (newResults (table 10 20 10 20) case_control desirable) = None /\
  relativeRisk (newResults (table 10 20 10 20) case_control desirable) = None /\
  riskDifference (newResults (table 10 20 10 20) case_control desirable) = None /\
  nnt (newResults (table 10 20 10 20) case_control desirable) = None /\
  power (newResults (table 10 20 10 20) case_control desirable) = None.
Proof.
  destruct (case_control_incidence_null (table 10 20 10 20) desirable)
    as (H1 & _ & H3 & H4 & _ & H6 & H7 & _).
  repeat split; assumption.
Defined.

(** Scenario C: the odds ratio is that of any other design. *)
Lemma odds_ratio_scenario_C :
  (0 < 20)%N /\ (0 < 10)%N /\
  oddsRatio (newResults (table 10 20 10 20) case_control desirable) =
  oddsRatio (newResults (table 10 20 10 20) rct desirable).
Proof.
  assert (H1 : (0 < 20)%N) by reflexivity.
  assert (H2 : (0 < 10)%N) by reflexivity.
  repeat (split; [assumption|]).
  exact (proj1 (odds_ratio_independent_of_design
                  10 20 10 20 desirable case_control rct H1 H2)).
Defined.

(** Scenario B (0, 100, 10, 90): the odds ratio is computed with
    [a_c = 0.5] and is 0.045; in Scenario C it is 1. *)
Lemma odds_ratio_scenario_B :
  (0 < 2 ^ 53 /\ 100 < 2 ^ 53 /\ 10 < 2 ^ 53 /\ 90 < 2 ^ 53)%N /\
  (exists o,
     oddsRatio (newResults (table 0 100 10 90) rct undesirable) = Some o /\
     Ratio.value o = Js.Fin 0.045) /\
  (exists o,
     oddsRatio (newResults (table 10 20 10 20) case_control desirable) = Some o /\
     Ratio.value o = Js.Fin 1) /\
  oddsRatio (newResults (table 10 0 10 20) rct undesirable) = None.
Proof.
  assert (HB : (0 < 2 ^ 53 /\ 100 < 2 ^ 53 /\ 10 < 2 ^ 53 /\ 90 < 2 ^ 53)%N)
    by (repeat split; reflexivity).
  assert (HC : (10 < 2 ^ 53 /\ 20 < 2 ^ 53 /\ 10 < 2 ^ 53 /\ 20 < 2 ^ 53)%N)
    by (repeat split; reflexivity).
  assert (HN : (10 < 2 ^ 53 /\ 0 < 2 ^ 53 /\ 10 < 2 ^ 53 /\ 20 < 2 ^ 53)%N)
    by (repeat split; reflexivity).
  split; [exact HB|]. split; [|split].
  - destruct (odds_ratio_null_iff_b_or_c_zero 0 100 10 90 rct undesirable HB)
      as [_ H].
    destruct (H eq_refl eq_refl) as (o & Eo & Ev & _).
    exists o. split; [exact Eo|]. rewrite Ev. f_equal. counts.
  - destruct (odds_ratio_null_iff_b_or_c_zero 10 20 10 20 case_control desirable HC)
      as [_ H].
    destruct (H eq_refl eq_refl) as (o & Eo & Ev & _).
    exists o. split; [exact Eo|]. rewrite Ev. f_equal. counts.
  - apply (odds_ratio_null_iff_b_or_c_zero 10 0 10 20 rct undesirable HN).
    now left.
Defined.

(** Scenario A: the pooled proportion is 25/200 and the test on it succeeds. *)
Lemma pooled_scenario_A :
  cohort_prospective <> case_control /\ (0 < 20 + 80)%N /\ (0 < 5 + 95)%N /\
  (20 + 80 + 5 + 95 < 2 ^ 53)%N /\
  risk 20 80 <> risk 5 95 /\
  p_pooled (table 20 80 5 95) = Js.Fin 0.125 /\
  (Js.gt (p_pooled (table 20 80 5 95)) (Js.Fin 0)
   && Js.lt (p_pooled (table 20 80 5 95)) (Js.Fin 1))%bool = true.
Proof.
  assert (H1 : cohort_prospective <> case_control) by discriminate.
  assert (H2 : (0 < 20 + 80)%N) by reflexivity.
  assert (H3 : (0 < 5 + 95)%N) by reflexivity.
  assert (H4 : risk 20 80 <> risk 5 95) by counts.
  assert (H5 : (20 + 80 + 5 + 95 < 2 ^ 53)%N) by reflexivity.
  repeat (split; [assumption|]).
  destruct (pooled_proportion_strictly_inside
              20 80 5 95 cohort_prospective undesirable H1 H2 H3 H5 H4)
    as (Ep & _ & G & _).
  split; [|exact G]. rewrite Ep. f_equal. counts.
Defined.

(** Scenarios A, D and B: relative risk 4, 1 and 0; in Scenario B the log
    scale gives bounds 0 and a Z statistic of minus infinity. *)
Lemma relative_risk_scenarios :
  (exists o,
     relativeRisk (newResults (table 20 80 5 95) cohort_prospective undesirable)
     = Some o /\ Ratio.value o = Js.Fin 4) /\
  (exists o,
     relativeRisk (newResults (table 5 45 5 45) rct undesirable) = Some o /\
     Ratio.value o = Js.Fin 1) /\
  relativeRisk (newResults (table 0 100 10 90) rct undesirable) =
  Some (Ratio.make (Js.Fin 0) (Js.Fin 0) (Js.Fin 0) "<0.0001" Js.NegInf).
Proof.
  split; [|split].
  - destruct (relativeRisk_value 20 80 5 95 cohort_prospective undesirable)
      as (o & Eo & Ev); [discriminate|reflexivity|reflexivity|].
    exists o. split; [exact Eo|]. rewrite Ev. cbn [N.eqb]. f_equal. counts.
  - destruct (relativeRisk_value 5 45 5 45 rct undesirable)
      as (o & Eo & Ev); [discriminate|reflexivity|reflexivity|].
    exists o. split; [exact Eo|]. rewrite Ev. cbn [N.eqb]. f_equal. counts.
  - apply relativeRisk_no_exposed_events;
      [discriminate|reflexivity|reflexivity|reflexivity].
Qed.

End Scenarios.

(* ================================================================= *)
(** ** Further properties of the engine *)

(* ----------------------------------------------------------------- *)
(** *** The design in binary64 *)

Section BinaryDesign.

Variables exp log : B64.number -> B64.number.
Variable toFixed : B64.number -> nat -> string.

(** X10.  In binary64, for every input and goal: with the case-control design
    every incidence-based field stays null, and the odds-ratio field is the
    same for any two designs.  The design enters the handler by one test
    only. *)
Theorem design_enters_by_one_test :
  forall (values : B64.Values.t) (studyGoal : StudyGoal)
         (design1 design2 : StudyDesign),
    let r := B64.newResults exp log toFixed values case_control studyGoal in
    (B64.absoluteRiskExposed r = None /\ B64.absoluteRiskControl r = None /\
     B64.riskDifference r = None /\ B64.relativeRisk r = None /\
     B64.impactMeasures r = None /\ B64.nnt r = None /\
     B64.power r = None /\ B64.type1Error r = None /\ B64.type2Error r = None) /\
    B64.oddsRatio (B64.newResults exp log toFixed values design1 studyGoal)
    = B64.oddsRatio (B64.newResults exp log toFixed values design2 studyGoal).
Proof.
  intros values studyGoal design1 design2 r. split.
  - unfold r, B64.newResults, B64.metrics, B64.assignOddsRatio.
    change (negb (StudyDesign_eqb case_control case_control)) with false.
    cbv iota zeta.
    destruct (_ && _)%bool; cbn; repeat split.
  - unfold B64.newResults. now rewrite !b64_oddsRatio_any_design.
Qed.

End BinaryDesign.


(* ----------------------------------------------------------------- *)
(** *** Standard errors on a valid table *)

Section StandardErrors.

Local Open Scope R_scope.

Variables a b c d : N.

(** The variance under the root of [se_rd], and that of [se_ln_or]. *)
Lemma se_rd_table :
  exists se, 0 < se /\ se_rd (table a b c d) = Js.Fin se.
Proof.
  unfold se_rd, riskExposed_c, riskControl_c, exposedTotal_c, controlTotal_c.
  rewrite corrected_table. cbn [Values.a Values.b Values.c Values.d Js.add].
  pose proof (corrected_cell_pos a). pose proof (corrected_cell_pos b).
  pose proof (corrected_cell_pos c). pose proof (corrected_cell_pos d).
  set (nE := corrected_cell a + corrected_cell b).
  set (nC := corrected_cell c + corrected_cell d).
  rewrite !div_fin by (unfold nE, nC; lra).
  cbn [Js.sub Js.neg Js.add Js.mul].
  rewrite !div_fin by (unfold nE, nC; lra).
  cbn [Js.add].
  assert (HpE : 0 < corrected_cell a / nE < 1)
    by (apply proportion_inside; unfold nE; lra).
  assert (HpC : 0 < corrected_cell c / nC < 1)
    by (apply proportion_inside; unfold nC; lra).
  pose proof (variance_term_pos _ nE HpE ltac:(unfold nE; lra)).
  pose proof (variance_term_pos _ nC HpC ltac:(unfold nC; lra)).
  rewrite sqrt_fin by lra.
  eexists. split; [|reflexivity]. apply sqrt_lt_R0. lra.
Qed.

Lemma se_ln_or_table :
  exists se,
    0 < se /\
    Js.sqrt (Js.add (Js.add (Js.add
      (Js.div (Js.Fin 1) (Values.a (corrected (table a b c d))))
      (Js.div (Js.Fin 1) (Values.b (corrected (table a b c d)))))
      (Js.div (Js.Fin 1) (Values.c (corrected (table a b c d)))))
      (Js.div (Js.Fin 1) (Values.d (corrected (table a b c d))))) = Js.Fin se.
Proof.
  rewrite corrected_table. cbn [Values.a Values.b Values.c Values.d].
  pose proof (corrected_cell_pos a) as Ha. pose proof (corrected_cell_pos b) as Hb.
  pose proof (corrected_cell_pos c) as Hc. pose proof (corrected_cell_pos d) as Hd.
  rewrite !div_fin by lra. cbn [Js.add].
  assert (forall x, 0 < x -> 0 < 1 / x) by (intros; apply Rdiv_lt_0_compat; lra).
  pose proof (H _ Ha). pose proof (H _ Hb). pose proof (H _ Hc). pose proof (H _ Hd).
  rewrite sqrt_fin by lra.
  eexists. split; [|reflexivity]. apply sqrt_lt_R0. lra.
Qed.

End StandardErrors.

(* ----------------------------------------------------------------- *)
(** *** Ranges and intervals *)

Section Intervals.

Local Open Scope R_scope.

Variables a b c d : N.
Variable studyDesign : StudyDesign.
Variable studyGoal : StudyGoal.

Local Abbreviation r := (newResults (table a b c d) studyDesign studyGoal).

Lemma log_fin x : 0 < x -> Js.log (Js.Fin x) = Js.Fin (ln x).
Proof.
  intros H. cbn.
  assert (E1 : Js.Rltb x 0 = false) by (apply Rltb_false; lra).
  assert (E2 : Js.Reqb x 0 = false) by (apply Reqb_false; lra).
  now rewrite E1, E2.
Qed.

Lemma risk_range x y : (0 < x + y)%N -> 0 <= risk x y <= 1.
Proof.
  intros H. apply count_pos in H. rewrite count_add in H.
  pose proof (count_nonneg x). pose proof (count_nonneg y).
  unfold risk. assert (E : count x / (count x + count y) * (count x + count y) = count x)
    by (field; lra).
  split.
  - unfold Rdiv. apply Rmult_le_pos; [lra|]. left. apply Rinv_0_lt_compat. lra.
  - assert (0 <= count x / (count x + count y)).
    { unfold Rdiv. apply Rmult_le_pos; [lra|]. left. apply Rinv_0_lt_compat. lra. }
    nra.
Qed.

(** X1.  On a table of fewer than 2^26 subjects with [b > 0] and [c > 0] the
    odds ratio, its two bounds and its Z statistic are finite, the interval
    contains the estimate strictly, with a positive lower bound, and the Z
    statistic is positive exactly when the estimate exceeds 1, zero exactly
    when it is 1. *)
Theorem odds_ratio_interval_brackets :
  moderate a b c d -> (0 < b)%N -> (0 < c)%N ->
  exists o v lo up z,
    oddsRatio (newResults (table a b c d) studyDesign studyGoal) = Some o /\
    Ratio.value o = Js.Fin v /\ Ratio.lower o = Js.Fin lo /\
    Ratio.upper o = Js.Fin up /\ Ratio.zStat o = Js.Fin z /\
    0 < lo < v /\ v < up /\
    (0 < z <-> 1 < v) /\ (z = 0 <-> v = 1).
Proof.
  intros _ Hb Hc. rewrite oddsRatio_any_design. unfold assignOddsRatio.
  pose proof (oddsRatio_guard_table a b c d) as G. cbv zeta in G. rewrite G.
  apply N.ltb_lt in Hb, Hc. rewrite Hb, Hc. cbn [andb]. cbv zeta.
  rewrite odds_ratio_table.
  set (v := corrected_cell a * corrected_cell d / (corrected_cell b * corrected_cell c)).
  assert (Hv : 0 < v).
  { pose proof (corrected_cell_pos a). pose proof (corrected_cell_pos b).
    pose proof (corrected_cell_pos c). pose proof (corrected_cell_pos d).
    apply Rdiv_lt_0_compat; nra. }
  rewrite (log_fin v Hv).
  destruct (se_ln_or_table a b c d) as (se & Hse & Ese). rewrite Ese.
  cbn [Js.mul Js.sub Js.neg Js.add Js.exp].
  rewrite div_fin by lra.
  eexists. exists v. eexists. eexists. eexists.
  split; [reflexivity|]. cbn [Ratio.value Ratio.lower Ratio.upper Ratio.zStat oddsRatio set_oddsRatio].
  repeat (split; [reflexivity|]).
  assert (Elo : exp (ln v + - (1.96 * se)) = v * exp (- (1.96 * se)))
    by (rewrite exp_plus, exp_ln by lra; reflexivity).
  assert (Eup : exp (ln v + 1.96 * se) = v * exp (1.96 * se))
    by (rewrite exp_plus, exp_ln by lra; reflexivity).
  rewrite Elo, Eup.
  assert (Hm : 0 < exp (- (1.96 * se)) < 1).
  { split; [apply exp_pos|]. rewrite <- exp_0. apply exp_increasing. lra. }
  assert (Hp : 1 < exp (1.96 * se)).
  { rewrite <- exp_0. apply exp_increasing. lra. }
  assert (Hinv : exp (- (1.96 * se)) * exp (1.96 * se) = 1).
  { rewrite <- exp_plus. replace (- (1.96 * se) + 1.96 * se) with 0 by lra. apply exp_0. }
  split; [split; nra|]. split; [nra|].
  assert (Hln1 : 1 < v -> 0 < ln v) by (intros; rewrite <- ln_1; apply ln_increasing; lra).
  assert (Hln2 : v < 1 -> ln v < 0) by (intros; rewrite <- ln_1; apply ln_increasing; lra).
  assert (Hln3 : v = 1 -> ln v = 0) by (intros ->; apply ln_1).
  assert (Hq : forall x, 0 < x -> 0 < x / se) by (intros; apply Rdiv_lt_0_compat; lra).
  assert (Hz : ln v / se * se = ln v) by (field; lra).
  split; split; intros H.
  - destruct (Rlt_le_dec 1 v) as [|Hle]; [assumption|]. exfalso.
    destruct Hle as [Hlt|Heq]; [specialize (Hln2 Hlt)|specialize (Hln3 Heq)]; nra.
  - specialize (Hln1 H). apply Hq. assumption.
  - destruct (Rtotal_order v 1) as [Hlt|[Heq|Hgt]]; [|assumption|]; exfalso.
    + specialize (Hln2 Hlt). rewrite H in Hz. lra.
    + specialize (Hln1 Hgt). rewrite H in Hz. lra.
  - rewrite (Hln3 H). unfold Rdiv. apply Rmult_0_l.
Qed.

End Intervals.

(* ----------------------------------------------------------------- *)
(** *** What the study goal changes *)

Section GoalIndependence.

Variable values : Values.t.
Variable studyDesign : StudyDesign.

Local Abbreviation r1 := (newResults values studyDesign desirable).
Local Abbreviation r2 := (newResults values studyDesign undesirable).

Local Abbreviation incidence := (has_incidence values studyDesign).

Lemma newResults_without_incidence studyGoal :
  incidence = false ->
  newResults values studyDesign studyGoal = assignOddsRatio values initialResults.
Proof.
  unfold has_incidence, newResults. cbv zeta.
  destruct (negb _); [|reflexivity].
  destruct (_ && _)%bool; [discriminate|reflexivity].
Qed.

Lemma incidence_guards :
  incidence = true ->
  studyDesign <> case_control /\
  Js.gt (exposedTotal values) (Js.Fin 0) = true /\
  Js.gt (controlTotal values) (Js.Fin 0) = true.
Proof.
  unfold has_incidence. intros H.
  apply andb_true_iff in H as [Hd Ht]. apply andb_true_iff in Ht as [He Hc].
  repeat split; try assumption. intros ->. discriminate.
Qed.

(** X2.  The goal never changes a number: every field that carries no label is
    the same for both goals, the impact measures have the same two values,
    and the NNT record the same value and bounds.  Only the labels and the
    Benefit/Harm tag depend on it. *)
Theorem goal_changes_labels_only :
  absoluteRiskExposed (newResults values studyDesign desirable)
  = absoluteRiskExposed (newResults values studyDesign undesirable) /\
  absoluteRiskControl r1 = absoluteRiskControl r2 /\
  riskDifference r1 = riskDifference r2 /\
  relativeRisk r1 = relativeRisk r2 /\
  oddsRatio r1 = oddsRatio r2 /\
  power r1 = power r2 /\
  type1Error r1 = type1Error r2 /\
  type2Error r1 = type2Error r2 /\
  option_map (fun m => (Impact.value (Impact.absolute m),
                        Impact.value (Impact.relative m))) (impactMeasures r1) =
  option_map (fun m => (Impact.value (Impact.absolute m),
                        Impact.value (Impact.relative m))) (impactMeasures r2) /\
  option_map (fun n => (Nnt.value n, Nnt.lower n, Nnt.upper n)) (nnt r1) =
  option_map (fun n => (Nnt.value n, Nnt.lower n, Nnt.upper n)) (nnt r2).
Proof.
  destruct incidence eqn:Hinc.
  - destruct (incidence_guards Hinc) as (Hd & He & Hc).
    destruct (absoluteRisk_incidence values studyDesign desirable Hd He Hc) as [A1 B1].
    destruct (absoluteRisk_incidence values studyDesign undesirable Hd He Hc) as [A2 B2].
    destruct (power_incidence values studyDesign desirable Hd He Hc) as (P1 & Q1 & R1).
    destruct (power_incidence values studyDesign undesirable Hd He Hc) as (P2 & Q2 & R2).
    rewrite A1, A2, B1, B2, P1, P2, Q1, Q2, R1, R2.
    rewrite !(riskDifference_incidence values studyDesign _ Hd He Hc).
    rewrite !(relativeRisk_incidence values studyDesign _ Hd He Hc).
    rewrite !(impactMeasures_incidence values studyDesign _ Hd He Hc).
    rewrite !(nnt_incidence values studyDesign _ Hd He Hc).
    rewrite !oddsRatio_any_design.
    repeat (split; [reflexivity|]).
    unfold assignImpactMeasures, assignNnt. cbn [StudyGoal_eqb].
    split.
    + destruct (_ && _)%bool; [|reflexivity].
      destruct (Js.gt (rd values) (Js.Fin 0)); reflexivity.
    + destruct (Js.ne (rd values) (Js.Fin 0)); reflexivity.
  - rewrite !(newResults_without_incidence _ Hinc). repeat split.
Qed.

End GoalIndependence.

(* ----------------------------------------------------------------- *)
(** *** Ranges of the incidence metrics *)

Section IncidenceRanges.

Local Open Scope R_scope.

Variables a b c d : N.
Variable studyDesign : StudyDesign.
Variable studyGoal : StudyGoal.

Hypothesis design_ok : studyDesign <> case_control.
Hypothesis exposed_pos : (0 < a + b)%N.
Hypothesis control_pos : (0 < c + d)%N.

Local Abbreviation r := (newResults (table a b c d) studyDesign studyGoal).

Let exposed_ok := proj2 (exposedTotal_pos a b c d) exposed_pos.
Let control_ok := proj2 (controlTotal_pos a b c d) control_pos.

(** X3.  On a table of fewer than 2^26 subjects the risks are proportions, so
    the risk difference is between -1 and 1 and a reported NNT/NNH is a
    finite number, never below 1. *)
Theorem risks_are_proportions_nnt_at_least_one :
  moderate a b c d ->
  exists pe pc,
    absoluteRiskExposed (newResults (table a b c d) studyDesign studyGoal)
    = Some (Point.make (Js.Fin pe)) /\
    absoluteRiskControl r = Some (Point.make (Js.Fin pc)) /\
    0 <= pe <= 1 /\ 0 <= pc <= 1 /\
    (exists ci, riskDifference r = Some ci /\ Interval.value ci = Js.Fin (pe - pc)) /\
    -1 <= pe - pc <= 1 /\
    (forall n, nnt r = Some n -> exists v, Nnt.value n = Js.Fin v /\ 1 <= v).
Proof.
  intros _. exists (risk a b), (risk c d).
  destruct (absoluteRisk_incidence _ _ studyGoal design_ok exposed_ok control_ok)
    as (He & Hc).
  rewrite He, Hc.
  rewrite (riskExposed_table a b c d exposed_pos).
  rewrite (riskControl_table a b c d control_pos).
  pose proof (risk_range a b exposed_pos) as Re.
  pose proof (risk_range c d control_pos) as Rc.
  repeat (split; [reflexivity || lra|]).
  split.
  { rewrite (riskDifference_incidence _ _ studyGoal design_ok exposed_ok control_ok).
    eexists. split; [reflexivity|]. unfold riskInterval. cbn [Interval.value].
    apply rd_table; assumption. }
  split; [lra|].
  intros n. rewrite (nnt_incidence _ _ studyGoal design_ok exposed_ok control_ok).
  unfold assignNnt. rewrite (rd_table a b c d exposed_pos control_pos).
  set (rdv := risk a b - risk c d).
  destruct (Js.ne (Js.Fin rdv) (Js.Fin 0)) eqn:E; [|discriminate].
  assert (Hnz : rdv <> 0).
  { intros Hz. cbn in E. apply negb_true_iff, Reqb_false in E. contradiction. }
  pose proof (Rabs_pos_lt rdv Hnz) as Hpos.
  assert (Hle : Rabs rdv <= 1) by (apply Rabs_le; unfold rdv; lra).
  change (Js.abs (Js.Fin rdv)) with (Js.Fin (Rabs rdv)).
  rewrite (div_fin 1 (Rabs rdv)) by lra.
  intros [= <-]. eexists. split; [reflexivity|].
  assert (Eq : 1 / Rabs rdv * Rabs rdv = 1) by (field; lra).
  assert (0 < 1 / Rabs rdv) by (apply Rdiv_lt_0_compat; lra).
  nra.
Qed.

(** X4.  On a table of fewer than 2^26 subjects the interval of the risk
    difference has finite bounds and contains the estimate strictly, zero
    cells included: the standard error is computed from the corrected cells
    and is not zero. *)
Theorem risk_difference_interval_brackets :
  moderate a b c d ->
  exists ci v lo up,
    riskDifference (newResults (table a b c d) studyDesign studyGoal) = Some ci /\
    Interval.value ci = Js.Fin v /\ Interval.lower ci = Js.Fin lo /\
    Interval.upper ci = Js.Fin up /\
    lo < v < up.
Proof.
  intros _. rewrite (riskDifference_incidence _ _ studyGoal design_ok exposed_ok control_ok).
  unfold riskInterval.
  rewrite (rd_table a b c d exposed_pos control_pos).
  destruct (se_rd_table a b c d) as (se & Hse & Ese). rewrite Ese.
  cbn [Js.mul Js.sub Js.neg Js.add].
  eexists. eexists. eexists. eexists.
  split; [reflexivity|]. cbn [Interval.value Interval.lower Interval.upper].
  repeat (split; [reflexivity|]). split; lra.
Qed.

End IncidenceRanges.

(* ----------------------------------------------------------------- *)
(** *** When power is reported *)

Section PowerPresence.

Local Open Scope R_scope.

Variables a b c d : N.
Variable studyDesign : StudyDesign.
Variable studyGoal : StudyGoal.

Hypothesis design_ok : studyDesign <> case_control.
Hypothesis exposed_pos : (0 < a + b)%N.
Hypothesis control_pos : (0 < c + d)%N.

Local Abbreviation t := (table a b c d).
Local Abbreviation r := (newResults (table a b c d) studyDesign studyGoal).

Let exposed_ok := proj2 (exposedTotal_pos a b c d) exposed_pos.
Let control_ok := proj2 (controlTotal_pos a b c d) control_pos.

Lemma risk_zero x y : (0 < x + y)%N -> (risk x y = 0 <-> x = 0%N).
Proof.
  intros H. apply count_pos in H. rewrite count_add in H.
  pose proof (count_nonneg x). pose proof (count_nonneg y).
  rewrite <- count_zero. unfold risk. split; intros E.
  - assert (Eq : count x / (count x + count y) * (count x + count y) = count x)
      by (field; lra).
    rewrite E in Eq. lra.
  - rewrite E. unfold Rdiv. apply Rmult_0_l.
Qed.

Lemma risk_one x y : (0 < x + y)%N -> (risk x y = 1 <-> y = 0%N).
Proof.
  intros H. apply count_pos in H. rewrite count_add in H.
  pose proof (count_nonneg x). pose proof (count_nonneg y).
  rewrite <- count_zero. unfold risk. split; intros E.
  - assert (Eq : count x / (count x + count y) * (count x + count y) = count x)
      by (field; lra).
    rewrite E in Eq. lra.
  - rewrite E, Rplus_0_r. unfold Rdiv. apply Rinv_r. lra.
Qed.

(** The test on the pooled proportion succeeds when the risks differ. *)
Lemma p_pooled_guard :
  risk a b <> risk c d ->
  (Js.gt (p_pooled t) (Js.Fin 0) && Js.lt (p_pooled t) (Js.Fin 1))%bool = true.
Proof.
  intros Hne.
  pose proof (count_nonneg a) as Ha. pose proof (count_nonneg b) as Hb.
  pose proof (count_nonneg c) as Hc. pose proof (count_nonneg d) as Hd.
  pose proof (count_pos _ exposed_pos) as Hab. rewrite count_add in Hab.
  pose proof (count_pos _ control_pos) as Hcd. rewrite count_add in Hcd.
  assert (Hnum : 0 < count a + count c).
  { destruct (Rle_lt_dec (count a + count c) 0) as [Hz|]; [|assumption].
    exfalso. apply Hne.
    assert (a = 0%N) by (apply count_zero; lra).
    assert (c = 0%N) by (apply count_zero; lra).
    rewrite (proj2 (risk_zero a b exposed_pos)), (proj2 (risk_zero c d control_pos));
      auto. }
  assert (Hden : count a + count c < count a + count b + (count c + count d)).
  { destruct (Rle_lt_dec (count b + count d) 0) as [Hz|]; [|lra].
    exfalso. apply Hne.
    assert (b = 0%N) by (apply count_zero; lra).
    assert (d = 0%N) by (apply count_zero; lra).
    rewrite (proj2 (risk_one a b exposed_pos)), (proj2 (risk_one c d control_pos));
      auto. }
  pose proof (proportion_inside _ _ Hnum Hden) as Hpp.
  unfold p_pooled. rewrite exposedTotal_table, controlTotal_table.
  cbn [table Values.a Values.c Js.add]. rewrite div_fin by lra.
  cbn [Js.gt Js.lt]. apply andb_true_iff. split; apply Rltb_true; lra.
Qed.

(** The variance under the alternative, as a real. *)
Lemma se_alt_variance_table :
  se_alt_variance t =
  Js.Fin (risk a b * (1 + - risk a b) / (count a + count b)
          + risk c d * (1 + - risk c d) / (count c + count d)).
Proof.
  unfold se_alt_variance.
  rewrite (riskExposed_table a b c d exposed_pos).
  rewrite (riskControl_table a b c d control_pos).
  rewrite exposedTotal_table, controlTotal_table.
  pose proof (count_pos _ exposed_pos) as Hab. rewrite count_add in Hab.
  pose proof (count_pos _ control_pos) as Hcd. rewrite count_add in Hcd.
  cbn [Js.sub Js.neg Js.add Js.mul]. rewrite !div_fin by lra. reflexivity.
Qed.

(** X5.  On a table of fewer than 2^26 subjects power is missing exactly when
    the table is perfectly separated: every exposed subject has the outcome
    and no control has it, or the reverse. *)
Theorem power_missing_iff_separated :
  moderate a b c d ->
  (power (newResults (table a b c d) studyDesign studyGoal) = None
   <-> (a = 0%N /\ d = 0%N) \/ (b = 0%N /\ c = 0%N)) /\
  (type2Error r = None <-> power r = None) /\
  type1Error r = Some (Point.make (Js.Fin 0.05)).
Proof.
  intros _.
  destruct (power_incidence _ _ studyGoal design_ok exposed_ok control_ok)
    as (Hp & H1 & H2).
  rewrite Hp, H1, H2. unfold assignPower.
  rewrite (riskExposed_table a b c d exposed_pos).
  rewrite (riskControl_table a b c d control_pos).
  pose proof (risk_range a b exposed_pos) as Re.
  pose proof (risk_range c d control_pos) as Rc.
  pose proof (count_pos _ exposed_pos) as Hab. rewrite count_add in Hab.
  pose proof (count_pos _ control_pos) as Hcd. rewrite count_add in Hcd.
  destruct (Req_dec_T (risk a b) (risk c d)) as [Heq|Hne].
  - (* equal risks: power is alpha *)
    assert (E : Js.ne (Js.Fin (risk a b)) (Js.Fin (risk c d)) = false).
    { cbn. apply negb_false_iff, Reqb_true. exact Heq. }
    rewrite E. cbn [power type1Error type2Error set_power set_type1Error set_type2Error].
    split; [|split; [split; discriminate|reflexivity]].
    split; [discriminate|]. intros [[Ha Hd]|[Hb Hc]]; exfalso.
    + apply (risk_zero a b exposed_pos) in Ha. apply (risk_one c d control_pos) in Hd. lra.
    + apply (risk_one a b exposed_pos) in Hb. apply (risk_zero c d control_pos) in Hc. lra.
  - assert (E : Js.ne (Js.Fin (risk a b)) (Js.Fin (risk c d)) = true).
    { cbn. apply negb_true_iff, Reqb_false. exact Hne. }
    rewrite E, (p_pooled_guard Hne), se_alt_variance_table.
    set (ve := risk a b * (1 + - risk a b) / (count a + count b)).
    set (vc := risk c d * (1 + - risk c d) / (count c + count d)).
    assert (Hve : 0 <= ve).
    { unfold ve, Rdiv. apply Rmult_le_pos; [nra|]. left. apply Rinv_0_lt_compat. lra. }
    assert (Hvc : 0 <= vc).
    { unfold vc, Rdiv. apply Rmult_le_pos; [nra|]. left. apply Rinv_0_lt_compat. lra. }
    assert (Zve : ve = 0 <-> risk a b = 0 \/ risk a b = 1).
    { unfold ve. split.
      - intros Z.
        assert (Eq : risk a b * (1 + - risk a b) / (count a + count b)
                     * (count a + count b) = risk a b * (1 + - risk a b))
          by (field; lra).
        rewrite Z in Eq. assert (risk a b * (1 + - risk a b) = 0) by lra.
        destruct (Rmult_integral _ _ H); [left|right]; lra.
      - intros [Z|Z]; rewrite Z; unfold Rdiv; ring. }
    assert (Zvc : vc = 0 <-> risk c d = 0 \/ risk c d = 1).
    { unfold vc. split.
      - intros Z.
        assert (Eq : risk c d * (1 + - risk c d) / (count c + count d)
                     * (count c + count d) = risk c d * (1 + - risk c d))
          by (field; lra).
        rewrite Z in Eq. assert (risk c d * (1 + - risk c d) = 0) by lra.
        destruct (Rmult_integral _ _ H); [left|right]; lra.
      - intros [Z|Z]; rewrite Z; unfold Rdiv; ring. }
    assert (Sep : ve + vc <= 0 <-> (a = 0%N /\ d = 0%N) \/ (b = 0%N /\ c = 0%N)).
    { rewrite <- (risk_zero a b exposed_pos), <- (risk_one a b exposed_pos).
      rewrite <- (risk_zero c d control_pos), <- (risk_one c d control_pos).
      split.
      - intros Hz. assert (ve = 0) by lra. assert (vc = 0) by lra.
        apply Zve in H. apply Zvc in H0.
        destruct H as [A|A], H0 as [B|B]; try tauto; exfalso; apply Hne; lra.
      - intros [[A B]|[A B]].
        + rewrite (proj2 Zve (or_introl A)), (proj2 Zvc (or_intror B)). lra.
        + rewrite (proj2 Zve (or_intror A)), (proj2 Zvc (or_introl B)). lra. }
    cbn [Js.gt Js.lt]. unfold Js.Rltb.
    destruct (Rlt_dec 0 (ve + vc)) as [Hpos|Hnpos];
      cbn [power type1Error type2Error set_power set_type1Error set_type2Error].
    + split; [|split; [split; discriminate|reflexivity]].
      split; [discriminate|]. intros H. apply Sep in H. lra.
    + split; [|split; [tauto|reflexivity]].
      split; [|reflexivity]. intros _. apply Sep. lra.
Qed.

End PowerPresence.

(* ----------------------------------------------------------------- *)
(** *** Monotonicity of the normal approximation *)

Section Monotonicity.

Local Open Scope R_scope.

(** The polynomial of the approximation increases on [0, 1]. *)
Lemma polynomial_increasing s t :
  0 <= s -> s <= t -> t <= 1 ->
  (((((1.061405429 * s + -1.453152027) * s) + 1.421413741) * s
    + -0.284496736) * s + 0.254829592) * s
  <= (((((1.061405429 * t + -1.453152027) * t) + 1.421413741) * t
       + -0.284496736) * t + 0.254829592) * t.
Proof.
  intros H0 Hst H1.
  set (Gs := (((((1.061405429 * s + -1.453152027) * s) + 1.421413741) * s
               + -0.284496736) * s + 0.254829592) * s).
  set (Gt := (((((1.061405429 * t + -1.453152027) * t) + 1.421413741) * t
               + -0.284496736) * t + 0.254829592) * t).
  set (sg := s + t). set (m := s * t).
  set (K := 1.421413741 + 2 * -1.453152027 * sg + 3 * 1.061405429 * sg ^ 2
            - 1.061405429 * (m + sg ^ 2 / 4)).
  set (u := sg / 2).
  set (Hd := 0.254829592 + 2 * -0.284496736 * u + 3 * 1.421413741 * u ^ 2
             + 4 * -1.453152027 * u ^ 3 + 5 * 1.061405429 * u ^ 4).
  assert (E : Gt - Gs = (t - s) * (Hd + (sg ^ 2 / 4 - m) * K)).
  { unfold Gt, Gs, Hd, K, u, sg, m. lra. }
  assert (Hu : 0 <= u <= 1) by (unfold u, sg; lra).
  assert (Hm : 0 <= sg ^ 2 / 4 - m).
  { unfold sg, m. pose proof (pow2_ge_0 (s - t)). nra. }
  assert (Hm2 : 0 <= m) by (unfold m; nra).
  assert (HK : 0 <= K).
  { unfold K. pose proof (pow2_ge_0 (sg - 0.5477)).
    assert (m + sg ^ 2 / 4 <= sg ^ 2 / 2) by lra. nra. }
  assert (HHd : 0 <= Hd).
  { unfold Hd.
    set (Q := 3 * 1.421413741 + 4 * -1.453152027 * u + 5 * 1.061405429 * u ^ 2).
    assert (HQ : 2.6 <= Q).
    { unfold Q. pose proof (pow2_ge_0 (u - 0.5476)). nra. }
    assert (Eq : 0.254829592 + 2 * -0.284496736 * u + 3 * 1.421413741 * u ^ 2
             + 4 * -1.453152027 * u ^ 3 + 5 * 1.061405429 * u ^ 4
             = 0.254829592 + 2 * -0.284496736 * u + Q * u ^ 2) by (unfold Q; lra).
    rewrite Eq. pose proof (pow2_ge_0 (u - 0.11)).
    assert (0 <= u ^ 2) by nra.
    assert (2.6 * u ^ 2 <= Q * u ^ 2) by nra. nra. }
  assert (0 <= (sg ^ 2 / 4 - m) * K) by (apply Rmult_le_pos; assumption).
  assert (0 <= (t - s) * (Hd + (sg ^ 2 / 4 - m) * K)) by (apply Rmult_le_pos; lra).
  lra.
Qed.

(** On non-negative arguments the approximation of erf increases. *)
Lemma erf_approx_increasing y z :
  0 <= y -> y <= z -> erf_approx y <= erf_approx z.
Proof.
  intros Hy Hyz. unfold erf_approx. cbv zeta.
  rewrite !Rabs_right by lra.
  set (Dy := 1.0 + 0.3275911 * y). set (Dz := 1.0 + 0.3275911 * z).
  assert (HDy : 1 <= Dy) by (unfold Dy; nra).
  assert (HDz : Dy <= Dz) by (unfold Dy, Dz; nra).
  set (ty := 1.0 / Dy). set (tz := 1.0 / Dz).
  assert (Ey : ty * Dy = 1)
    by (unfold ty, Rdiv; rewrite Rmult_assoc, Rinv_l by lra; lra).
  assert (Ez : tz * Dz = 1)
    by (unfold tz, Rdiv; rewrite Rmult_assoc, Rinv_l by lra; lra).
  assert (Pty : 0 < ty) by (unfold ty; apply Rdiv_lt_0_compat; lra).
  assert (Ptz : 0 < tz) by (unfold tz; apply Rdiv_lt_0_compat; lra).
  assert (Hty : ty <= 1) by nra.
  assert (Htz : tz <= ty).
  { destruct (Rle_lt_dec tz ty); [assumption|]. exfalso. nra. }
  pose proof (polynomial_increasing tz ty (Rlt_le _ _ Ptz) Htz Hty) as Hg.
  pose proof (polynomial_bounds tz (conj (Rlt_le _ _ Ptz) (Rle_trans _ _ _ Htz Hty)))
    as [Hg0 _].
  set (gy := (((((1.061405429 * ty + -1.453152027) * ty) + 1.421413741) * ty
               + -0.284496736) * ty + 0.254829592) * ty) in *.
  set (gz := (((((1.061405429 * tz + -1.453152027) * tz) + 1.421413741) * tz
               + -0.284496736) * tz + 0.254829592) * tz) in *.
  assert (He : 0 < exp (- z * z) <= exp (- y * y)).
  { split; [apply exp_pos|].
    destruct (Req_dec_T (- z * z) (- y * y)) as [->|Hne]; [lra|].
    left. apply exp_increasing. nra. }
  nra.
Qed.

Lemma cdf_increasing x y : x <= y -> cdf x <= cdf y.
Proof.
  intros Hxy. unfold cdf. cbv zeta. pose proof sqrt2_pos as H2.
  set (zx := x / sqrt 2). set (zy := y / sqrt 2).
  assert (Hz : zx <= zy).
  { unfold zx, zy, Rdiv. apply Rmult_le_compat_r; [|assumption].
    left. apply Rinv_0_lt_compat. assumption. }
  pose proof (erf_approx_bounds zx) as Bx. pose proof (erf_approx_bounds zy) as By.
  destruct (Rle_dec 0 zx) as [Px|Nx]; destruct (Rle_dec 0 zy) as [Py|Ny]; try lra.
  - pose proof (erf_approx_increasing zx zy Px Hz). lra.
  - rewrite <- (erf_approx_even zx), <- (erf_approx_even zy).
    assert (erf_approx (- zy) <= erf_approx (- zx))
      by (apply erf_approx_increasing; lra).
    lra.
Qed.

End Monotonicity.

(* ----------------------------------------------------------------- *)
(** *** The distribution function on every number *)

Section NormalRange.

Local Open Scope R_scope.

Lemma normalCDF_PosInf : normalCDF Js.PosInf = Js.Fin 1.
Proof.
  unfold normalCDF. cbv zeta. pose proof sqrt2_pos as H2.
  rewrite sqrt_fin by lra. cbn [Js.div Js.abs].
  unfold Js.inf_of_sign.
  assert (S : Js.Rltb (sqrt 2) 0 = false) by (apply Rltb_false; lra).
  rewrite S. cbn [Js.abs Js.mul].
  assert (P : Js.Reqb 0.3275911 0 = false) by (apply Reqb_false; lra).
  assert (Q : Js.Rltb 0.3275911 0 = false) by (apply Rltb_false; lra).
  rewrite P. unfold Js.inf_of_sign. rewrite Q.
  cbn. f_equal. lra.
Qed.

Lemma normalCDF_NegInf : normalCDF Js.NegInf = Js.Fin 0.
Proof.
  unfold normalCDF. cbv zeta. pose proof sqrt2_pos as H2.
  rewrite sqrt_fin by lra. cbn [Js.div Js.abs].
  unfold Js.inf_of_sign.
  assert (S : Js.Rltb (sqrt 2) 0 = false) by (apply Rltb_false; lra).
  rewrite S. cbn [Js.abs Js.mul Js.neg].
  assert (P : Js.Reqb 0.3275911 0 = false) by (apply Reqb_false; lra).
  assert (Q : Js.Rltb 0.3275911 0 = false) by (apply Rltb_false; lra).
  rewrite P. unfold Js.inf_of_sign. rewrite Q.
  cbn. f_equal. lra.
Qed.

(** [normalCDF] on a number that is not NaN. *)
Lemma normalCDF_value x :
  Js.isNaN x = false ->
  exists p, normalCDF x = Js.Fin p /\ 0 <= p <= 1 /\
            (x = Js.PosInf -> p = 1) /\ (x = Js.NegInf -> p = 0) /\
            (forall r, x = Js.Fin r -> p = cdf r).
Proof.
  destruct x as [r| | |]; intros H; try discriminate.
  - exists (cdf r). rewrite normalCDF_fin. pose proof (cdf_bounds r).
    repeat split; try lra; try discriminate. now intros ? [= ->].
  - exists 1. rewrite normalCDF_PosInf.
    repeat split; try lra; try discriminate.
  - exists 0. rewrite normalCDF_NegInf.
    repeat split; try lra; try discriminate.
Qed.

(** [normalCDF] preserves the order of its arguments. *)
Lemma normalCDF_le x y :
  Js.le x y = true ->
  exists p q, normalCDF x = Js.Fin p /\ normalCDF y = Js.Fin q /\
              0 <= p /\ p <= q /\ q <= 1.
Proof.
  intros H.
  destruct x as [rx| | |], y as [ry| | |]; try discriminate;
    rewrite ?normalCDF_fin, ?normalCDF_PosInf, ?normalCDF_NegInf;
    eexists; eexists; (split; [reflexivity|]); (split; [reflexivity|]).
  - cbn in H. apply Rleb_true in H.
    pose proof (cdf_bounds rx). pose proof (cdf_bounds ry).
    pose proof (cdf_increasing rx ry H). lra.
  - pose proof (cdf_bounds rx). lra.
  - lra.
  - pose proof (cdf_bounds ry). lra.
  - lra.
  - lra.
Qed.

End NormalRange.

Section NormalOrder.

Local Open Scope R_scope.
Local Open Scope string_scope.

(** X6.  [normalCDF] behaves as a distribution function on all of JavaScript's
    ordered numbers: its values lie between 0 and 1, it is 0 at [-Infinity]
    and 1 at [Infinity], and from a number to a larger one it does not
    decrease by more than 1e-9.  In exact arithmetic it does not decrease at
    all; in binary64 two neighbouring doubles can come out in the wrong
    order by a unit in the last place, which the margin covers. *)
Theorem normalCDF_order_and_range (x y : Js.number) :
  Js.le x y = true ->
  exists p q,
    normalCDF x = Js.Fin p /\ normalCDF y = Js.Fin q /\
    0 <= p <= 1 /\ 0 <= q <= 1 /\ p <= q + 0.000000001 /\
    (x = Js.NegInf -> p = 0) /\ (y = Js.PosInf -> q = 1).
Proof.
  intros H. destruct (normalCDF_le x y H) as (p & q & Ep & Eq & H0 & Hpq & H1).
  exists p, q. split; [assumption|]. split; [assumption|].
  split; [lra|]. split; [lra|]. split; [lra|]. split.
  - intros ->. rewrite normalCDF_NegInf in Ep. now injection Ep as <-.
  - intros ->. rewrite normalCDF_PosInf in Eq. now injection Eq as <-.
Qed.

(** X7.  A Z statistic further from zero never has a larger p-value: once a
    statistic is reported as ["<0.0001"], so is every statistic of greater
    magnitude. *)
Theorem p_value_floor_is_upward_closed (z1 z2 : Js.number) :
  Js.le (Js.abs z1) (Js.abs z2) = true ->
  calculatePValueFromZ z1 = "<0.0001" ->
  calculatePValueFromZ z2 = "<0.0001".
Proof.
  intros Hle. unfold calculatePValueFromZ. cbv zeta.
  destruct (normalCDF_le _ _ Hle) as (p & q & Ep & Eq & H0 & Hpq & H1).
  rewrite Ep, Eq. cbn [Js.sub Js.neg Js.add Js.mul Js.lt].
  destruct (Js.Rltb (2 * (1 + - p)) 0.0001) eqn:E1.
  - intros _. apply Rltb_true in E1.
    assert (E2 : Js.Rltb (2 * (1 + - q)) 0.0001 = true) by (apply Rltb_true; lra).
    now rewrite E2.
  - intros H. now apply toFixed_not_below in H.
Qed.

End NormalOrder.

(* ----------------------------------------------------------------- *)
(** *** The range of the reported power *)

Section PowerRange.

Local Open Scope R_scope.

Variables a b c d : N.
Variable studyDesign : StudyDesign.
Variable studyGoal : StudyGoal.

Hypothesis design_ok : studyDesign <> case_control.
Hypothesis exposed_pos : (0 < a + b)%N.
Hypothesis control_pos : (0 < c + d)%N.

Local Abbreviation t := (table a b c d).
Local Abbreviation r := (newResults (table a b c d) studyDesign studyGoal).

Let exposed_ok := proj2 (exposedTotal_pos a b c d) exposed_pos.
Let control_ok := proj2 (controlTotal_pos a b c d) control_pos.

(** The three outcomes of the power block on a table. *)
Lemma assignPower_equal :
  risk a b = risk c d ->
  assignPower t initialResults
  = set_type2Error (Some (Point.make (Js.Fin (1 - 0.05))))
      (set_type1Error (Some (Point.make (Js.Fin 0.05)))
         (set_power (Some (Point.make (Js.Fin 0.05))) initialResults)).
Proof.
  intros Heq. unfold assignPower.
  rewrite (riskExposed_table a b c d exposed_pos).
  rewrite (riskControl_table a b c d control_pos).
  assert (E : Js.ne (Js.Fin (risk a b)) (Js.Fin (risk c d)) = false).
  { cbn. apply negb_false_iff, Reqb_true. exact Heq. }
  rewrite E. reflexivity.
Qed.

Lemma assignPower_differ :
  risk a b <> risk c d ->
  (exists zl zu,
     zl <= zu /\
     assignPower t initialResults
     = set_type2Error
         (Some (Point.make (Js.Fin (1 - (1 + - cdf zu + cdf zl)))))
         (set_type1Error (Some (Point.make (Js.Fin 0.05)))
            (set_power (Some (Point.make (Js.Fin (1 + - cdf zu + cdf zl))))
               initialResults)))
  \/ assignPower t initialResults
     = set_type2Error None
         (set_type1Error (Some (Point.make (Js.Fin 0.05)))
            (set_power None initialResults)).
Proof.
  intros Hne. unfold assignPower.
  rewrite (riskExposed_table a b c d exposed_pos).
  rewrite (riskControl_table a b c d control_pos).
  pose proof (count_pos _ exposed_pos) as Hab. rewrite count_add in Hab.
  pose proof (count_pos _ control_pos) as Hcd. rewrite count_add in Hcd.
  assert (E : Js.ne (Js.Fin (risk a b)) (Js.Fin (risk c d)) = true).
  { cbn. apply negb_true_iff, Reqb_false. exact Hne. }
  rewrite E.
  pose proof (p_pooled_guard a b c d exposed_pos control_pos Hne) as G.
  rewrite G.
  rewrite (se_alt_variance_table a b c d exposed_pos control_pos).
  set (var := risk a b * (1 + - risk a b) / (count a + count b)
              + risk c d * (1 + - risk c d) / (count c + count d)).
  cbn [Js.gt Js.lt].
  destruct (Js.Rltb 0 var) eqn:Hpos; [left|right; reflexivity].
  apply Rltb_true in Hpos.
  (* the pooled proportion and the two standard errors *)
  revert G. unfold p_pooled. rewrite exposedTotal_table, controlTotal_table.
  cbn [table Values.a Values.c Js.add]. rewrite div_fin by lra.
  set (pp := (count a + count c) / (count a + count b + (count c + count d))).
  cbn [Js.gt Js.lt]. intros G. apply andb_true_iff in G as [G0 G1].
  apply Rltb_true in G0, G1.
  cbn [Js.sub Js.neg Js.add Js.mul]. rewrite !div_fin by lra.
  cbn [Js.add Js.mul].
  assert (Hinv : forall x, 0 < x -> 0 < 1 / x)
    by (intros; apply Rdiv_lt_0_compat; lra).
  pose proof (Hinv _ Hab). pose proof (Hinv _ Hcd).
  assert (Hnull : 0 <= pp * (1 + - pp)
                       * (1 / (count a + count b) + 1 / (count c + count d)))
    by (apply Rmult_le_pos; nra).
  rewrite sqrt_fin by lra. rewrite (sqrt_fin var) by lra.
  set (se_null := sqrt (pp * (1 + - pp)
                        * (1 / (count a + count b) + 1 / (count c + count d)))).
  assert (Hsn : 0 <= se_null) by apply sqrt_pos.
  assert (Hsa : 0 < sqrt var) by (apply sqrt_lt_R0; assumption).
  unfold z_alpha_half. cbn [Js.sub Js.neg Js.add Js.mul].
  rewrite !div_fin by lra.
  set (zu := (1.96 * se_null + - (risk a b + - risk c d)) / sqrt var).
  set (zl := (- (1.96 * se_null) + - (risk a b + - risk c d)) / sqrt var).
  assert (Hz : zl <= zu).
  { unfold zl, zu, Rdiv. apply Rmult_le_compat_r.
    - left. apply Rinv_0_lt_compat. assumption.
    - lra. }
  rewrite !normalCDF_fin. cbn [Js.sub Js.neg Js.add Js.mul].
  exists zl, zu. split; [exact Hz|reflexivity].
Qed.

(** X8.  A reported power is a probability, and the type II error reported with
    it is its complement: the two tail areas are taken at
    [z_for_lower_tail <= z_for_upper_tail] and [normalCDF] never decreases. *)
Theorem power_is_a_probability :
  (power (newResults (table a b c d) studyDesign studyGoal) = None
   /\ type2Error r = None) \/
  exists v,
    0 <= v <= 1 /\
    power r = Some (Point.make (Js.Fin v)) /\
    type2Error r = Some (Point.make (Js.Fin (1 - v))).
Proof.
  destruct (power_incidence _ _ studyGoal design_ok exposed_ok control_ok)
    as (Hp & _ & H2).
  rewrite Hp, H2.
  destruct (Req_dec_T (risk a b) (risk c d)) as [Heq|Hne].
  - rewrite (assignPower_equal Heq). right. exists 0.05.
    split; [lra|]. split; reflexivity.
  - destruct (assignPower_differ Hne) as [(zl & zu & Hz & ->)| ->].
    + pose proof (cdf_bounds zu). pose proof (cdf_bounds zl).
      pose proof (cdf_increasing zl zu Hz).
      right. exists (1 + - cdf zu + cdf zl).
      split; [lra|]. split; reflexivity.
    + left. split; reflexivity.
Qed.

End PowerRange.

(* ----------------------------------------------------------------- *)
(** *** Required sample size *)

Section SampleSizeProperties.

Local Open Scope R_scope.

Lemma add_comm x y : Js.add x y = Js.add y x.
Proof. destruct x, y; cbn; try reflexivity. f_equal. apply Rplus_comm. Qed.

Lemma eq_sym_js x y : Js.eq x y = Js.eq y x.
Proof.
  destruct x as [p| | |], y as [q| | |]; cbn; try reflexivity.
  unfold Js.Reqb. destruct (Req_dec_T p q), (Req_dec_T q p); congruence.
Qed.

Lemma mul_1_r x : Js.mul x (Js.Fin 1) = x.
Proof.
  assert (E : Js.Reqb 1 0 = false) by (apply Reqb_false; lra).
  assert (P : Js.Rltb 1 0 = false) by (apply Rltb_false; lra).
  assert (Q : Js.Rltb (- (1)) 0 = true) by (apply Rltb_true; lra).
  destruct x; cbn; unfold Js.inf_of_sign; rewrite ?E, ?P, ?Q; try reflexivity.
  f_equal. apply Rmult_1_r.
Qed.

Lemma pow_2 x : Js.pow x 2 = Js.mul x x.
Proof. cbn [Js.pow]. now rewrite mul_1_r. Qed.

Lemma neg_sub x y : Js.neg (Js.sub x y) = Js.sub y x.
Proof.
  destruct x, y; cbn; try reflexivity. f_equal. lra.
Qed.

Lemma mul_neg_neg z : Js.mul (Js.neg z) (Js.neg z) = Js.mul z z.
Proof. destruct z; cbn; try reflexivity. f_equal. ring. Qed.

Lemma pow_2_sub x y : Js.pow (Js.sub x y) 2 = Js.pow (Js.sub y x) 2.
Proof. now rewrite !pow_2, <- (neg_sub x y), mul_neg_neg. Qed.

(** The square of the difference of two numbers that are neither equal nor
    NaN is not zero. *)
Lemma pow_2_sub_nonzero x y :
  (Js.eq x y || Js.isNaN x || Js.isNaN y)%bool = false ->
  Js.eq (Js.pow (Js.sub x y) 2) (Js.Fin 0) = false.
Proof.
  rewrite pow_2.
  destruct x as [p| | |], y as [q| | |]; cbn; try reflexivity; try discriminate.
  rewrite !orb_false_r. intros H. apply Reqb_false in H. apply Reqb_false.
  intros Hz. apply Rmult_integral in Hz. lra.
Qed.

(** X9.  The recommendation does not depend on which group is called exposed. *)
Theorem required_sample_size_symmetric (p1 p2 : Js.number) :
  calculateRequiredSampleSize p1 p2 = calculateRequiredSampleSize p2 p1.
Proof.
  unfold calculateRequiredSampleSize. cbv zeta.
  rewrite (eq_sym_js p2 p1), (pow_2_sub p2 p1), (add_comm p2 p1).
  rewrite (add_comm (Js.mul p2 _) (Js.mul p1 _)).
  replace (Js.eq p1 p2 || Js.isNaN p2 || Js.isNaN p1)%bool
    with (Js.eq p1 p2 || Js.isNaN p1 || Js.isNaN p2)%bool
    by (destruct (Js.eq p1 p2), (Js.isNaN p1), (Js.isNaN p2); reflexivity).
  reflexivity.
Qed.

(** The value on two distinct proportions. *)
Lemma required_sample_size_value (p1 p2 : R) :
  0 <= p1 <= 1 -> 0 <= p2 <= 1 -> p1 <> p2 ->
  calculateRequiredSampleSize (Js.Fin p1) (Js.Fin p2) =
  Some (Js.Fin (IZR (Zceil
    ((1.96 * sqrt (2 * ((p1 + p2) / 2) * (1 + - ((p1 + p2) / 2)))
      + 0.8416 * sqrt (p1 * (1 + - p1) + p2 * (1 + - p2)))
     * ((1.96 * sqrt (2 * ((p1 + p2) / 2) * (1 + - ((p1 + p2) / 2)))
         + 0.8416 * sqrt (p1 * (1 + - p1) + p2 * (1 + - p2))) * 1)
     / ((p1 + - p2) * ((p1 + - p2) * 1)))))).
Proof.
  intros H1 H2 Hne. unfold calculateRequiredSampleSize. cbv zeta.
  assert (G : (Js.eq (Js.Fin p1) (Js.Fin p2) || Js.isNaN (Js.Fin p1)
               || Js.isNaN (Js.Fin p2))%bool = false).
  { cbn. rewrite !orb_false_r. now apply Reqb_false. }
  rewrite G, (pow_2_sub_nonzero _ _ G).
  cbn [Js.add]. rewrite div_fin by lra.
  cbn [Js.sub Js.neg Js.add Js.mul].
  assert (0 <= 2 * ((p1 + p2) / 2) * (1 + - ((p1 + p2) / 2))) by nra.
  assert (0 <= p1 * (1 + - p1) + p2 * (1 + - p2)) by nra.
  rewrite !sqrt_fin by assumption.
  cbn [Js.add Js.mul Js.pow].
  rewrite div_fin; [reflexivity|].
  intros Hz. apply Rmult_integral in Hz. lra.
Qed.

(** Helpers shared with the report: equal proportions give [null], distinct
    ones an integer of at least 2. *)
Lemma required_sample_size_none_equal (p1 p2 : R) :
  p1 = p2 -> calculateRequiredSampleSize (Js.Fin p1) (Js.Fin p2) = None.
Proof.
  intros ->. unfold calculateRequiredSampleSize.
  assert (E : Js.eq (Js.Fin p2) (Js.Fin p2) = true) by (now apply Reqb_true).
  now rewrite E.
Qed.

Lemma required_sample_size_integer (p1 p2 : R) :
  0 <= p1 <= 1 -> 0 <= p2 <= 1 -> p1 <> p2 ->
  exists n : Z,
    (2 <= n)%Z /\
    calculateRequiredSampleSize (Js.Fin p1) (Js.Fin p2) = Some (Js.Fin (IZR n)).
Proof.
  intros H1 H2 Hne.
  rewrite (required_sample_size_value p1 p2 H1 H2 Hne).
  eexists. split; [|reflexivity].
  set (V := p1 * (1 + - p1) + p2 * (1 + - p2)).
  set (t1 := sqrt (2 * ((p1 + p2) / 2) * (1 + - ((p1 + p2) / 2)))).
  set (t2 := sqrt V).
  set (D := (p1 + - p2) * ((p1 + - p2) * 1)).
  set (N := (1.96 * t1 + 0.8416 * t2) * ((1.96 * t1 + 0.8416 * t2) * 1)).
  assert (HV : 0 <= V) by (unfold V; nra).
  assert (HD : 0 < D).
  { unfold D. assert (p1 + - p2 <> 0) by lra.
    pose proof (Rsqr_pos_lt _ H). unfold Rsqr in H0. lra. }
  assert (Ht1 : t1 * t1 = D / 2 + V).
  { unfold t1. rewrite sqrt_sqrt; unfold D, V; nra. }
  assert (P1 : 0 <= t1) by apply sqrt_pos.
  assert (P2 : 0 <= t2) by apply sqrt_pos.
  pose proof (Zceil_bound (N / D)) as [Blo Bup].
  assert (Eq : N / D * D = N) by (field; lra).
  assert (HN : 1.9208 * D <= N).
  { unfold N. assert (0 <= t1 * t2) by (apply Rmult_le_pos; assumption). nra. }
  assert (1 < IZR (Zceil (N / D))) by nra.
  apply lt_IZR in H. lia.
Qed.

(** X11.  For two proportions that differ by at least 1e-100 the function
    returns a number and not [null]: an integer, at least 2.  (The square of
    a smaller difference can underflow to zero in binary64, and the function
    then returns [null] at its second test.) *)
Theorem required_sample_size_at_least_two (p1 p2 : R) :
  0 <= p1 <= 1 -> 0 <= p2 <= 1 -> / 10 ^ 100 <= Rabs (p1 - p2) ->
  exists n : Z,
    calculateRequiredSampleSize (Js.Fin p1) (Js.Fin p2) = Some (Js.Fin (IZR n)) /\
    (2 <= n)%Z.
Proof.
  intros H1 H2 Hfar.
  assert (Hne : p1 <> p2).
  { intros ->. replace (p2 - p2) with 0 in Hfar by lra. rewrite Rabs_R0 in Hfar.
    assert (0 < / 10 ^ 100) by (apply Rinv_0_lt_compat, pow_lt; lra). lra. }
  destruct (required_sample_size_integer p1 p2 H1 H2 Hne) as (n & Hn & E).
  exists n. split; assumption.
Qed.

End SampleSizeProperties.

(* ----------------------------------------------------------------- *)
(** *** The sample size recommendation of the report *)

Section Recommendation.

Local Open Scope R_scope.
Local Open Scope string_scope.

Variables a b c d : N.
Variable studyDesign : StudyDesign.
Variable studyGoal : StudyGoal.

Hypothesis design_ok : studyDesign <> case_control.
Hypothesis exposed_pos : (0 < a + b)%N.
Hypothesis control_pos : (0 < c + d)%N.

Local Abbreviation r := (newResults (table a b c d) studyDesign studyGoal).

Let exposed_ok := proj2 (exposedTotal_pos a b c d) exposed_pos.
Let control_ok := proj2 (controlTotal_pos a b c d) control_pos.

Lemma for_calc_table design :
  design <> case_control ->
  p1_for_calc r design = Js.Fin (risk a b) /\
  p2_for_calc r design = Js.Fin (risk c d).
Proof.
  intros Hd. unfold p1_for_calc, p2_for_calc.
  destruct (absoluteRisk_incidence _ _ studyGoal design_ok exposed_ok control_ok)
    as (He & Hc).
  rewrite He, Hc.
  rewrite (riskExposed_table a b c d exposed_pos).
  rewrite (riskControl_table a b c d control_pos).
  destruct design; try contradiction; split; reflexivity.
Qed.

Lemma for_calc_case_control :
  p1_for_calc r case_control = Js.NaN /\ p2_for_calc r case_control = Js.NaN.
Proof. split; reflexivity. Qed.

(** X12.  The results of a table of fewer than 2^26 subjects, computed for a
    design with incidence, and the design selected when the report is
    requested, which the form lets differ from the first.  Without a power
    the report makes no recommendation; with a power of at least 80% it
    says the study was adequately powered; with a lower power it gives a
    sample size, an integer of at least 2 per group, when the design is
    still one with incidence and the two risks differ, and says that none
    could be determined when the design is now case-control or the risks
    are equal. *)
Theorem sample_size_recommendation :
  moderate a b c d ->
  forall design : StudyDesign,
  let prompt :=
    sampleSizeRecommendationPrompt
      (newResults (table a b c d) studyDesign studyGoal) design in
  let undetermined :=
    [ Text "The calculated statistical power is low, but a sample size recommendation could not be determined from the provided data." ] in
  (power r = None -> prompt = []) /\
  (forall p, power r = Some p ->
     Js.lt (Point.value p) (Js.Fin 0.80) = false ->
     prompt =
     [ Text "The study was adequately powered at **";
       Text (Js.toFixed (Js.mul (Point.value p) (Js.Fin 100)) 1);
       Text "%**. The current sample size was sufficient to detect an effect of the observed magnitude." ]) /\
  (forall p, power r = Some p ->
     Js.lt (Point.value p) (Js.Fin 0.80) = true ->
     (design = case_control \/ risk a b = risk c d -> prompt = undetermined) /\
     (design <> case_control -> risk a b <> risk c d ->
      exists n : Z,
        (2 <= n)%Z /\
        calculateRequiredSampleSize (Js.Fin (risk a b)) (Js.Fin (risk c d))
        = Some (Js.Fin (IZR n)) /\
        prompt =
        [ Text "The calculated statistical power is low (";
          Text (Js.toFixed (Js.mul (Point.value p) (Js.Fin 100)) 1);
          Text "%). To achieve 80% power, a future study would require approximately **";
          Num (Js.Fin (IZR n));
          Text "** participants in each group." ])).
Proof.
  intros _ design. cbv zeta. unfold sampleSizeRecommendationPrompt.
  pose proof (risk_range a b exposed_pos) as Re.
  pose proof (risk_range c d control_pos) as Rc.
  split; [|split].
  - intros ->. reflexivity.
  - intros p -> ->. reflexivity.
  - intros p -> ->. split.
    + intros [-> | Heq].
      * destruct for_calc_case_control as (E1 & E2). rewrite E1, E2. reflexivity.
      * destruct (StudyDesign_eqb design case_control) eqn:Ed.
        { assert (design = case_control) as -> by (destruct design; try discriminate; reflexivity).
          destruct for_calc_case_control as (E1 & E2). rewrite E1, E2. reflexivity. }
        assert (Hd : design <> case_control) by (intros ->; discriminate).
        destruct (for_calc_table design Hd) as (E1 & E2). rewrite E1, E2.
        now rewrite (required_sample_size_none_equal _ _ Heq).
    + intros Hd Hne.
      destruct (for_calc_table design Hd) as (E1 & E2). rewrite E1, E2.
      destruct (required_sample_size_integer _ _ Re Rc Hne) as (n & Hn & En).
      exists n. split; [assumption|]. split; [assumption|].
      rewrite En. cbn [Js.truthy].
      assert (T : Js.Reqb (IZR n) 0 = false).
      { apply Reqb_false. apply not_0_IZR. lia. }
      now rewrite T.
Qed.

End Recommendation.

(* ----------------------------------------------------------------- *)
(** *** The interval of the NNT/NNH in the report and in the table *)

Section NntInterval.

Local Open Scope R_scope.
Local Open Scope string_scope.

Variables a b c d : N.
Variable studyDesign : StudyDesign.
Variable studyGoal : StudyGoal.
Variables nntCIbenefit nntCIharm : string.

Hypothesis design_ok : studyDesign <> case_control.
Hypothesis exposed_pos : (0 < a + b)%N.
Hypothesis control_pos : (0 < c + d)%N.

Local Abbreviation r := (newResults (table a b c d) studyDesign studyGoal).

Let exposed_ok := proj2 (exposedTotal_pos a b c d) exposed_pos.
Let control_ok := proj2 (controlTotal_pos a b c d) control_pos.

(** The two records the texts are made from. *)
Lemma nnt_and_interval :
  exists v lo up,
    riskDifference r = Some (Interval.make (Js.Fin v) (Js.Fin lo) (Js.Fin up)) /\
    lo < v < up /\
    (v = 0 -> nnt r = None) /\
    (v <> 0 ->
     exists type_,
       nnt r = Some (Nnt.make (Js.Fin (1 / Rabs v)) type_
                              (Js.div (Js.Fin 1) (Js.Fin up))
                              (Js.div (Js.Fin 1) (Js.Fin lo)))).
Proof.
  rewrite (riskDifference_incidence _ _ studyGoal design_ok exposed_ok control_ok).
  rewrite (nnt_incidence _ _ studyGoal design_ok exposed_ok control_ok).
  unfold assignNnt, riskInterval.
  rewrite (rd_table a b c d exposed_pos control_pos).
  destruct (se_rd_table a b c d) as (se & Hse & Ese). rewrite Ese.
  cbn [Js.mul Js.sub Js.neg Js.add Interval.upper Interval.lower].
  eexists. eexists. eexists. split; [reflexivity|]. split; [lra|].
  rewrite ne_zero_fin. split.
  - intros E. rewrite E.
    assert (Z : Js.Reqb 0 0 = true) by (now apply Reqb_true).
    now rewrite Z.
  - intros E. pose proof (Rabs_pos_lt _ E) as Hpos.
    apply Reqb_false in E. rewrite E. cbn [negb nnt set_nnt].
    change (Js.abs (Js.Fin ?x)) with (Js.Fin (Rabs x)).
    rewrite (div_fin 1 (Rabs _)) by lra.
    eexists. reflexivity.
Qed.

Lemma one_over_zero : Js.div (Js.Fin 1) (Js.Fin 0) = Js.PosInf.
Proof.
  cbn. unfold Js.inf_of_sign.
  assert (Z : Js.Reqb 0 0 = true) by (now apply Reqb_true).
  assert (E : Js.Reqb 1 0 = false) by (apply Reqb_false; lra).
  assert (P : Js.Rltb 1 0 = false) by (apply Rltb_false; lra).
  now rewrite Z, E, P.
Qed.




(** X14.  The table words the interval as the report does whenever the
    interval of the risk difference contains zero or both bounds of the
    NNT/NNH are finite; otherwise the report has the text about infinity,
    for which the table has no test. *)
Theorem nnt_interval_table_agrees_with_report :
  forall (results : Results) (n : Nnt.t) (rdi : Interval.t),
    let currentResults :=
      set_nnt (Some n) (set_riskDifference (Some rdi) results) in
    let crosses :=
      (Js.lt (Interval.lower rdi) (Js.Fin 0)
       && Js.gt (Interval.upper rdi) (Js.Fin 0))%bool in
    let finite := (Js.isFinite (Nnt.lower n) && Js.isFinite (Nnt.upper n))%bool in
    ((crosses || finite)%bool = true ->
     nnt_ci_cell nntCIbenefit nntCIharm n rdi
     = nnt_ci_result currentResults nntCIbenefit nntCIharm) /\
    ((crosses || finite)%bool = false ->
     nnt_ci_result currentResults nntCIbenefit nntCIharm = "CI includes infinity").
Proof.
  intros results n rdi currentResults crosses finite.
  unfold nnt_ci_cell, nnt_ci_result, currentResults.
  cbn [nnt riskDifference set_nnt set_riskDifference].
  fold crosses. fold finite.
  destruct crosses; cbn [orb]; [split; [reflexivity|discriminate]|].
  split; intros ->; reflexivity.
Qed.

End NntInterval.

(* ----------------------------------------------------------------- *)
(** *** The p-value handed to the report *)

Section ReportPValue.

Local Open Scope string_scope.

Lemma toFixed_pos_nonempty x f : Js.toFixed_pos x (S f) <> "".
Proof.
  unfold Js.toFixed_pos. cbv zeta.
  match goal with |- ?s1 ++ "." ++ ?s2 <> "" => destruct s1; discriminate end.
Qed.

Lemma toFixed_nonempty x f : Js.toFixed x (S f) <> "".
Proof.
  destruct x as [r| | |]; try discriminate.
  unfold Js.toFixed. destruct (Js.Rltb r 0); [discriminate|].
  apply toFixed_pos_nonempty.
Qed.

Lemma lt_free_startsWith s : lt_free s = true -> startsWith s "<" = false.
Proof.
  destruct s as [|ch s]; [reflexivity|].
  unfold startsWith. cbn [String.prefix lt_free].
  intros H. apply andb_true_iff in H as [H _]. apply negb_true_iff in H.
  destruct (ascii_dec "<" ch) as [<-|]; [discriminate|reflexivity].
Qed.

(** What the report makes of a string returned by [calculatePValueFromZ]. *)
Lemma reported_p_value z (raw := calculatePValueFromZ z) :
  raw <> "" /\
  (if startsWith raw "<" then "0.0001" else raw)
  = (if String.eqb raw "<0.0001" then "0.0001" else raw) /\
  lt_free (if startsWith raw "<" then "0.0001" else raw) = true.
Proof.
  unfold raw, calculatePValueFromZ. cbv zeta.
  destruct (Js.lt _ _).
  - repeat split. discriminate.
  - pose proof (lt_free_toFixed
        (Js.mul (Js.Fin 2) (Js.sub (Js.Fin 1) (normalCDF (Js.abs z)))) 4) as L.
    rewrite (lt_free_startsWith _ L).
    split; [apply toFixed_nonempty|]. split; [|exact L].
    destruct (String.eqb_spec
                (Js.toFixed (Js.mul (Js.Fin 2)
                   (Js.sub (Js.Fin 1) (normalCDF (Js.abs z)))) 4) "<0.0001")
      as [E|]; [|reflexivity].
    now apply toFixed_not_below in E.
Qed.

Variable values : Values.t.
Variable studyDesign : StudyDesign.
Variable studyGoal : StudyGoal.

Local Abbreviation r := (newResults values studyDesign studyGoal).

Lemma oddsRatio_pValue :
  forall o, oddsRatio r = Some o ->
  exists z, Ratio.pValue o = calculatePValueFromZ z.
Proof.
  intros o. rewrite oddsRatio_any_design. unfold assignOddsRatio.
  destruct (_ && _)%bool; [|discriminate].
  cbv zeta. intros [= <-]. eexists. reflexivity.
Qed.

Lemma relativeRisk_pValue :
  forall o, relativeRisk r = Some o ->
  exists z, Ratio.pValue o = calculatePValueFromZ z.
Proof.
  intros o. destruct (has_incidence values studyDesign) eqn:Hinc.
  - destruct (incidence_guards _ _ Hinc) as (Hd & He & Hc).
    rewrite (relativeRisk_incidence values studyDesign studyGoal Hd He Hc).
    unfold assignRelativeRisk. destruct (_ && _)%bool; [|discriminate].
    cbv zeta. intros [= <-]. eexists. reflexivity.
  - rewrite (newResults_without_incidence _ _ _ Hinc).
    destruct (assignOddsRatio_frame values initialResults) as (v & ->).
    discriminate.
Qed.

(** X15.  The report never carries the sign ["<"]: a p-value shown in the table
    as ["<0.0001"] is handed over as ["0.0001"], any other unchanged.  The
    p-value of the odds ratio is the one used whenever the odds ratio
    exists, that of the relative risk otherwise, and ["N/A"] when neither
    does. *)
Theorem report_p_value_has_no_sign :
  lt_free (p_value_result r) = true /\
  (forall o, oddsRatio r = Some o ->
     p_value_result r =
     if String.eqb (Ratio.pValue o) "<0.0001" then "0.0001" else Ratio.pValue o) /\
  (oddsRatio r = None ->
   forall o, relativeRisk r = Some o ->
     p_value_result r =
     if String.eqb (Ratio.pValue o) "<0.0001" then "0.0001" else Ratio.pValue o) /\
  (oddsRatio r = None -> relativeRisk r = None -> p_value_result r = "N/A").
Proof.
  assert (Shape : forall raw,
            (exists z, raw = calculatePValueFromZ z) ->
            (forall other, or_string (Some raw) other = Some raw) /\
            (if startsWith raw "<" then "0.0001" else raw)
            = (if String.eqb raw "<0.0001" then "0.0001" else raw) /\
            lt_free (if String.eqb raw "<0.0001" then "0.0001" else raw) = true).
  { intros raw (z & ->).
    destruct (reported_p_value z) as (Hne & Heq & Hlt).
    split; [|split; [exact Heq|now rewrite <- Heq]].
    intros other. destruct (calculatePValueFromZ z); [contradiction|reflexivity]. }
  unfold p_value_result, p_value_result_raw.
  destruct (oddsRatio r) as [o|] eqn:Ho; cbn [option_map].
  - destruct (Shape (Ratio.pValue o) (oddsRatio_pValue o Ho)) as (K & E & L).
    rewrite !K, E. split; [exact L|]. split; [now intros ? [= <-]|].
    split; discriminate.
  - destruct (relativeRisk r) as [o|] eqn:Hr; cbn [option_map].
    + destruct (Shape (Ratio.pValue o) (relativeRisk_pValue o Hr)) as (K & E & L).
      change (or_string None (Some (Ratio.pValue o))) with (Some (Ratio.pValue o)).
      rewrite K, E. split; [exact L|]. split; [discriminate|].
      split; [now intros _ ? [= <-]|discriminate].
    + cbn. split; [reflexivity|]. split; [discriminate|]. split; [discriminate|].
      reflexivity.
Qed.

End ReportPValue.

(* ----------------------------------------------------------------- *)
(** *** Reading the form *)

Section Parsing.

Local Open Scope string_scope.

(** Folding the digits of a decimal numeral continues the accumulator as
    the conversion of the library does. *)
Lemma mathInt_uint u : forall rest acc,
  fold_left (fun acc v => (10 * acc + v)%N)
            (digitPrefix 10 (NilEmpty.string_of_uint u ++ rest)) acc
  = fold_left (fun acc v => (10 * acc + v)%N) (digitPrefix 10 rest)
      (match acc with
       | N0 => N.of_uint u
       | N.pos p => N.pos (Pos.of_uint_acc u p)
       end).
Proof.
  induction u; intros rest acc; [destruct acc; reflexivity|..];
    cbn [NilEmpty.string_of_uint append];
    match goal with
    | |- context [digitPrefix 10 (String ?ch ?s)] =>
        let v := eval vm_compute in (match digitValue ch with Some v => v | None => 0%N end) in
        change (digitPrefix 10 (String ch s)) with (v :: digitPrefix 10 s)
    end;
    cbn [fold_left]; rewrite IHu; f_equal;
    (destruct acc as [|p]; [reflexivity|]);
    match goal with
    | |- context [(10 * N.pos p + ?k)%N] =>
        match k with
        | 0%N => replace (10 * N.pos p + k)%N with (N.pos (10 * p)) by lia
        | N.pos ?q => replace (10 * N.pos p + k)%N with (N.pos (q + 10 * p)) by lia
        end
    end; reflexivity.
Qed.

Lemma numeral_head u rest :
  exists ch s,
    NilZero.string_of_uint u ++ rest = String ch s /\
    isStrWhiteSpaceChar ch = false /\
    ch <> "-"%char /\ ch <> "+"%char /\
    (exists v, digitValue ch = Some v /\ (v <? 10)%N = true).
Proof.
  destruct u; cbn [NilZero.string_of_uint NilEmpty.string_of_uint append];
    eexists; eexists; (split; [reflexivity|]);
    (split; [reflexivity|]); (split; [discriminate|]); (split; [discriminate|]);
    eexists; split; reflexivity.
Qed.

Lemma numeral_no_hex_prefix u :
  hasHexPrefix (NilZero.string_of_uint u) = false.
Proof.
  destruct u as [|u|u|u|u|u|u|u|u|u|u]; try reflexivity; destruct u; reflexivity.
Qed.

Lemma mathInt_numeral u rest :
  digitPrefix 10 rest = [] ->
  mathInt 10 (digitPrefix 10 (NilZero.string_of_uint u ++ rest)) = N.of_uint u.
Proof.
  intros Hrest. unfold mathInt.
  destruct u;
    try (cbn [NilZero.string_of_uint]; rewrite mathInt_uint, Hrest; reflexivity).
  change (NilZero.string_of_uint Nil) with (NilEmpty.string_of_uint (D0 Nil)).
  rewrite mathInt_uint, Hrest. reflexivity.
Qed.

(** A decimal numeral followed by anything that is not a decimal digit is
    read as its value, with radix 10; and without a radix unless the text
    starts with a hexadecimal prefix. *)
Lemma parseInt_numeral u rest radix :
  digitPrefix 10 rest = [] ->
  radix = 10%N \/
  (radix = 0%N /\ hasHexPrefix (NilZero.string_of_uint u ++ rest) = false) ->
  parseInt (NilZero.string_of_uint u ++ rest) radix
  = Js.of_integer (Z.of_N (N.of_uint u)).
Proof.
  intros Hrest Hradix.
  pose proof (mathInt_numeral u rest Hrest) as Hval.
  destruct (numeral_head u rest) as (ch & s & E & Hws & Hm & Hp & v & Hv & Hlt).
  unfold parseInt. cbv zeta. rewrite E in *.
  cbn [trimStart]. rewrite Hws.
  assert (Sign : match String ch s with
                 | String "-" _ => (-1)%Z
                 | _ => 1%Z
                 end = 1%Z).
  { destruct ch as [[] [] [] [] [] [] [] []]; try reflexivity. now contradiction Hm. }
  assert (Strip : match String ch s with
                  | String "+" rest0 | String "-" rest0 => rest0
                  | _ => String ch s
                  end = String ch s).
  { destruct ch as [[] [] [] [] [] [] [] []]; try reflexivity;
      [now contradiction Hm | now contradiction Hp]. }
  rewrite Sign, Strip.
  assert (Pre : exists ds, digitPrefix 10 (String ch s) = v :: ds).
  { cbn [digitPrefix]. rewrite Hv, Hlt. eexists. reflexivity. }
  destruct Pre as (ds & Pre).
  destruct Hradix as [-> | [-> Hhex]].
  - cbn [N.eqb N.ltb N.compare Pos.compare Pos.compare_cont negb orb andb Pos.eqb].
    rewrite Pre. rewrite <- Pre, Hval. now rewrite Z.mul_1_l.
  - cbn [N.eqb negb orb andb]. rewrite Hhex.
    rewrite Pre. rewrite <- Pre, Hval. now rewrite Z.mul_1_l.
Qed.

Lemma digits_numeral (n : N) :
  Js.digits (Z.of_N n) = NilZero.string_of_uint (N.to_uint n) /\
  N.of_uint (N.to_uint n) = n.
Proof.
  unfold Js.digits. rewrite N2Z.id. split; [reflexivity|].
  apply DecimalN.Unsigned.of_to.
Qed.

Lemma append_empty (s : string) : s ++ "" = s.
Proof. induction s as [|ch s IH]; [reflexivity|]. cbn. now rewrite IH. Qed.

(** An integer below 2^53 is its own number. *)
Lemma of_integer_exact (n : N) :
  (n < 2 ^ 53)%N -> Js.of_integer (Z.of_N n) = Js.Fin (count n).
Proof.
  intros Hn. unfold Js.of_integer, Js.round_to_53_bits. cbv zeta.
  rewrite Zabs2N.id.
  assert (Hsize : (N.size n <=? 53)%N = true).
  { apply N.leb_le. destruct (N.eq_dec n 0) as [->|Hz]; [cbn; lia|].
    rewrite N.size_log2 by assumption.
    apply N.le_succ_l, N.log2_lt_pow2; lia. }
  rewrite Hsize.
  assert (Hbig : (2 ^ 1024 <=? n)%N = false).
  { apply N.leb_gt. apply N.lt_le_trans with (1 := Hn).
    apply N.pow_le_mono_r; lia. }
  rewrite Hbig. unfold count. do 2 f_equal.
  destruct n as [|p]; reflexivity.
Qed.

Lemma parseInt_digits (n : N) (radix : N) :
  (n < 2 ^ 53)%N ->
  radix = 10%N \/ radix = 0%N ->
  parseInt (Js.digits (Z.of_N n)) radix = Js.Fin (count n).
Proof.
  intros Hn Hr. destruct (digits_numeral n) as (E & V). rewrite E.
  rewrite <- (append_empty (NilZero.string_of_uint (N.to_uint n))).
  rewrite parseInt_numeral;
    [rewrite V; now apply of_integer_exact|reflexivity|].
  destruct Hr as [->| ->]; [now left|right]. split; [reflexivity|].
  rewrite append_empty. apply numeral_no_hex_prefix.
Qed.

(** X16.  [parseInt] with radix 10 reads the decimal numeral at the start of the
    text and ignores whatever follows it, a decimal point or an exponent
    included: the form accepts ["3.7"] as 3 and ["1e3"] as 1.  The numeral
    is read exactly when it is below 2^53; a larger one is rounded to the
    nearest double. *)
Theorem parseInt_reads_leading_numeral (n : N) (rest : string) :
  (n < 2 ^ 53)%N ->
  digitPrefix 10 rest = [] ->
  parseInt (Js.digits (Z.of_N n) ++ rest) 10 = Js.Fin (count n).
Proof.
  intros Hn Hrest. destruct (digits_numeral n) as (E & V). rewrite E.
  rewrite parseInt_numeral;
    [rewrite V; now apply of_integer_exact|assumption|now left].
Qed.

Lemma sign_of_text (s : string) :
  match s with String "-" _ => (-1)%Z | _ => 1%Z end = 1%Z \/
  exists rest, s = String "-" rest.
Proof.
  destruct s as [|ch s]; [now left|].
  destruct ch as [[] [] [] [] [] [] [] []]; try (now left).
  right. eexists. reflexivity.
Qed.

(** X17.  Whatever the text and the radix, [parseInt] returns NaN, an integer
    or, for a numeral too large for a double, an infinity; and a negative
    integer or [-Infinity] only for a text that starts, after white space,
    with a minus sign. *)
Theorem parseInt_integer_or_NaN (s : string) (radix : N) :
  parseInt s radix = Js.NaN \/
  parseInt s radix = Js.PosInf \/
  (parseInt s radix = Js.NegInf /\ exists rest, trimStart s = String "-" rest) \/
  exists z : Z,
    parseInt s radix = Js.Fin (IZR z) /\
    ((z < 0)%Z -> exists rest, trimStart s = String "-" rest).
Proof.
  unfold parseInt. cbv zeta.
  destruct (negb _ && _)%bool; [now left|].
  match goal with
  | |- context [let '(_, _) := ?p in _] => destruct p as (s0, base)
  end.
  destruct (digitPrefix base s0) as [|v ds]; [now left|]. right.
  set (m := mathInt base (v :: ds)).
  destruct (sign_of_text (trimStart s)) as [E|E].
  - rewrite E, Z.mul_1_l. unfold Js.of_integer. cbv zeta.
    destruct (2 ^ 1024 <=? _)%N.
    + left. destruct (Z.ltb_spec (Z.of_N m) 0); [lia|reflexivity].
    + right. right. eexists. split; [reflexivity|]. intros Hneg.
      pose proof (N2Z.is_nonneg (Js.round_to_53_bits (Z.abs_N (Z.of_N m)))).
      destruct (Z.sgn_spec (Z.of_N m)) as [[_ Es]|[[_ Es]|[_ Es]]];
        rewrite Es in Hneg; lia.
  - unfold Js.of_integer. cbv zeta.
    destruct (2 ^ 1024 <=? _)%N.
    + destruct (_ <? 0)%Z; [right; left; split; [reflexivity|exact E]|now left].
    + right. right. eexists. split; [reflexivity|]. intros _. exact E.
Qed.

(** X18.  The fields typed for a table of counts below 2^53 are read back as
    that table: the handler computes on it, and the two totals shown beside
    the form are the totals the handler uses. *)
Theorem typed_counts_are_read_back (a b c d : N) studyDesign studyGoal :
  (a < 2 ^ 53 /\ b < 2 ^ 53 /\ c < 2 ^ 53 /\ d < 2 ^ 53)%N ->
  parseValues (typed a b c d) = table a b c d /\
  handleCalculate (Some studyGoal) (Some studyDesign) (parseValues (typed a b c d))
  = inr (newResults (table a b c d) studyDesign studyGoal) /\
  Form.exposedTotal (typed a b c d) = exposedTotal (table a b c d) /\
  Form.controlTotal (typed a b c d) = controlTotal (table a b c d).
Proof.
  intros (Ha & Hb & Hc & Hd).
  assert (P : parseValues (typed a b c d) = table a b c d).
  { unfold parseValues, typed, table. cbn [Inputs.a Inputs.b Inputs.c Inputs.d].
    now rewrite !parseInt_digits by (assumption || now left). }
  assert (O : forall n, Js.or_else (Js.Fin (count n)) (Js.Fin 0) = Js.Fin (count n)).
  { intros n. unfold Js.or_else. cbn [Js.truthy].
    destruct (Js.Reqb (count n) 0) eqn:E; [|reflexivity].
    apply Reqb_true in E. now rewrite E. }
  split; [exact P|]. split; [rewrite P; apply handleCalculate_valid|].
  unfold Form.exposedTotal, Form.controlTotal, typed.
  cbn [Inputs.a Inputs.b Inputs.c Inputs.d].
  rewrite !parseInt_digits by (assumption || now right). rewrite !O.
  rewrite exposedTotal_table, controlTotal_table. split; reflexivity.
Qed.

End Parsing.

(* ----------------------------------------------------------------- *)
(** *** No result is NaN *)

Section Finiteness.

Local Open Scope R_scope.

Variables a b c d : N.
Variable studyDesign : StudyDesign.
Variable studyGoal : StudyGoal.

Local Abbreviation t := (table a b c d).
Local Abbreviation r := (newResults (table a b c d) studyDesign studyGoal).

(** Either the incidence metrics are skipped or both groups are non-empty
    in a design that has them. *)
Lemma incidence_cases :
  r = assignOddsRatio t initialResults \/
  (studyDesign <> case_control /\ (0 < a + b)%N /\ (0 < c + d)%N).
Proof.
  destruct (has_incidence t studyDesign) eqn:H.
  - right. destruct (incidence_guards _ _ H) as (Hd & He & Hc).
    split; [exact Hd|]. split.
    + now apply (proj1 (exposedTotal_pos a b c d)).
    + now apply (proj1 (controlTotal_pos a b c d)).
  - left. now apply newResults_without_incidence.
Qed.

Lemma oddsRatio_fields :
  forall o, oddsRatio r = Some o ->
  exists v lo up z pv,
    o = Ratio.make (Js.Fin v) (Js.Fin lo) (Js.Fin up) pv (Js.Fin z).
Proof.
  intros o. rewrite oddsRatio_any_design. unfold assignOddsRatio.
  pose proof (oddsRatio_guard_table a b c d) as G. cbv zeta in G. rewrite G. clear G.
  destruct (_ && _)%bool; [|discriminate]. cbv zeta.
  rewrite odds_ratio_table.
  set (v := corrected_cell a * corrected_cell d / (corrected_cell b * corrected_cell c)).
  assert (Hv : 0 < v).
  { pose proof (corrected_cell_pos a). pose proof (corrected_cell_pos b).
    pose proof (corrected_cell_pos c). pose proof (corrected_cell_pos d).
    apply Rdiv_lt_0_compat; nra. }
  rewrite (log_fin v Hv).
  destruct (se_ln_or_table a b c d) as (se & Hse & Ese). rewrite Ese.
  cbn [Js.mul Js.sub Js.neg Js.add Js.exp]. rewrite div_fin by lra.
  cbn [oddsRatio set_oddsRatio]. intros [= <-].
  eexists. eexists. eexists. eexists. eexists. reflexivity.
Qed.

Section WithIncidence.

Hypothesis design_ok : studyDesign <> case_control.
Hypothesis exposed_pos : (0 < a + b)%N.
Hypothesis control_pos : (0 < c + d)%N.

Let exposed_ok := proj2 (exposedTotal_pos a b c d) exposed_pos.
Let control_ok := proj2 (controlTotal_pos a b c d) control_pos.

Lemma risks_fields :
  absoluteRiskExposed r = Some (Point.make (Js.Fin (risk a b))) /\
  absoluteRiskControl r = Some (Point.make (Js.Fin (risk c d))).
Proof.
  destruct (absoluteRisk_incidence _ _ studyGoal design_ok exposed_ok control_ok)
    as (He & Hc).
  rewrite He, Hc.
  rewrite (riskExposed_table a b c d exposed_pos).
  rewrite (riskControl_table a b c d control_pos). split; reflexivity.
Qed.

Lemma impactMeasures_fields :
  forall m, impactMeasures r = Some m ->
  exists la lr,
    0 < risk c d /\
    m = Impact.make
          (Impact.make_measure la (Js.Fin (Rabs (risk a b - risk c d))))
          (Impact.make_measure lr
             (Js.Fin (Rabs (risk a b - risk c d) / risk c d))).
Proof.
  intros m.
  rewrite (impactMeasures_incidence _ _ studyGoal design_ok exposed_ok control_ok).
  unfold assignImpactMeasures.
  rewrite (rd_table a b c d exposed_pos control_pos).
  rewrite (riskControl_table a b c d control_pos).
  cbn [Js.gt Js.lt].
  destruct (Js.Rltb 0 (risk c d)) eqn:Hc; [|discriminate].
  apply Rltb_true in Hc.
  destruct (Js.ne _ _); [|discriminate]. cbn [andb]. cbv zeta.
  change (Js.abs (Js.Fin ?x)) with (Js.Fin (Rabs x)).
  rewrite div_fin by lra.
  destruct (StudyGoal_eqb studyGoal undesirable), (Js.Rltb 0 (risk a b - risk c d));
    cbn [impactMeasures set_impactMeasures]; intros [= <-];
    eexists; eexists; (split; [exact Hc|reflexivity]).
Qed.

Lemma relativeRisk_fields :
  forall o, relativeRisk r = Some o ->
  exists v lo up pv z,
    o = Ratio.make (Js.Fin v) (Js.Fin lo) (Js.Fin up) pv z /\
    Js.isNaN z = false /\
    v = (if (a =? 0)%N then 0 else risk a b / risk c d) /\
    0 < risk c d.
Proof.
  intros o Ho.
  assert (Hc : (0 < c)%N).
  { revert Ho.
    rewrite (relativeRisk_incidence _ _ studyGoal design_ok exposed_ok control_ok).
    unfold assignRelativeRisk.
    rewrite (riskControl_table a b c d control_pos). cbn [Js.gt Js.lt].
    destruct (Js.Rltb 0 (risk c d)) eqn:E; [|discriminate]. intros _.
    apply Rltb_true in E.
    destruct (N.eq_dec c 0) as [Z|Z]; [|lia].
    rewrite (proj2 (risk_zero c d control_pos) Z) in E. lra. }
  assert (Hrc : 0 < risk c d).
  { pose proof (count_pos c Hc). pose proof (count_nonneg d).
    apply Rdiv_lt_0_compat; lra. }
  destruct (N.eq_dec a 0) as [Ha|Ha].
  - rewrite (relativeRisk_no_exposed_events a b c d studyDesign studyGoal
               design_ok exposed_pos Hc Ha) in Ho.
    injection Ho as <-. rewrite Ha.
    eexists. eexists. eexists. eexists. eexists.
    split; [reflexivity|]. repeat split. exact Hrc.
  - revert Ho.
    rewrite (relativeRisk_incidence _ _ studyGoal design_ok exposed_ok control_ok).
    unfold assignRelativeRisk.
    rewrite (riskExposed_table a b c d exposed_pos).
    rewrite (riskControl_table a b c d control_pos).
    assert (Hapos : 0 < count a) by (apply count_pos; lia).
    pose proof (count_nonneg b) as Hb.
    assert (Hre : 0 < risk a b) by (apply Rdiv_lt_0_compat; lra).
    assert (G : (Js.gt (Js.Fin (risk c d)) (Js.Fin 0)
                 && Js.ge (Js.Fin (risk a b)) (Js.Fin 0))%bool = true).
    { cbn. apply andb_true_iff.
      split; [now apply Rltb_true|apply Rleb_true; lra]. }
    rewrite G. cbv zeta.
    assert (E0 : Js.eq (Js.Fin (risk a b)) (Js.Fin 0) = false)
      by (apply Reqb_false; lra).
    rewrite E0. rewrite (div_fin (risk a b)) by lra.
    assert (Hrr : 0 < risk a b / risk c d) by (apply Rdiv_lt_0_compat; lra).
    rewrite (log_fin _ Hrr).
    unfold riskExposed_c, riskControl_c, exposedTotal_c, controlTotal_c.
    rewrite corrected_table. cbn [Values.a Values.b Values.c Values.d Js.add].
    pose proof (corrected_cell_pos a) as Pa. pose proof (corrected_cell_pos b) as Pb.
    pose proof (corrected_cell_pos c) as Pc. pose proof (corrected_cell_pos d) as Pd.
    set (nE := corrected_cell a + corrected_cell b).
    set (nC := corrected_cell c + corrected_cell d).
    rewrite !div_fin by (unfold nE, nC; lra).
    cbn [Js.sub Js.neg Js.add].
    rewrite !div_fin by lra. cbn [Js.add].
    assert (HpE : 0 < corrected_cell a / nE < 1)
      by (apply proportion_inside; unfold nE; lra).
    assert (HpC : 0 < corrected_cell c / nC < 1)
      by (apply proportion_inside; unfold nC; lra).
    assert (V1 : 0 < (1 + - (corrected_cell a / nE)) / corrected_cell a)
      by (apply Rdiv_lt_0_compat; lra).
    assert (V2 : 0 < (1 + - (corrected_cell c / nC)) / corrected_cell c)
      by (apply Rdiv_lt_0_compat; lra).
    rewrite sqrt_fin by lra.
    match goal with |- context [sqrt ?x] => set (se := sqrt x) end.
    assert (Hse : 0 < se) by (apply sqrt_lt_R0; lra).
    cbn [Js.mul Js.sub Js.neg Js.add Js.exp].
    rewrite div_fin by lra.
    cbn [relativeRisk set_relativeRisk]. intros [= <-].
    apply N.eqb_neq in Ha. rewrite Ha.
    eexists. eexists. eexists. eexists. eexists.
    split; [reflexivity|]. repeat split. exact Hrc.
Qed.

Lemma power_fields :
  exists w,
    type1Error r = Some (Point.make (Js.Fin 0.05)) /\
    power r = option_map (fun v => Point.make (Js.Fin v)) w /\
    type2Error r = option_map (fun v => Point.make (Js.Fin (1 - v))) w.
Proof.
  destruct (power_incidence _ _ studyGoal design_ok exposed_ok control_ok)
    as (Hp & H1 & H2).
  rewrite Hp, H1, H2.
  destruct (Req_dec_T (risk a b) (risk c d)) as [Heq|Hne].
  - rewrite (assignPower_equal a b c d exposed_pos control_pos Heq).
    exists (Some 0.05). repeat split.
  - destruct (assignPower_differ a b c d exposed_pos control_pos Hne)
      as [(zl & zu & Hz & ->)| ->].
    + exists (Some (1 + - cdf zu + cdf zl)). repeat split.
    + exists None. repeat split.
Qed.

Lemma nnt_bound_not_NaN x : Js.isNaN (Js.div (Js.Fin 1) (Js.Fin x)) = false.
Proof.
  cbn. unfold Js.inf_of_sign.
  assert (E : Js.Reqb 1 0 = false) by (apply Reqb_false; lra).
  assert (P : Js.Rltb 1 0 = false) by (apply Rltb_false; lra).
  rewrite E, P. destruct (Js.Reqb x 0); reflexivity.
Qed.

Lemma numbers_with_incidence :
  forallb Js.isFinite (estimates r) = true /\
  forallb (fun x => negb (Js.isNaN x)) (unbounded r) = true.
Proof.
  unfold estimates, unbounded.
  destruct risks_fields as (-> & ->).
  destruct power_fields as (w & -> & -> & ->).
  destruct (nnt_and_interval a b c d studyDesign studyGoal
              design_ok exposed_pos control_pos)
    as (v & lo & up & -> & _ & Hnone & Hsome).
  assert (Hrr : exists x, of_option
            (fun o => [Ratio.value o; Ratio.lower o; Ratio.upper o])
            (relativeRisk r) = map Js.Fin x
          /\ forallb (fun x => negb (Js.isNaN x))
               (of_option (fun o => [Ratio.zStat o]) (relativeRisk r)) = true).
  { destruct (relativeRisk r) as [o|] eqn:E; [|exists []; split; reflexivity].
    destruct (relativeRisk_fields o E) as (x & l & u & pv & z & -> & Hz & _).
    exists [x; l; u]. cbn. now rewrite Hz. }
  destruct Hrr as (xr & -> & Hz).
  assert (Hor : exists x, of_option
            (fun o => [Ratio.value o; Ratio.lower o; Ratio.upper o; Ratio.zStat o])
            (oddsRatio r) = map Js.Fin x).
  { destruct (oddsRatio r) as [o|] eqn:E; [|exists []; reflexivity].
    destruct (oddsRatio_fields o E) as (x & l & u & z & pv & ->).
    exists [x; l; u; z]. reflexivity. }
  destruct Hor as (xo & ->).
  assert (Him : exists x, of_option
            (fun m => [Impact.value (Impact.absolute m);
                       Impact.value (Impact.relative m)])
            (impactMeasures r) = map Js.Fin x).
  { destruct (impactMeasures r) as [m|] eqn:E; [|exists []; reflexivity].
    destruct (impactMeasures_fields m E) as (la & lr & _ & ->).
    eexists [_; _]. reflexivity. }
  destruct Him as (xi & ->).
  assert (Hn : (exists x, of_option (fun n => [Nnt.value n]) (nnt r) = map Js.Fin x)
               /\ forallb (fun x => negb (Js.isNaN x))
                    (of_option (fun n => [Nnt.lower n; Nnt.upper n]) (nnt r)) = true).
  { destruct (Req_dec_T v 0) as [Hv|Hv].
    - rewrite (Hnone Hv). split; [exists []|]; reflexivity.
    - destruct (Hsome Hv) as (ty & ->). split; [eexists [_]; reflexivity|].
      cbn [of_option Nnt.lower Nnt.upper forallb].
      now rewrite !nnt_bound_not_NaN. }
  destruct Hn as ((xn & ->) & Hb).
  assert (F : forall l, forallb Js.isFinite (map Js.Fin l) = true)
    by (induction l; [reflexivity|assumption]).
  split.
  - rewrite !forallb_app, !F. destruct w; reflexivity.
  - rewrite forallb_app, Hz, Hb. reflexivity.
Qed.

End WithIncidence.

(** X19.  For every table of fewer than 2^26 subjects, design and goal: no
    number in the results is NaN.  All are finite except, possibly, the Z
    statistic of the relative risk ([-Infinity] with no exposed event) and
    the bounds of the NNT/NNH ([Infinity] when a bound of the risk
    difference is zero). *)
Theorem results_are_never_NaN :
  moderate a b c d ->
  forallb Js.isFinite (estimates r) = true /\
  forallb (fun x => negb (Js.isNaN x)) (unbounded r) = true.
Proof.
  intros _. destruct incidence_cases as [E|(Hd & He & Hc)].
  - unfold estimates, unbounded.
    assert (Hor : exists x, of_option
              (fun o => [Ratio.value o; Ratio.lower o; Ratio.upper o; Ratio.zStat o])
              (oddsRatio r) = map Js.Fin x).
    { destruct (oddsRatio r) as [o|] eqn:E'; [|exists []; reflexivity].
      destruct (oddsRatio_fields o E') as (x & l & u & z & pv & ->).
      exists [x; l; u; z]. reflexivity. }
    destruct Hor as (xo & Hor). rewrite Hor. rewrite E.
    destruct (assignOddsRatio_frame t initialResults) as (v & ->).
    cbn [absoluteRiskExposed absoluteRiskControl riskDifference relativeRisk
         impactMeasures nnt power type1Error type2Error set_oddsRatio
         initialResults of_option app].
    split; [|reflexivity]. rewrite app_nil_r.
    clear. induction xo; [reflexivity|assumption].
  - now apply numbers_with_incidence.
Qed.

End Finiteness.

(* ----------------------------------------------------------------- *)
(** *** Relative impact and relative risk *)

Section RelativeImpact.

Local Open Scope R_scope.

Variables a b c d : N.
Variable studyDesign : StudyDesign.
Variable studyGoal : StudyGoal.

Hypothesis design_ok : studyDesign <> case_control.
Hypothesis exposed_pos : (0 < a + b)%N.
Hypothesis control_pos : (0 < c + d)%N.

Local Abbreviation r := (newResults (table a b c d) studyDesign studyGoal).

(** In exact arithmetic the relative measure is the distance of the relative
    risk from 1. *)
Lemma relative_impact_exact :
  impactMeasures (newResults (table a b c d) studyDesign studyGoal) = None \/
  exists m o rr,
    0 <= rr /\
    impactMeasures r = Some m /\
    relativeRisk r = Some o /\ Ratio.value o = Js.Fin rr /\
    Impact.value (Impact.relative m) = Js.Fin (Rabs (rr - 1)).
Proof.
  destruct (impactMeasures r) as [m|] eqn:Hm; [right|now left].
  destruct (impactMeasures_fields a b c d studyDesign studyGoal
              design_ok exposed_pos control_pos m Hm) as (la & lr & Hrc & ->).
  assert (Hc : (0 < c)%N).
  { destruct (N.eq_dec c 0) as [Z|Z]; [|lia].
    rewrite (proj2 (risk_zero c d control_pos) Z) in Hrc. lra. }
  destruct (relativeRisk_value a b c d studyDesign studyGoal
              design_ok exposed_pos Hc) as (o & Ho & Hv).
  eexists. exists o. exists (if (a =? 0)%N then 0 else risk a b / risk c d).
  split.
  { pose proof (risk_range a b exposed_pos). destruct (a =? 0)%N; [lra|].
    unfold Rdiv. apply Rmult_le_pos; [lra|]. left. apply Rinv_0_lt_compat. lra. }
  split; [reflexivity|]. split; [exact Ho|]. split; [exact Hv|].
  cbn [Impact.relative Impact.value]. f_equal.
  destruct (N.eqb_spec a 0) as [Ha|Ha].
  - rewrite (proj2 (risk_zero a b exposed_pos) Ha).
    replace (0 - risk c d) with (- risk c d) by lra.
    rewrite Rabs_Ropp, (Rabs_right (risk c d)) by lra.
    replace (0 - 1) with (- (1)) by lra. rewrite Rabs_Ropp, Rabs_R1.
    field. lra.
  - replace (risk a b / risk c d - 1) with ((risk a b - risk c d) * / risk c d)
      by (field; lra).
    rewrite Rabs_mult, Rabs_inv, (Rabs_right (risk c d)) by lra. reflexivity.
Qed.

(** X20.  On a table of fewer than 2^26 subjects: whenever impact measures are
    reported so is the relative risk, and the relative measure is the
    distance of the relative risk [rr] from 1, also when the relative risk
    is the 0 of a table without exposed events.  The two are computed by
    different quotients and agree within [1e-9 * (1 + rr)]: exactly in exact
    arithmetic, up to the rounding of the quotients in binary64. *)
Theorem relative_impact_is_distance_of_relative_risk_from_one :
  moderate a b c d ->
  impactMeasures (newResults (table a b c d) studyDesign studyGoal) = None \/
  exists m o rr rel,
    impactMeasures r = Some m /\
    relativeRisk r = Some o /\ Ratio.value o = Js.Fin rr /\
    Impact.value (Impact.relative m) = Js.Fin rel /\
    Rabs (rel - Rabs (rr - 1)) <= 0.000000001 * (1 + rr).
Proof.
  intros _.
  destruct relative_impact_exact as [E|(m & o & rr & Hrr & Hm & Ho & Hv & Hrel)];
    [now left|right].
  exists m, o, rr, (Rabs (rr - 1)). repeat (split; [assumption|]).
  replace (Rabs (rr - 1) - Rabs (rr - 1)) with 0 by lra.
  rewrite Rabs_R0. nra.
Qed.

End RelativeImpact.

(* ----------------------------------------------------------------- *)
(** *** Exchanging the two groups *)

Section GroupSwap.

Local Open Scope R_scope.

Variables a b c d : N.
Variable studyDesign : StudyDesign.
Variable studyGoal : StudyGoal.

Local Abbreviation r := (newResults (table a b c d) studyDesign studyGoal).
Local Abbreviation r' := (newResults (table c d a b) studyDesign studyGoal).

Lemma se_rd_swap : se_rd (table c d a b) = se_rd (table a b c d).
Proof.
  unfold se_rd, riskExposed_c, riskControl_c, exposedTotal_c, controlTotal_c.
  rewrite !corrected_table. cbn [Values.a Values.b Values.c Values.d].
  apply f_equal, add_comm.
Qed.

Section Risks.

Hypothesis design_ok : studyDesign <> case_control.
Hypothesis exposed_pos : (0 < a + b)%N.
Hypothesis control_pos : (0 < c + d)%N.

Let exposed_ok := proj2 (exposedTotal_pos a b c d) exposed_pos.
Let control_ok := proj2 (controlTotal_pos a b c d) control_pos.
Let exposed_ok' := proj2 (exposedTotal_pos c d a b) control_pos.
Let control_ok' := proj2 (controlTotal_pos c d a b) exposed_pos.

(** X21.  Calling the control group exposed and the exposed group control
    exchanges the two risks, negates the risk difference and mirrors its
    interval; the NNT/NNH keeps its value and changes its type. *)
Theorem exchanging_groups_mirrors_risk_difference :
  absoluteRiskExposed (newResults (table c d a b) studyDesign studyGoal)
  = absoluteRiskControl (newResults (table a b c d) studyDesign studyGoal) /\
  absoluteRiskControl r' = absoluteRiskExposed r /\
  (exists v lo up,
     riskDifference r
     = Some (Interval.make (Js.Fin v) (Js.Fin lo) (Js.Fin up)) /\
     riskDifference r'
     = Some (Interval.make (Js.Fin (- v)) (Js.Fin (- up)) (Js.Fin (- lo)))) /\
  option_map Nnt.value (nnt r') = option_map Nnt.value (nnt r) /\
  (forall n n', nnt r = Some n -> nnt r' = Some n' -> Nnt.type_ n' <> Nnt.type_ n).
Proof.
  destruct (absoluteRisk_incidence _ _ studyGoal design_ok exposed_ok control_ok)
    as (He & Hc).
  destruct (absoluteRisk_incidence _ _ studyGoal design_ok exposed_ok' control_ok')
    as (He' & Hc').
  rewrite He, Hc, He', Hc'.
  rewrite (riskExposed_table a b c d exposed_pos).
  rewrite (riskControl_table a b c d control_pos).
  rewrite (riskExposed_table c d a b control_pos).
  rewrite (riskControl_table c d a b exposed_pos).
  split; [reflexivity|]. split; [reflexivity|].
  rewrite (riskDifference_incidence _ _ studyGoal design_ok exposed_ok control_ok).
  rewrite (riskDifference_incidence _ _ studyGoal design_ok exposed_ok' control_ok').
  rewrite (nnt_incidence _ _ studyGoal design_ok exposed_ok control_ok).
  rewrite (nnt_incidence _ _ studyGoal design_ok exposed_ok' control_ok').
  unfold assignNnt, riskInterval. rewrite se_rd_swap.
  rewrite (rd_table a b c d exposed_pos control_pos).
  rewrite (rd_table c d a b control_pos exposed_pos).
  destruct (se_rd_table a b c d) as (se & Hse & ->).
  set (v := risk a b - risk c d).
  replace (risk c d - risk a b) with (- v) by (unfold v; lra).
  cbn [Js.mul Js.sub Js.neg Js.add Interval.lower Interval.upper].
  split.
  { eexists. eexists. eexists. split; [reflexivity|].
    do 2 f_equal; f_equal; lra. }
  rewrite !ne_zero_fin.
  destruct (Req_dec_T v 0) as [Hv|Hv].
  - assert (Z : Js.Reqb v 0 = true) by (now apply Reqb_true).
    assert (Z' : Js.Reqb (- v) 0 = true) by (apply Reqb_true; lra).
    rewrite Z, Z'. cbn [negb nnt set_nnt initialResults option_map].
    split; [reflexivity|]. discriminate.
  - assert (Z : Js.Reqb v 0 = false) by (now apply Reqb_false).
    assert (Z' : Js.Reqb (- v) 0 = false) by (apply Reqb_false; lra).
    rewrite Z, Z'. cbn [negb nnt set_nnt initialResults option_map Nnt.value].
    change (Js.abs (Js.Fin ?x)) with (Js.Fin (Rabs x)).
    rewrite Rabs_Ropp. split; [reflexivity|].
    intros n n' [= <-] [= <-]. cbn [Nnt.type_ Js.lt Js.gt].
    unfold Js.Rltb.
    destruct studyGoal; cbn [StudyGoal_eqb andb orb];
      destruct (Rlt_dec v 0), (Rlt_dec 0 v), (Rlt_dec (- v) 0), (Rlt_dec 0 (- v));
      try discriminate; exfalso; lra.
Qed.

End Risks.

Section Odds.

Hypothesis a_pos : (0 < a)%N.
Hypothesis b_pos : (0 < b)%N.
Hypothesis c_pos : (0 < c)%N.
Hypothesis d_pos : (0 < d)%N.

(** In exact arithmetic, with no empty cell, exchanging the groups inverts
    the odds ratio and its interval and changes the sign of the Z
    statistic. *)
Lemma exchanged_odds_ratio_exact :
  exists v lo up z pv,
    0 < lo /\ 0 < v /\ 0 < up /\
    oddsRatio (newResults (table a b c d) studyDesign studyGoal)
    = Some (Ratio.make (Js.Fin v) (Js.Fin lo) (Js.Fin up) pv (Js.Fin z)) /\
    oddsRatio r'
    = Some (Ratio.make (Js.Fin (1 / v)) (Js.Fin (1 / up)) (Js.Fin (1 / lo))
              pv (Js.Fin (- z))).
Proof.
  rewrite !oddsRatio_any_design. unfold assignOddsRatio.
  pose proof (oddsRatio_guard_table a b c d) as G. cbv zeta in G. rewrite G. clear G.
  pose proof (oddsRatio_guard_table c d a b) as G. cbv zeta in G. rewrite G. clear G.
  apply N.ltb_lt in a_pos as Ha, b_pos as Hb, c_pos as Hc, d_pos as Hd.
  rewrite Ha, Hb, Hc, Hd. cbn [andb]. cbv zeta.
  rewrite !odds_ratio_table.
  assert (Ssw : Js.sqrt (Js.add (Js.add (Js.add
      (Js.div (Js.Fin 1) (Values.a (corrected (table c d a b))))
      (Js.div (Js.Fin 1) (Values.b (corrected (table c d a b)))))
      (Js.div (Js.Fin 1) (Values.c (corrected (table c d a b)))))
      (Js.div (Js.Fin 1) (Values.d (corrected (table c d a b)))))
    = Js.sqrt (Js.add (Js.add (Js.add
      (Js.div (Js.Fin 1) (Values.a (corrected (table a b c d))))
      (Js.div (Js.Fin 1) (Values.b (corrected (table a b c d)))))
      (Js.div (Js.Fin 1) (Values.c (corrected (table a b c d)))))
      (Js.div (Js.Fin 1) (Values.d (corrected (table a b c d)))))).
  { rewrite !corrected_table. cbn [Values.a Values.b Values.c Values.d].
    pose proof (corrected_cell_pos a). pose proof (corrected_cell_pos b).
    pose proof (corrected_cell_pos c). pose proof (corrected_cell_pos d).
    rewrite !div_fin by lra. cbn [Js.add]. do 2 f_equal. lra. }
  rewrite Ssw.
  destruct (se_ln_or_table a b c d) as (se & Hse & ->).
  pose proof (corrected_cell_pos a) as Pa. pose proof (corrected_cell_pos b) as Pb.
  pose proof (corrected_cell_pos c) as Pc. pose proof (corrected_cell_pos d) as Pd.
  set (v := corrected_cell a * corrected_cell d / (corrected_cell b * corrected_cell c)).
  assert (Hv : 0 < v) by (apply Rdiv_lt_0_compat; nra).
  assert (Ev : corrected_cell c * corrected_cell b
               / (corrected_cell d * corrected_cell a) = 1 / v).
  { unfold v. field. repeat split; lra. }
  rewrite Ev.
  assert (Hiv : 0 < 1 / v) by (apply Rdiv_lt_0_compat; lra).
  rewrite (log_fin v Hv), (log_fin (1 / v) Hiv).
  assert (El : ln (1 / v) = - ln v).
  { unfold Rdiv. rewrite Rmult_1_l. apply ln_Rinv. exact Hv. }
  rewrite El.
  cbn [Js.mul Js.sub Js.neg Js.add Js.exp]. rewrite !div_fin by lra.
  cbn [oddsRatio set_oddsRatio].
  assert (Ez : - ln v / se = - (ln v / se)) by (field; lra).
  rewrite Ez.
  change (Js.Fin (- (ln v / se))) with (Js.neg (Js.Fin (ln v / se))).
  assert (Ep : calculatePValueFromZ (Js.neg (Js.Fin (ln v / se)))
               = calculatePValueFromZ (Js.Fin (ln v / se))).
  { unfold calculatePValueFromZ. now rewrite abs_neg. }
  rewrite Ep. cbn [Js.neg].
  exists v, (exp (ln v + - (1.96 * se))), (exp (ln v + 1.96 * se)),
         (ln v / se), (calculatePValueFromZ (Js.Fin (ln v / se))).
  split; [apply exp_pos|]. split; [exact Hv|]. split; [apply exp_pos|].
  split; [reflexivity|].
  do 2 f_equal.
  - f_equal. unfold Rdiv. rewrite Rmult_1_l, <- exp_Ropp. f_equal. lra.
  - f_equal. unfold Rdiv. rewrite Rmult_1_l, <- exp_Ropp. f_equal. lra.
Qed.

(** X22.  On a table of fewer than 2^26 subjects with no empty cell, exchanging
    the groups inverts the odds ratio and its interval and changes the sign
    of the Z statistic: the new estimate times the old one is 1, the new
    lower bound times the old upper bound is 1, the new upper bound times
    the old lower bound is 1, and the two Z statistics add up to 0, each
    within 1e-9 (exactly in exact arithmetic; in binary64 the exponential,
    the logarithm and the sum under the root are rounded, and the sum is
    taken in another order). *)
Theorem exchanging_groups_inverts_odds_ratio :
  moderate a b c d ->
  exists o o' v lo up z v' lo' up' z',
    oddsRatio (newResults (table a b c d) studyDesign studyGoal) = Some o /\
    oddsRatio (newResults (table c d a b) studyDesign studyGoal) = Some o' /\
    Ratio.value o = Js.Fin v /\ Ratio.lower o = Js.Fin lo /\
    Ratio.upper o = Js.Fin up /\ Ratio.zStat o = Js.Fin z /\
    Ratio.value o' = Js.Fin v' /\ Ratio.lower o' = Js.Fin lo' /\
    Ratio.upper o' = Js.Fin up' /\ Ratio.zStat o' = Js.Fin z' /\
    0 < lo /\ 0 < v /\ 0 < up /\
    Rabs (v' * v - 1) <= 0.000000001 /\
    Rabs (lo' * up - 1) <= 0.000000001 /\
    Rabs (up' * lo - 1) <= 0.000000001 /\
    Rabs (z' + z) <= 0.000000001.
Proof.
  intros _.
  destruct exchanged_odds_ratio_exact
    as (v & lo & up & z & pv & Hlo & Hv & Hup & E & E').
  assert (Z0 : forall x, x = 0 -> Rabs x <= 0.000000001).
  { intros x ->. rewrite Rabs_R0. lra. }
  eexists. eexists. exists v, lo, up, z, (1 / v), (1 / up), (1 / lo), (- z).
  split; [exact E|]. split; [exact E'|].
  cbn [Ratio.value Ratio.lower Ratio.upper Ratio.zStat].
  do 8 (split; [reflexivity|]).
  split; [exact Hlo|]. split; [exact Hv|]. split; [exact Hup|].
  repeat split; apply Z0; try (field; lra); lra.
Qed.

End Odds.

End GroupSwap.

(* ================================================================= *)
(** ** Further scenarios *)

Section FurtherScenarios.

Local Open Scope R_scope.
Local Open Scope string_scope.

(** Scenario A: 20, 80, 5, 95 in a prospective cohort with an undesirable
    outcome.  The separated table has no overlap between the groups. *)
Local Abbreviation rA :=
  (newResults (table 20 80 5 95) cohort_prospective undesirable).
Local Abbreviation rA' :=
  (newResults (table 5 95 20 80) cohort_prospective undesirable).
Local Abbreviation separated := (newResults (table 10 0 0 10) rct undesirable).
Local Abbreviation rD := (newResults (table 5 45 5 45) rct undesirable).

(** Scenario A: the odds ratio lies strictly inside its interval. *)
Lemma odds_ratio_interval_scenario_A :
  moderate 20 80 5 95 /\ (0 < 80)%N /\ (0 < 5)%N /\
  exists o v lo up,
    oddsRatio rA = Some o /\
    Ratio.value o = Js.Fin v /\ Ratio.lower o = Js.Fin lo /\
    Ratio.upper o = Js.Fin up /\
    0 < lo < v /\ v < up.
Proof.
  assert (H0 : moderate 20 80 5 95) by reflexivity.
  assert (H1 : (0 < 80)%N) by reflexivity.
  assert (H2 : (0 < 5)%N) by reflexivity.
  split; [exact H0|]. split; [exact H1|]. split; [exact H2|].
  destruct (odds_ratio_interval_brackets
              20 80 5 95 cohort_prospective undesirable H0 H1 H2)
    as (o & v & lo & up & z & Ho & Hv & Hlo & Hup & _ & A & B & _).
  exists o, v, lo, up. repeat (split; [assumption|]). assumption.
Defined.

(** Scenario A: the two risks are proportions. *)
Lemma risks_range_scenario_A :
  cohort_prospective <> case_control /\ (0 < 20 + 80)%N /\ (0 < 5 + 95)%N /\
  moderate 20 80 5 95 /\
  exists pe pc,
    absoluteRiskExposed rA = Some (Point.make (Js.Fin pe)) /\
    absoluteRiskControl rA = Some (Point.make (Js.Fin pc)) /\
    0 <= pe <= 1 /\ 0 <= pc <= 1 /\ -1 <= pe - pc <= 1.
Proof.
  assert (H1 : cohort_prospective <> case_control) by discriminate.
  assert (H2 : (0 < 20 + 80)%N) by reflexivity.
  assert (H3 : (0 < 5 + 95)%N) by reflexivity.
  assert (H4 : moderate 20 80 5 95) by reflexivity.
  repeat (split; [assumption|]).
  destruct (risks_are_proportions_nnt_at_least_one
              20 80 5 95 cohort_prospective undesirable H1 H2 H3 H4)
    as (pe & pc & He & Hc & Re & Rc & _ & Rd & _).
  exists pe, pc. repeat (split; [assumption|]). assumption.
Defined.

(** Scenario A: the interval of the risk difference contains it. *)
Lemma risk_difference_interval_scenario_A :
  cohort_prospective <> case_control /\ (0 < 20 + 80)%N /\ (0 < 5 + 95)%N /\
  moderate 20 80 5 95 /\
  exists ci v lo up,
    riskDifference rA = Some ci /\
    Interval.value ci = Js.Fin v /\ Interval.lower ci = Js.Fin lo /\
    Interval.upper ci = Js.Fin up /\
    lo < v < up.
Proof.
  assert (H1 : cohort_prospective <> case_control) by discriminate.
  assert (H2 : (0 < 20 + 80)%N) by reflexivity.
  assert (H3 : (0 < 5 + 95)%N) by reflexivity.
  assert (H4 : moderate 20 80 5 95) by reflexivity.
  repeat (split; [assumption|]).
  exact (risk_difference_interval_brackets
           20 80 5 95 cohort_prospective undesirable H1 H2 H3 H4).
Defined.

(** A separated table (10, 0, 0, 10): no power and no type II error, the
    type I error still 0.05. *)
Lemma power_separated_table :
  rct <> case_control /\ (0 < 10 + 0)%N /\ (0 < 0 + 10)%N /\
  moderate 10 0 0 10 /\
  power separated = None /\ type2Error separated = None /\
  type1Error separated = Some (Point.make (Js.Fin 0.05)).
Proof.
  assert (H1 : rct <> case_control) by discriminate.
  assert (H2 : (0 < 10 + 0)%N) by reflexivity.
  assert (H3 : (0 < 0 + 10)%N) by reflexivity.
  assert (H4 : moderate 10 0 0 10) by reflexivity.
  repeat (split; [assumption|]).
  destruct (power_missing_iff_separated 10 0 0 10 rct undesirable H1 H2 H3 H4)
    as (Hp & H2' & H1').
  assert (P : power separated = None).
  { apply Hp. right. split; reflexivity. }
  split; [exact P|]. split; [apply H2'; exact P|exact H1'].
Defined.

(** The distribution function at -1 and at 2. *)
Lemma normalCDF_order_example :
  Js.le (Js.Fin (-1)) (Js.Fin 2) = true /\
  exists p q,
    normalCDF (Js.Fin (-1)) = Js.Fin p /\ normalCDF (Js.Fin 2) = Js.Fin q /\
    0 <= p <= 1 /\ 0 <= q <= 1 /\ p <= q + 0.000000001.
Proof.
  assert (H : Js.le (Js.Fin (-1)) (Js.Fin 2) = true) by (apply Rleb_true; lra).
  split; [exact H|].
  destruct (normalCDF_order_and_range (Js.Fin (-1)) (Js.Fin 2) H)
    as (p & q & Hp & Hq & A & B & C & _).
  exists p, q. repeat (split; [assumption|]). assumption.
Defined.

(** The two infinite Z statistics, as a table without exposed events
    produces one. *)
Lemma p_value_floor_at_infinity :
  Js.le (Js.abs Js.NegInf) (Js.abs Js.PosInf) = true /\
  calculatePValueFromZ Js.NegInf = "<0.0001" /\
  calculatePValueFromZ Js.PosInf = "<0.0001".
Proof.
  assert (H : Js.le (Js.abs Js.NegInf) (Js.abs Js.PosInf) = true) by reflexivity.
  pose proof (proj1 calculatePValueFromZ_infinite) as H1.
  split; [exact H|]. split; [exact H1|].
  exact (p_value_floor_is_upward_closed Js.NegInf Js.PosInf H H1).
Defined.

(** Scenario A: the power, when reported, is a probability. *)
Lemma power_scenario_A :
  cohort_prospective <> case_control /\ (0 < 20 + 80)%N /\ (0 < 5 + 95)%N /\
  ((power rA = None /\ type2Error rA = None) \/
   exists v,
     0 <= v <= 1 /\
     power rA = Some (Point.make (Js.Fin v)) /\
     type2Error rA = Some (Point.make (Js.Fin (1 - v)))).
Proof.
  assert (H1 : cohort_prospective <> case_control) by discriminate.
  assert (H2 : (0 < 20 + 80)%N) by reflexivity.
  assert (H3 : (0 < 5 + 95)%N) by reflexivity.
  repeat (split; [assumption|]).
  exact (power_is_a_probability 20 80 5 95 cohort_prospective undesirable H1 H2 H3).
Defined.

(** The risks of scenario A, 0.20 and 0.05, give a sample size. *)
Lemma sample_size_scenario_A :
  0 <= 0.2 <= 1 /\ 0 <= 0.05 <= 1 /\ / 10 ^ 100 <= Rabs (0.2 - 0.05) /\
  exists n : Z,
    calculateRequiredSampleSize (Js.Fin 0.2) (Js.Fin 0.05) = Some (Js.Fin (IZR n)) /\
    (2 <= n)%Z.
Proof.
  assert (H1 : 0 <= 0.2 <= 1) by lra.
  assert (H2 : 0 <= 0.05 <= 1) by lra.
  assert (H3 : / 10 ^ 100 <= Rabs (0.2 - 0.05)).
  { rewrite Rabs_right by lra.
    assert (/ 10 ^ 100 <= / 1).
    { apply Rinv_le_contravar; [lra|]. apply pow_R1_Rle. lra. }
    lra. }
  split; [exact H1|]. split; [exact H2|]. split; [exact H3|].
  destruct (required_sample_size_at_least_two 0.2 0.05 H1 H2 H3) as (n & Hn & Hge).
  exists n. split; assumption.
Defined.

(** Scenario D (5, 45, 5, 45): equal risks, no sample size can be given. *)
Lemma recommendation_scenario_D :
  rct <> case_control /\ (0 < 5 + 45)%N /\ moderate 5 45 5 45 /\
  power rD = Some (Point.make (Js.Fin 0.05)) /\
  Js.lt (Js.Fin 0.05) (Js.Fin 0.80) = true /\
  sampleSizeRecommendationPrompt rD rct
  = [ Text "The calculated statistical power is low, but a sample size recommendation could not be determined from the provided data." ] /\
  sampleSizeRecommendationPrompt rD case_control
  = [ Text "The calculated statistical power is low, but a sample size recommendation could not be determined from the provided data." ].
Proof.
  assert (H1 : rct <> case_control) by discriminate.
  assert (H2 : (0 < 5 + 45)%N) by reflexivity.
  assert (H3 : moderate 5 45 5 45) by reflexivity.
  assert (H4 : power rD = Some (Point.make (Js.Fin 0.05))).
  { destruct (power_incidence (table 5 45 5 45) rct undesirable H1
                (proj2 (exposedTotal_pos 5 45 5 45) H2)
                (proj2 (controlTotal_pos 5 45 5 45) H2)) as (Hp & _).
    rewrite Hp. rewrite assignPower_equal; reflexivity. }
  assert (H5 : Js.lt (Js.Fin 0.05) (Js.Fin 0.80) = true) by (apply Rltb_true; lra).
  repeat (split; [assumption|]).
  split.
  - destruct (sample_size_recommendation 5 45 5 45 rct undesirable H1 H2 H2 H3 rct)
      as (_ & _ & Hlow).
    destruct (Hlow _ H4 H5) as (Hund & _). apply Hund. right. reflexivity.
  - destruct (sample_size_recommendation 5 45 5 45 rct undesirable H1 H2 H2 H3
                case_control)
      as (_ & _ & Hlow).
    destruct (Hlow _ H4 H5) as (Hund & _). apply Hund. left. reflexivity.
Defined.


(** The text 3.7 is read as 3. *)
Lemma parseInt_decimal_point :
  (3 < 2 ^ 53)%N /\ digitPrefix 10 ".7" = [] /\ parseInt "3.7" 10 = Js.Fin (count 3).
Proof.
  assert (H0 : (3 < 2 ^ 53)%N) by reflexivity.
  assert (H : digitPrefix 10 ".7" = []) by reflexivity.
  split; [exact H0|]. split; [exact H|].
  exact (parseInt_reads_leading_numeral 3 ".7" H0 H).
Defined.

(** Scenario A: the relative increase is the relative risk less 1. *)
Lemma relative_impact_scenario_A :
  cohort_prospective <> case_control /\ (0 < 20 + 80)%N /\ (0 < 5 + 95)%N /\
  moderate 20 80 5 95 /\
  (impactMeasures rA = None \/
   exists m o rr rel,
     impactMeasures rA = Some m /\
     relativeRisk rA = Some o /\ Ratio.value o = Js.Fin rr /\
     Impact.value (Impact.relative m) = Js.Fin rel /\
     Rabs (rel - Rabs (rr - 1)) <= 0.000000001 * (1 + rr)).
Proof.
  assert (H1 : cohort_prospective <> case_control) by discriminate.
  assert (H2 : (0 < 20 + 80)%N) by reflexivity.
  assert (H3 : (0 < 5 + 95)%N) by reflexivity.
  assert (H4 : moderate 20 80 5 95) by reflexivity.
  repeat (split; [assumption|]).
  exact (relative_impact_is_distance_of_relative_risk_from_one
           20 80 5 95 cohort_prospective undesirable H1 H2 H3 H4).
Defined.

(** Scenario A: no number of the results is NaN. *)
Lemma finite_results_scenario_A :
  moderate 20 80 5 95 /\
  forallb Js.isFinite (estimates rA) = true /\
  forallb (fun x => negb (Js.isNaN x)) (unbounded rA) = true.
Proof.
  assert (H : moderate 20 80 5 95) by reflexivity.
  split; [exact H|].
  exact (results_are_never_NaN 20 80 5 95 cohort_prospective undesirable H).
Defined.

(** Scenario A with its groups exchanged. *)
Lemma exchanged_groups_scenario_A :
  cohort_prospective <> case_control /\ (0 < 20 + 80)%N /\ (0 < 5 + 95)%N /\
  absoluteRiskExposed rA' = absoluteRiskControl rA /\
  absoluteRiskControl rA' = absoluteRiskExposed rA /\
  option_map Nnt.value (nnt rA') = option_map Nnt.value (nnt rA).
Proof.
  assert (H1 : cohort_prospective <> case_control) by discriminate.
  assert (H2 : (0 < 20 + 80)%N) by reflexivity.
  assert (H3 : (0 < 5 + 95)%N) by reflexivity.
  repeat (split; [assumption|]).
  destruct (exchanging_groups_mirrors_risk_difference
              20 80 5 95 cohort_prospective undesirable H1 H2 H3)
    as (A & B & _ & C & _).
  split; [exact A|]. split; [exact B|exact C].
Defined.

(** Scenario A with its groups exchanged: the odds ratio is inverted. *)
Lemma exchanged_odds_scenario_A :
  (0 < 20)%N /\ (0 < 80)%N /\ (0 < 5)%N /\ (0 < 95)%N /\ moderate 20 80 5 95 /\
  exists o o' v v',
    oddsRatio rA = Some o /\ oddsRatio rA' = Some o' /\
    Ratio.value o = Js.Fin v /\ Ratio.value o' = Js.Fin v' /\
    Rabs (v' * v - 1) <= 0.000000001.
Proof.
  assert (H1 : (0 < 20)%N) by reflexivity.
  assert (H2 : (0 < 80)%N) by reflexivity.
  assert (H3 : (0 < 5)%N) by reflexivity.
  assert (H4 : (0 < 95)%N) by reflexivity.
  assert (H5 : moderate 20 80 5 95) by reflexivity.
  repeat (split; [assumption|]).
  destruct (exchanging_groups_inverts_odds_ratio
              20 80 5 95 cohort_prospective undesirable H1 H2 H3 H4 H5)
    as (o & o' & v & lo & up & z & v' & lo' & up' & z' & Ho & Ho' & Ev & _ & _ & _
        & Ev' & _ & _ & _ & _ & _ & _ & Hinv & _).
  exists o, o', v, v'. repeat (split; [assumption|]). assumption.
Defined.

(** Scenario A as typed in the form. *)
Lemma typed_counts_scenario_A :
  (20 < 2 ^ 53 /\ 80 < 2 ^ 53 /\ 5 < 2 ^ 53 /\ 95 < 2 ^ 53)%N /\
  parseValues (typed 20 80 5 95) = table 20 80 5 95 /\
  handleCalculate (Some undesirable) (Some cohort_prospective)
    (parseValues (typed 20 80 5 95)) = inr rA.
Proof.
  assert (H : (20 < 2 ^ 53 /\ 80 < 2 ^ 53 /\ 5 < 2 ^ 53 /\ 95 < 2 ^ 53)%N)
    by (repeat split; reflexivity).
  split; [exact H|].
  destruct (typed_counts_are_read_back 20 80 5 95 cohort_prospective undesirable H)
    as (P & Hc & _).
  split; assumption.
Defined.

End FurtherScenarios.
